(** * Paper-trading core of polymarket-btc-up-down: a shallow embedding

    The development embeds, function by function, the parts of the repository
    that decide the specification's claims about the trade state machine, the
    ledger and the session VWAP:

    - [Ledger]: [src/src/paper_trading/ledger.js] ([loadLedger], [saveLedger],
      [updateLedger], [recalculateSummary], [addTrade], [updateTrade],
      [getOpenTrade], [getLedger]).
    - [Trader]: the [Trader] class of [paper_trading/trader.js] in its latest
      revision, the one with bankroll sizing, rec gating, rollover close,
      conditional stop loss and flip.  The repository snapshot stores that
      revision as the third document of [src/src/ui/script.js] (lines 375-821,
      from the second separator line on; "rev. 2, l. N" below is line
      374 + N of that file).  The file
      [src/src/paper_trading/trader.js] itself holds the earlier revision,
      without those features; it is embedded as [LegacyTrader].
    - [Vwap]: [computeSessionVwap] and [computeVwapSeries], the second
      document of [src/src/index.js] (lines 361-394); [VwapCross]:
      [countVwapCrosses] of its first document (l. 108).
    - [App]: the trader singleton of [paper_trading/trader.js]
      ([initializeTrader], [getTraderInstance], [getOpenTrade]) and the
      steps of [startApp] in [src/src/index.js] that start the ledger and
      the trader and hand each tick to it.
    - [Analytics]: the overview that [computeAnalytics] of
      [src/src/ui/server.js] computes from the ledger's trades.

    JavaScript numbers are IEEE-754 binary64 values, modelled by Rocq's
    primitive floats, so that NaN, the infinities, signed zeros and rounding
    are those of the program.  Values that the code tests with [typeof],
    [=== null], [??] or [||] are [jsval]s; the [shares] of a trade, which
    the code converts with [Number(...)], may be any primitive ([jsprim]:
    a string or a boolean as well).  State is passed explicitly: the ledger
    module's cache and file form a [store], the trader's fields a [tstate];
    a call returns an [outcome], a value or a thrown error.  The clock, the
    random identifier and the success of the file write are inputs of a call
    ([env]).  Console output (but for a log line that can throw) and the
    creation of the [paper_trading] directory are not modelled. *)

From Stdlib Require Import ZArith Bool Ascii String.
From Stdlib Require Import Floats.
From Stdlib Require Uint63.
From stdpp Require Import base option list strings.

Set Warnings "-inexact-float".
Local Open Scope string_scope.

(** ** JavaScript numbers *)

Module JsNum.

Local Open Scope float_scope.

(** [a < b], [a <= b], [a > b], [a >= b] on numbers: false whenever an
    operand is NaN. *)
Definition lt (a b : float) : bool := a <? b.
Definition le (a b : float) : bool := a <=? b.
Definition gt (a b : float) : bool := b <? a.
Definition ge (a b : float) : bool := b <=? a.

(** [a === b] on numbers. *)
Definition seq (a b : float) : bool := a =? b.

(** [Number.isFinite(x)] for a number [x]. *)
Definition isFinite (x : float) : bool := is_finite x.

(** Truthiness of a number: [0], [-0] and [NaN] are falsy. *)
Definition truthy (x : float) : bool := negb (is_nan x || PrimFloat.is_zero x).

(** The length of an array as a number. *)
Definition of_nat (n : nat) : float := of_uint63 (Uint63.of_Z (Z.of_nat n)).

(** A counter advanced by [n += 1], [k] times from [0]. *)
Fixpoint count (k : nat) : float :=
  match k with
  | O => 0
  | S k' => count k' + 1
  end.

(** [Math.max(a, b)] and [Math.min(a, b)]: NaN if either is NaN; [+0] is
    larger than [-0]. *)
Definition max (a b : float) : float :=
  if is_nan a || is_nan b then nan
  else if a <? b then b
  else if b <? a then a
  else if PrimFloat.is_zero a && get_sign a then b else a.

Definition min (a b : float) : float :=
  if is_nan a || is_nan b then nan
  else if a <? b then a
  else if b <? a then b
  else if PrimFloat.is_zero a && get_sign a then a else b.

(** [Math.abs(x)]. *)
Definition abs (x : float) : float := PrimFloat.abs x.

(** A non-negative integer below 2^63 as a number. *)
Definition of_Z (z : Z) : float := of_uint63 (Uint63.of_Z z).

(** [Math.floor(x)].  A finite [x] is [(-1)^s * m * 2^e]; with [e >= 0] it
    is an integer already. *)
Definition floor (x : float) : float :=
  match Prim2SF x with
  | S754_finite s m e =>
      if (0 <=? e)%Z then x
      else
        let q := Z.shiftr (Z.pos m) (- e) in
        let r := Z.land (Z.pos m) (Z.ones (- e)) in
        if s then (if (r =? 0)%Z then x else - of_Z (q + 1))
        else of_Z q
  | _ => x
  end.

(** [Number(s)] for the decimal [s] that writes the ratio [n / d] of two
    integers, [n >= 0] and [d > 0], exactly: the double nearest to the
    ratio, ties to even.  [SF64div] is the binary64 division on pairs of a
    mantissa and an exponent; given the two integers as mantissas, it rounds
    their exact quotient once. *)
Definition nearest_ratio (n : Z) (d : positive) : float :=
  match n with
  | Zpos p => SF2Prim (SF64div (S754_finite false p 0) (S754_finite false d 0))
  | _ => 0
  end.

(** [Number(x.toFixed(2))]: [toFixed] picks the integer [n] with [n / 100]
    closest to [|x|], the larger one on a tie, and prints [n / 100] exactly,
    with the sign of a negative [x] in front; [Number] reads that decimal
    back as the nearest double.  Integers (every [|x| >= 2^52], among them
    those of 1e21 and more, which [toFixed] prints in exponent form),
    infinities and NaN read back as themselves, and [-0] prints as
    "0.00". *)
Definition toFixed2 (x : float) : float :=
  match Prim2SF x with
  | S754_finite s m e =>
      if (0 <=? e)%Z then x
      else
        let k := (- e)%Z in
        let n := Z.shiftr (Z.pos m * 100 + Z.shiftl 1 (k - 1)) k in
        let r := nearest_ratio n 100 in
        if s then - r else r
  | S754_zero _ => 0
  | _ => x
  end.

End JsNum.

(** ** JavaScript values and control *)

(** A value that is a number, [null] or [undefined]: what the numeric fields
    of signals, trades and the ledger summary hold (the feeds and the trader
    write numbers or [null], and JSON reads numbers and [null] back).  A key
    that is absent reads as [JUndef]. *)
Inductive jsval : Type :=
  | JUndef
  | JNull
  | JNum (x : float).

(** A primitive value: one of the above, a boolean or a string.  The
    [shares] of a trade that is handed to the ledger, or read from its file,
    is tested through [Number(shares)], which accepts any of them.  A string
    is held as its UTF-8 bytes. *)
Inductive jsprim : Type :=
  | JVal (v : jsval)
  | JBool (b : bool)
  | JStr (s : string).

Coercion JVal : jsval >-> jsprim.

(** ** [Number(string)]: StringToNumber (ECMA-262, 7.1.4.1.1) *)

Module StrNum.

Local Open Scope Z_scope.

Definition code (c : ascii) : Z := Z.of_N (N_of_ascii c).

(** StrWhiteSpaceChar, by the length of its UTF-8 encoding: TAB, LF, VT, FF,
    CR and SP; U+00A0; U+1680, U+2000 to U+200A, U+2028, U+2029, U+202F,
    U+205F, U+3000 and U+FEFF. *)
Definition ws1 (a : Z) : bool := (9 <=? a) && (a <=? 13) || (a =? 32).

Definition ws2 (a b : Z) : bool := (a =? 194) && (b =? 160).

Definition ws3 (a b c : Z) : bool :=
  (a =? 225) && (b =? 154) && (c =? 128)
  || (a =? 226) && (b =? 128)
     && ((128 <=? c) && (c <=? 138) || (c =? 168) || (c =? 169) || (c =? 175))
  || (a =? 226) && (b =? 129) && (c =? 159)
  || (a =? 227) && (b =? 128) && (c =? 128)
  || (a =? 239) && (b =? 187) && (c =? 191).

(** The string without its leading white space. *)
Fixpoint skip_ws (s : string) : string :=
  match s with
  | String a r1 =>
      if ws1 (code a) then skip_ws r1
      else
        match r1 with
        | String b r2 =>
            if ws2 (code a) (code b) then skip_ws r2
            else
              match r2 with
              | String c r3 => if ws3 (code a) (code b) (code c) then skip_ws r3 else s
              | EmptyString => s
              end
        | EmptyString => s
        end
  | EmptyString => s
  end.

(** The string without its trailing white space: cut where the rest is
    white space only. *)
Fixpoint trim_end (s : string) : string :=
  match s with
  | String a r =>
      match skip_ws s with
      | EmptyString => EmptyString
      | _ => String a (trim_end r)
      end
  | EmptyString => EmptyString
  end.

Definition trim (s : string) : string := trim_end (skip_ws s).

(** The value of a digit in base 10, 16, 8 and 2. *)
Definition digit (c : ascii) : option Z :=
  let a := code c in
  if (48 <=? a) && (a <=? 57) then Some (a - 48) else None.

Definition hex_digit (c : ascii) : option Z :=
  let a := code c in
  if (48 <=? a) && (a <=? 57) then Some (a - 48)
  else if (97 <=? a) && (a <=? 102) then Some (a - 87)
  else if (65 <=? a) && (a <=? 70) then Some (a - 55)
  else None.

Definition digit_below (base : Z) (c : ascii) : option Z :=
  match digit c with
  | Some d => if d <? base then Some d else None
  | None => None
  end.

(** The longest run of digits at the head of [s]: the number it writes after
    the digits [acc] read so far, the count of digits read, and the rest. *)
Fixpoint digits (base : Z) (dig : ascii -> option Z) (s : string) (acc count : Z)
  : Z * Z * string :=
  match s with
  | String c r =>
      match dig c with
      | Some d => digits base dig r (acc * base + d) (count + 1)
      | None => (acc, count, s)
      end
  | EmptyString => (acc, count, s)
  end.

(** A string that is digits only, and at least one. *)
Definition all_digits (base : Z) (dig : ascii -> option Z) (s : string) : option Z :=
  match digits base dig s 0 0 with
  | (v, count, EmptyString) => if 0 <? count then Some v else None
  | _ => None
  end.

(** NonDecimalIntegerLiteral: [0x], [0o] or [0b] (in either case) and digits
    of that base.  [None]: the string does not start like one; [Some None]:
    it does, and is not one. *)
Definition radix_literal (s : string) : option (option Z) :=
  match s with
  | String z (String p r) =>
      if code z =? 48 then
        let a := code p in
        if (a =? 120) || (a =? 88) then Some (all_digits 16 hex_digit r)
        else if (a =? 111) || (a =? 79) then Some (all_digits 8 (digit_below 8) r)
        else if (a =? 98) || (a =? 66) then Some (all_digits 2 (digit_below 2) r)
        else None
      else None
  | _ => None
  end.

(** A leading [+] or [-]: whether it is a minus, and the rest. *)
Definition sign (s : string) : bool * string :=
  match s with
  | String c r =>
      if code c =? 43 then (false, r)
      else if code c =? 45 then (true, r)
      else (false, s)
  | EmptyString => (false, s)
  end.

(** What follows the digits of a decimal literal, to the end of the string:
    nothing, or ExponentPart, [e] or [E] and a signed integer. *)
Definition exponent_part (s : string) : option Z :=
  match s with
  | EmptyString => Some 0
  | String c r =>
      if (code c =? 101) || (code c =? 69) then
        let '(minus, r1) := sign r in
        match all_digits 10 digit r1 with
        | Some v => Some (if minus then - v else v)
        | None => None
        end
      else None
  end.

(** StrUnsignedDecimalLiteral other than [Infinity]: digits, with a dot
    before, inside or after them, then the optional exponent.  The result
    [(m, e)] stands for [m * 10^e]. *)
Definition unsigned_decimal (s : string) : option (Z * Z) :=
  let '(int, count_int, r) := digits 10 digit s 0 0 in
  let '(m, count_frac, r1) :=
    match r with
    | String c r' => if code c =? 46 then digits 10 digit r' int 0 else (int, 0, r)
    | EmptyString => (int, 0, r)
    end in
  if 0 <? count_int + count_frac then
    match exponent_part r1 with
    | Some e => Some (m, e - count_frac)
    | None => None
    end
  else None.

End StrNum.

Module Js.

Local Open Scope float_scope.

(** [Number(s)] of a string: [0] when it is empty or white space only, the
    double nearest to the number it writes when it is a numeric literal
    between optional white space, else NaN. *)
Definition string_to_number (s : string) : float :=
  let t := StrNum.trim s in
  match t with
  | EmptyString => 0
  | _ =>
      match StrNum.radix_literal t with
      | Some (Some v) => JsNum.nearest_ratio v 1
      | Some None => nan
      | None =>
          let '(minus, u) := StrNum.sign t in
          let magnitude :=
            if String.eqb u "Infinity" then infinity
            else
              match StrNum.unsigned_decimal u with
              | Some (m, e) =>
                  if (0 <=? e)%Z then JsNum.nearest_ratio (m * 10 ^ e) 1
                  else JsNum.nearest_ratio m (Z.to_pos (10 ^ (- e)))
              | None => nan
              end in
          if minus then - magnitude else magnitude
      end
  end.

(** [typeof v === "number"]. *)
Definition is_number (v : jsval) : bool :=
  match v with JNum _ => true | _ => false end.

(** [v === null] and [v === null || v === undefined]. *)
Definition is_null (v : jsval) : bool :=
  match v with JNull => true | _ => false end.

Definition is_nullish (v : jsprim) : bool :=
  match v with
  | JVal JUndef | JVal JNull => true
  | _ => false
  end.

(** [v ?? d]. *)
Definition coalesce (v d : jsval) : jsval :=
  match v with JNum _ => v | _ => d end.

(** [Number(v)], also the conversion that [<], [>], [*], [-] apply:
    [null] is [0], [undefined] is [NaN], [true] is [1] and [false] is [0]. *)
Definition to_number (v : jsprim) : float :=
  match v with
  | JVal (JNum x) => x
  | JVal JNull => 0
  | JVal JUndef => nan
  | JBool b => if b then 1 else 0
  | JStr s => string_to_number s
  end.

(** [typeof v === "number" && Number.isFinite(v)]. *)
Definition is_finite_number (v : jsprim) : bool :=
  match v with JVal (JNum x) => JsNum.isFinite x | _ => false end.

(** Truthiness. *)
Definition truthy (v : jsval) : bool :=
  match v with JNum x => JsNum.truthy x | _ => false end.

(** Truthiness of a string that may be absent: [""] is falsy. *)
Definition truthy_str (s : option string) : bool :=
  match s with
  | Some s => negb (String.eqb s "")
  | None => false
  end.

(** [s || d] for such a string. *)
Definition str_or (s : option string) (d : string) : string :=
  match s with
  | Some s => if String.eqb s "" then d else s
  | None => d
  end.

(** Truthiness of an object or [null]/[undefined]. *)
Definition truthy_obj {A : Type} (o : option A) : bool :=
  match o with Some _ => true | None => false end.

(** [o ?? d] for an optional configuration entry. *)
Definition opt_or {A : Type} (o : option A) (d : A) : A :=
  match o with Some a => a | None => d end.

End Js.

(** What a call does: return a value or throw.  [try_catch] is
    [try { body } catch (error) { handler }]. *)
Inductive outcome (A : Type) : Type :=
  | Returned (a : A)
  | Thrown (err : string).
Arguments Returned {A} a.
Arguments Thrown {A} err.

Definition obind {A B : Type} (m : outcome A) (k : A -> outcome B) : outcome B :=
  match m with
  | Returned a => k a
  | Thrown err => Thrown err
  end.

Definition try_catch {A : Type} (body : outcome A) (handler : string -> outcome A)
  : outcome A :=
  match body with
  | Returned a => Returned a
  | Thrown err => handler err
  end.

#[global] Instance outcome_ret : MRet outcome := @Returned.
#[global] Instance outcome_bind : MBind outcome :=
  fun A B k m => obind m k.

(** ** Data model *)

Inductive side : Type := UP | DOWN.
Inductive status : Type := OPEN | CLOSED.
Inductive phase : Type := EARLY | MID | LATE.

#[global] Instance side_eq_dec : EqDecision side.
Proof. solve_decision. Defined.
#[global] Instance status_eq_dec : EqDecision status.
Proof. solve_decision. Defined.
#[global] Instance phase_eq_dec : EqDecision phase.
Proof. solve_decision. Defined.

(** A trade record as the trader builds it and as the ledger file stores it.
    A field is [None] (or [JUndef]) when the object has no such key. *)
Record trade : Type := mkTrade {
  t_id : option string;
  t_timestamp : option string;
  t_marketSlug : option string;
  t_side : option side;
  t_instrument : option string;
  t_entryPrice : jsval;
  t_shares : jsprim;
  t_contractSize : jsval;
  t_status : option status;
  t_entryTime : option string;
  t_exitPrice : jsval;
  t_exitTime : option string;
  t_pnl : jsval;
  t_entryPhase : option phase;
  t_sideInferred : option bool;
  t_exitReason : option string;
  t_entryReason : option string
}.

(** [{ ...old, ...patch }]: every key of [patch] wins.  A key that holds
    [undefined] counts as absent (the trader never patches with one, and
    JSON does not store one). *)
Definition over {A : Type} (patch old : option A) : option A :=
  match patch with Some _ => patch | None => old end.

Definition jover (patch old : jsval) : jsval :=
  match patch with JUndef => old | _ => patch end.

Definition pover (patch old : jsprim) : jsprim :=
  match patch with JVal JUndef => old | _ => patch end.

Definition merge (old patch : trade) : trade :=
  {| t_id := over (t_id patch) (t_id old);
     t_timestamp := over (t_timestamp patch) (t_timestamp old);
     t_marketSlug := over (t_marketSlug patch) (t_marketSlug old);
     t_side := over (t_side patch) (t_side old);
     t_instrument := over (t_instrument patch) (t_instrument old);
     t_entryPrice := jover (t_entryPrice patch) (t_entryPrice old);
     t_shares := pover (t_shares patch) (t_shares old);
     t_contractSize := jover (t_contractSize patch) (t_contractSize old);
     t_status := over (t_status patch) (t_status old);
     t_entryTime := over (t_entryTime patch) (t_entryTime old);
     t_exitPrice := jover (t_exitPrice patch) (t_exitPrice old);
     t_exitTime := over (t_exitTime patch) (t_exitTime old);
     t_pnl := jover (t_pnl patch) (t_pnl old);
     t_entryPhase := over (t_entryPhase patch) (t_entryPhase old);
     t_sideInferred := over (t_sideInferred patch) (t_sideInferred old);
     t_exitReason := over (t_exitReason patch) (t_exitReason old);
     t_entryReason := over (t_entryReason patch) (t_entryReason old) |}.

(** [trade.status === "OPEN"]. *)
Definition is_open (t : trade) : bool :=
  match t_status t with Some OPEN => true | _ => false end.

Definition is_closed (t : trade) : bool :=
  match t_status t with Some CLOSED => true | _ => false end.

Record summary : Type := mkSummary {
  totalTrades : nat;
  wins : nat;
  losses : nat;
  totalPnL : jsval;
  winRate : float
}.

(** The ledger object: [{ trades, summary }]. *)
Record ledger : Type := mkLedger {
  trades : list trade;
  ledger_summary : option summary
}.

(** The process environment of one call: the clock, the identifier that
    [Date.now().toString() + Math.random().toString(36)...] yields, and
    whether [fs.writeFileSync] succeeds. *)
Record env : Type := mkEnv {
  now_ms : float;
  now_iso : string;
  fresh_id : string;
  write_ok : bool
}.

(** The ledger module's state: its cache [currentLedger] and the content of
    [./paper_trading/trades.json] ([None]: no file, or one that does not
    parse). *)
Record store : Type := mkStore {
  currentLedger : option ledger;
  disk : option ledger
}.

(** ** The ledger: [src/src/paper_trading/ledger.js] *)

Module Ledger.

Local Open Scope float_scope.

(** [JSON.stringify] then [JSON.parse] of a number field: NaN and the
    infinities are written as [null], [-0] as [0], and a key that holds
    [undefined] is not written. *)
Definition json_val (v : jsval) : jsval :=
  match v with
  | JNum x => if JsNum.isFinite x then (if PrimFloat.is_zero x then JNum 0 else JNum x) else JNull
  | _ => v
  end.

(** The same for a field that holds any primitive: a boolean or a string is
    read back as it was written. *)
Definition json_prim (v : jsprim) : jsprim :=
  match v with
  | JVal w => JVal (json_val w)
  | _ => v
  end.

Definition json_trade (t : trade) : trade :=
  {| t_id := t_id t; t_timestamp := t_timestamp t; t_marketSlug := t_marketSlug t;
     t_side := t_side t; t_instrument := t_instrument t;
     t_entryPrice := json_val (t_entryPrice t);
     t_shares := json_prim (t_shares t);
     t_contractSize := json_val (t_contractSize t);
     t_status := t_status t; t_entryTime := t_entryTime t;
     t_exitPrice := json_val (t_exitPrice t);
     t_exitTime := t_exitTime t;
     t_pnl := json_val (t_pnl t);
     t_entryPhase := t_entryPhase t; t_sideInferred := t_sideInferred t;
     t_exitReason := t_exitReason t; t_entryReason := t_entryReason t |}.

Definition json_summary (s : summary) : summary :=
  {| totalTrades := totalTrades s; wins := wins s; losses := losses s;
     totalPnL := json_val (totalPnL s);
     winRate := Js.to_number (json_val (JNum (winRate s))) |}.

Definition json_ledger (l : ledger) : ledger :=
  {| trades := json_trade <$> trades l;
     ledger_summary := json_summary <$> ledger_summary l |}.

(** l. 29-38: the default structure. *)
Definition default_ledger : ledger :=
  {| trades := [];
     ledger_summary :=
       Some {| totalTrades := 0%nat; wins := 0%nat; losses := 0%nat;
               totalPnL := JNum 0; winRate := 0 |} |}.

(** l. 18-39, [loadLedger]: the parsed file, or the default structure when
    the file is missing or reading it throws. *)
Definition loadLedger (s : store) : ledger :=
  match disk s with
  | Some l => l
  | None => default_ledger
  end.

(** [fs.writeFileSync(TRADES_FILE, JSON.stringify(ledger, null, 2), "utf8")]. *)
Definition writeFileSync (e : env) (l : ledger) (s : store) : outcome store :=
  if write_ok e
  then Returned {| currentLedger := currentLedger s; disk := Some (json_ledger l) |}
  else Thrown "EIO: write failed".

(** l. 44-52, [saveLedger]: the write error is caught and logged. *)
Definition saveLedger (e : env) (l : ledger) (s : store) : outcome store :=
  try_catch (writeFileSync e l s) (fun _ => Returned s).

(** [if (currentLedger === null) currentLedger = loadLedger();], the first
    lines of [updateLedger], [getOpenTrade] and [getLedger]. *)
Definition ensure_loaded (s : store) : store :=
  match currentLedger s with
  | Some _ => s
  | None => {| currentLedger := Some (loadLedger s); disk := disk s |}
  end.

Definition current (s : store) : ledger :=
  match currentLedger s with
  | Some l => l
  | None => loadLedger s
  end.

(** l. 55-66, [updateLedger]: [updateFn] mutates the cached ledger in place,
    then the ledger is saved; anything thrown is caught and logged.  The
    update functions of this module do not throw. *)
Definition updateLedger (e : env) (updateFn : ledger -> ledger) (s : store)
  : outcome store :=
  let s0 := ensure_loaded s in
  let l' := updateFn (current s0) in
  let s1 := {| currentLedger := Some l'; disk := disk s0 |} in
  try_catch (saveLedger e l' s1) (fun _ => Returned s1).

(** l. 69-95, [recalculateSummary]. *)
Definition closed_pnls (ts : list trade) : list jsval :=
  t_pnl <$> List.filter is_closed ts.

Definition sum_pnl (ts : list trade) : float :=
  fold_left (fun acc (p : jsval) => acc + Js.to_number p) (closed_pnls ts) 0.

Definition count_wins (ts : list trade) : nat :=
  length (List.filter (fun p : jsval => JsNum.gt (Js.to_number p) 0) (closed_pnls ts)).

Definition count_losses (ts : list trade) : nat :=
  length (List.filter (fun p : jsval => negb (JsNum.gt (Js.to_number p) 0)) (closed_pnls ts)).

Definition recalculateSummary (ts : list trade) : summary :=
  let w := count_wins ts in
  let l := count_losses ts in
  let totalClosedTrades := JsNum.of_nat w + JsNum.of_nat l in
  let rate :=
    if JsNum.gt totalClosedTrades 0
    then (JsNum.of_nat w / totalClosedTrades) * 100
    else 0 in
  {| totalTrades := length ts;
     wins := w;
     losses := l;
     totalPnL := JNum (sum_pnl ts);
     winRate := JsNum.toFixed2 rate |}.

(** l. 98-107, [initializeLedger]. *)
Definition initializeLedger (e : env) (s : store) : outcome store :=
  match currentLedger s with
  | Some _ => Returned s
  | None =>
      let l := loadLedger s in
      let l' := {| trades := trades l;
                   ledger_summary := Some (recalculateSummary (trades l)) |} in
      saveLedger e l' {| currentLedger := Some l'; disk := disk s |}
  end.

(** l. 112-118, the sanity test of [addTrade]. *)
Definition isOpen (t : trade) : bool :=
  match t_status t with
  | Some CLOSED => false
  | _ => true
  end.

Definition badEp (ep : jsval) : bool :=
  negb (Js.is_number ep)
  || negb (JsNum.isFinite (Js.to_number ep))
  || JsNum.le (Js.to_number ep) 0.

(** l. 117: [sh !== null && sh !== undefined &&
    (!Number.isFinite(Number(sh)) || Number(sh) <= 0)], with no [typeof]
    test: shares that are a string or a boolean are judged by the number
    they convert to. *)
Definition badSh (sh : jsprim) : bool :=
  negb (Js.is_nullish sh)
  && (negb (JsNum.isFinite (Js.to_number sh)) || JsNum.le (Js.to_number sh) 0).

Definition refused (t : trade) : bool :=
  isOpen t && (badEp (t_entryPrice t) || badSh (t_shares t)).

(** l. 125-132, [newTrade]. *)
Definition newTrade (e : env) (t : trade) : trade :=
  {| t_id := Some (Js.opt_or (t_id t) (fresh_id e));
     t_timestamp := Some (Js.opt_or (t_timestamp t) (now_iso e));
     t_marketSlug := t_marketSlug t;
     t_side := t_side t;
     t_instrument := t_instrument t;
     t_entryPrice := t_entryPrice t;
     t_shares := t_shares t;
     t_contractSize := t_contractSize t;
     t_status := Some (Js.opt_or (t_status t) OPEN);
     t_entryTime := t_entryTime t;
     t_exitPrice := t_exitPrice t;
     t_exitTime := t_exitTime t;
     t_pnl := if Js.is_number (t_pnl t) then t_pnl t else JNum 0;
     t_entryPhase := t_entryPhase t;
     t_sideInferred := t_sideInferred t;
     t_exitReason := t_exitReason t;
     t_entryReason := t_entryReason t |}.

(** l. 124-135, the update function of [addTrade]. *)
Definition push_trade (e : env) (t : trade) (l : ledger) : ledger :=
  let ts := (trades l ++ [newTrade e t])%list in
  {| trades := ts; ledger_summary := Some (recalculateSummary ts) |}.

(** l. 110-137, [addTrade]. *)
Definition addTrade (e : env) (t : trade) (s : store) : outcome store :=
  if refused t then Returned s
  else updateLedger e (push_trade e t) s.

(** l. 141-150, the update function of [updateTrade]:
    [findIndex(t => t.id === tradeId)], then the merge at that index. *)
Definition findIndex (tradeId : option string) (ts : list trade) : option (nat * trade) :=
  list_find (fun t => t_id t = tradeId) ts.

Definition patch_trade (tradeId : option string) (updateData : trade) (l : ledger)
  : ledger :=
  match findIndex tradeId (trades l) with
  | Some (tradeIndex, old) =>
      let ts := <[tradeIndex := merge old updateData]> (trades l) in
      {| trades := ts; ledger_summary := Some (recalculateSummary ts) |}
  | None => l
  end.

(** l. 140-151, [updateTrade]. *)
Definition updateTrade (e : env) (tradeId : option string) (updateData : trade)
  (s : store) : outcome store :=
  updateLedger e (patch_trade tradeId updateData) s.

(** l. 154-160, [getOpenTrade]: the first trade whose status is OPEN, with
    its index in the array (the caller receives the array's own object). *)
Definition getOpenTrade (s : store) : option (nat * trade) * store :=
  let s0 := ensure_loaded s in
  (list_find (fun t => is_open t = true) (trades (current s0)), s0).

(** l. 163-168, [getLedger]. *)
Definition getLedger (s : store) : ledger * store :=
  let s0 := ensure_loaded s in
  (current s0, s0).

(** The number of trades whose status is OPEN. *)
Definition open_count (ts : list trade) : nat :=
  length (List.filter is_open ts).

End Ledger.

(** ** Configuration and signals *)

(** [CONFIG.paperTrading] (the first document of [src/unnamed/part_003],
    l. 52-113, with [recGating] of its second document, l. 265).  An entry
    that the trader reads through [??] or [||] is optional; [stakePct] is
    tested with [typeof]. *)
Record config : Type := mkConfig {
  enabled : bool;
  startingBalance : option float;
  stakePct : jsval;
  minTradeUsd : option float;
  maxTradeUsd : option float;
  contractSize : option float;
  minProbEarly : float;
  minProbMid : float;
  minProbLate : float;
  edgeEarly : float;
  edgeMid : float;
  edgeLate : float;
  stopLossPct : option float;
  exitFlipMinProb : option float;
  exitFlipMargin : option float;
  flipOnProbabilityFlip : option bool;
  flipCooldownSeconds : option float;
  minLiquidity : option float;
  maxSpread : float;
  minVolumeRecent : option float;
  minVolumeRatio : option float;
  minPolyPrice : option float;
  maxPolyPrice : option float;
  noEntryFinalMinutes : float;
  minCandlesForEntry : option float;
  recGating : option string
}.

(** [signals.rec]: the upstream recommendation. *)
Record recommendation : Type := mkRec {
  rec_action : option string;
  rec_side : option side;
  rec_phase : option phase;
  rec_edge : jsval
}.

Record market : Type := mkMarket {
  slug : option string;
  liquidityNum : jsval
}.

Record prices : Type := mkPrices {
  price_UP : jsval;
  price_DOWN : jsval
}.

Record indicators : Type := mkIndicators {
  volumeRecent : jsval;
  volumeAvg : jsval;
  rsiNow : jsval;
  vwapNow : jsval;
  vwapSlope : jsval;
  macd_hist : jsval;
  heikenColor : option string;
  heikenCount : jsval
}.

(** The [signals] object that [index.js] (l. 260-272) hands to the trader;
    [spread_up] and [spread_down] are
    [polyMarketSnapshot?.orderbook?.up?.spread] and its [down] twin. *)
Record signals : Type := mkSignals {
  sig_rec : option recommendation;
  timeLeftMin : float;
  sig_market : option market;
  spread_up : jsval;
  spread_down : jsval;
  polyPrices : option prices;
  modelUp : jsval;
  modelDown : jsval;
  sig_indicators : option indicators
}.

(** ** The trader: [Trader] of [paper_trading/trader.js], rev. 2 *)

(** The trader object together with the ledger module it calls into.
    [sharedAt] is [Some i] while [openTrade] is the very object stored at
    index [i] of the cached ledger's array (the one [getOpenTrade] handed
    out), so that a field written through [openTrade] is written there. *)
Record tstate : Type := mkState {
  openTrade : option trade;
  sharedAt : option nat;
  lastFlipAtMs : float;
  ledgerStore : store
}.

Module Trader.

Local Open Scope float_scope.

Section WithConfig.

Variable cfg : config.

(** [signals.polyPrices?.[side] ?? null]. *)
Definition price_of (sg : signals) (sd : option side) : jsval :=
  match polyPrices sg, sd with
  | Some p, Some UP => Js.coalesce (price_UP p) JNull
  | Some p, Some DOWN => Js.coalesce (price_DOWN p) JNull
  | _, _ => JNull
  end.

(** [side === "UP" ? signals.modelUp : signals.modelDown]. *)
Definition model_prob (sg : signals) (sd : side) : jsval :=
  match sd with UP => modelUp sg | DOWN => modelDown sg end.

(** rev. 2, l. 25-26 (and [ledger.js] l. 116-117): the sanity test of a
    loaded open trade. *)
Definition badPrice (t : trade) : bool :=
  negb (Js.is_number (t_entryPrice t))
  || negb (JsNum.isFinite (Js.to_number (t_entryPrice t)))
  || JsNum.le (Js.to_number (t_entryPrice t)) 0.

(** The shares go through [Number(t.shares)], as in the ledger. *)
Definition badShares (t : trade) : bool :=
  negb (Js.is_nullish (t_shares t))
  && (negb (JsNum.isFinite (Js.to_number (t_shares t)))
      || JsNum.le (Js.to_number (t_shares t)) 0).

(** rev. 2, l. 29-36: the record that force-closes an invalid open trade. *)
Definition forced (e : env) (t : trade) : trade :=
  {| t_id := t_id t; t_timestamp := t_timestamp t; t_marketSlug := t_marketSlug t;
     t_side := t_side t; t_instrument := t_instrument t;
     t_entryPrice := t_entryPrice t; t_shares := t_shares t;
     t_contractSize := t_contractSize t;
     t_status := Some CLOSED;
     t_entryTime := t_entryTime t;
     t_exitPrice := Js.coalesce (t_exitPrice t) JNull;
     t_exitTime := Some (now_iso e);
     t_pnl := JNum 0;
     t_entryPhase := t_entryPhase t; t_sideInferred := t_sideInferred t;
     t_exitReason := Some "Invalid Entry (sanity check)";
     t_entryReason := t_entryReason t |}.

(** rev. 2, l. 18-43, [initialize].  Its last statement (l. 42) logs
    [this.openTrade.id.substring(0, 8)] of the trade it has adopted, which
    throws when that trade carries no identifier (an identifier that is
    there is a string, as [addTrade] writes it). *)
Definition initialize (e : env) (st : tstate) : outcome tstate :=
  let '(found, s0) := Ledger.getOpenTrade (ledgerStore st) in
  match found with
  | Some (i, t) =>
      if badPrice t || badShares t then
        s1 ← Ledger.updateTrade e (t_id t) (forced e t) s0;
        mret {| openTrade := None; sharedAt := None;
                lastFlipAtMs := lastFlipAtMs st; ledgerStore := s1 |}
      else
        match t_id t with
        | Some _ =>
            mret {| openTrade := Some t; sharedAt := Some i;
                    lastFlipAtMs := lastFlipAtMs st; ledgerStore := s0 |}
        | None =>
            Thrown "TypeError: Cannot read properties of undefined (reading 'substring')"
        end
  | None =>
      mret {| openTrade := None; sharedAt := None;
              lastFlipAtMs := lastFlipAtMs st; ledgerStore := s0 |}
  end.

(** rev. 2, l. 45-52, [getBalanceSnapshot]: the balance is the starting
    balance plus the summary's [totalPnL]. *)
Definition realized_of (l : ledger) : float :=
  let sm := Js.opt_or (ledger_summary l) (Ledger.recalculateSummary (trades l)) in
  if Js.is_number (totalPnL sm) then Js.to_number (totalPnL sm) else 0.

Definition balance_of (l : ledger) : float :=
  let starting := Js.opt_or (startingBalance cfg) 1000 in
  let realized := realized_of l in
  starting + realized.

Definition getBalanceSnapshot (s : store) : float * store :=
  let '(l, s0) := Ledger.getLedger s in
  (balance_of l, s0).

(** rev. 2, l. 54-71, [computeContractSizeUsd]. *)
Definition size_of_balance (balance : float) : float :=
  if negb (JsNum.isFinite balance) || JsNum.le balance 0 then 0
  else
    let useDynamic :=
      Js.is_number (stakePct cfg)
      && JsNum.isFinite (Js.to_number (stakePct cfg))
      && JsNum.gt (Js.to_number (stakePct cfg)) 0 in
    let minUsd := Js.opt_or (minTradeUsd cfg) 0 in
    let maxUsd := Js.opt_or (maxTradeUsd cfg) infinity in
    let size := if useDynamic then balance * Js.to_number (stakePct cfg)
                else Js.opt_or (contractSize cfg) 100 in
    let size := JsNum.max minUsd (JsNum.min maxUsd size) in
    let size := JsNum.min size balance in
    JsNum.floor (size * 100) / 100.

Definition computeContractSizeUsd (s : store) : float * store :=
  let '(balance, s0) := getBalanceSnapshot s in
  (size_of_balance balance, s0).

(** rev. 2, l. 300-302 and l. 404-406: the shares of a trade, recomputed
    from the notional when the record carries none. *)
Definition shares_of (t : trade) : float :=
  if Js.is_finite_number (t_shares t) then Js.to_number (t_shares t)
  else if JsNum.gt (Js.to_number (t_entryPrice t)) 0
       then Js.to_number (t_contractSize t) / Js.to_number (t_entryPrice t)
       else 0.

(** rev. 2, l. 408-415: the fields [closeTrade] writes into the trade. *)
Definition closed (e : env) (t : trade) (exitPrice : jsval) (reason : string) : trade :=
  let value := shares_of t * Js.to_number exitPrice in
  let pnl := value - Js.to_number (t_contractSize t) in
  {| t_id := t_id t; t_timestamp := t_timestamp t; t_marketSlug := t_marketSlug t;
     t_side := t_side t; t_instrument := t_instrument t;
     t_entryPrice := t_entryPrice t; t_shares := t_shares t;
     t_contractSize := t_contractSize t;
     t_status := Some CLOSED;
     t_entryTime := t_entryTime t;
     t_exitPrice := exitPrice;
     t_exitTime := Some (now_iso e);
     t_pnl := JNum (JsNum.toFixed2 pnl);
     t_entryPhase := t_entryPhase t; t_sideInferred := t_sideInferred t;
     t_exitReason := Some reason;
     t_entryReason := t_entryReason t |}.

(** The write through a shared trade object: the array slot is that
    object, so it shows the new fields before [updateTrade] runs. *)
Definition write_shared (slot : option nat) (t : trade) (s : store) : store :=
  match slot, currentLedger s with
  | Some i, Some l =>
      {| currentLedger :=
           Some {| trades := <[i := t]> (trades l); ledger_summary := ledger_summary l |};
         disk := disk s |}
  | _, _ => s
  end.

(** rev. 2, l. 402-423, [closeTrade]. *)
Definition closeTrade (e : env) (t : trade) (exitPrice : jsval) (reason : string)
  (st : tstate) : outcome tstate :=
  let t' := closed e t exitPrice reason in
  let s0 := write_shared (sharedAt st) t' (ledgerStore st) in
  s1 ← Ledger.updateTrade e (t_id t') t' s0;
  mret {| openTrade := None; sharedAt := None;
          lastFlipAtMs := lastFlipAtMs st; ledgerStore := s1 |}.

(** rev. 2, l. 82-90: the action, the market slug and the gating mode. *)
Definition action_of (sg : signals) : string :=
  match sig_rec sg with
  | Some r => Js.str_or (rec_action r) "NONE"
  | None => "NONE"
  end.

Definition marketSlug_of (sg : signals) : string :=
  match sig_market sg with
  | Some m => Js.str_or (slug m) "unknown"
  | None => "unknown"
  end.

Definition strictRec : bool :=
  String.eqb (Js.str_or (recGating cfg) "loose") "strict".

(** rev. 2, l. 83-84 and 108-116: the side of the recommendation or, in
    loose mode, the side inferred from the model probabilities; the flag
    says whether it was inferred. *)
Definition resolve_side (sg : signals) : option side * bool :=
  let side0 := match sig_rec sg with Some r => rec_side r | None => None end in
  match side0 with
  | Some sd => (Some sd, false)
  | None =>
      if negb strictRec then
        match modelUp sg, modelDown sg with
        | JNum upP, JNum downP =>
            (Some (if JsNum.ge upP downP then UP else DOWN), true)
        | _, _ => (None, false)
        end
      else (None, false)
  end.

(** rev. 2, l. 133-158: the market quality, time and volume filters. *)
Definition hasBadSpread (sg : signals) : bool :=
  (negb (Js.is_null (spread_up sg)) && JsNum.gt (Js.to_number (spread_up sg)) (maxSpread cfg))
  || (negb (Js.is_null (spread_down sg))
      && JsNum.gt (Js.to_number (spread_down sg)) (maxSpread cfg)).

Definition hasLowLiquidity (sg : signals) : bool :=
  let liquidityNum :=
    Js.coalesce (match sig_market sg with Some m => liquidityNum m | None => JUndef end) JNull in
  let minLiquidity := Js.opt_or (minLiquidity cfg) 0 in
  if Js.is_finite_number liquidityNum
  then JsNum.lt (Js.to_number liquidityNum) minLiquidity
  else false.

Definition isLowLiquidity (sg : signals) : bool :=
  hasBadSpread sg || hasLowLiquidity sg.

Definition isTooLateToEnter (sg : signals) : bool :=
  JsNum.lt (timeLeftMin sg) (noEntryFinalMinutes cfg).

Definition isLowVolume (sg : signals) : bool :=
  let ind v := match sig_indicators sg with Some i => v i | None => JUndef end in
  let volumeRecent := Js.coalesce (ind volumeRecent) JNull in
  let volumeAvg := Js.coalesce (ind volumeAvg) JNull in
  let minVolumeRecent := Js.opt_or (minVolumeRecent cfg) 0 in
  let minVolumeRatio := Js.opt_or (minVolumeRatio cfg) 0 in
  let isLowVolumeAbsolute :=
    JsNum.gt minVolumeRecent 0 && negb (Js.is_null volumeRecent)
    && JsNum.lt (Js.to_number volumeRecent) minVolumeRecent in
  let isLowVolumeRelative :=
    JsNum.gt minVolumeRatio 0 && negb (Js.is_null volumeRecent)
    && negb (Js.is_null volumeAvg)
    && JsNum.lt (Js.to_number volumeRecent) (Js.to_number volumeAvg * minVolumeRatio) in
  isLowVolumeAbsolute || isLowVolumeRelative.

(** rev. 2, l. 76-78 and 162: warm-up. *)
Definition canEnter (candleCount : nat) : bool :=
  JsNum.ge (JsNum.of_nat candleCount) (Js.opt_or (minCandlesForEntry cfg) 30).

(** rev. 2, l. 165-171. *)
Definition indicatorsPopulated (sg : signals) : bool :=
  match sig_indicators sg with
  | Some ind =>
      Js.is_finite_number (rsiNow ind)
      && Js.is_finite_number (vwapNow ind)
      && Js.is_finite_number (vwapSlope ind)
      && Js.is_finite_number (macd_hist ind)
      && (Js.truthy_str (heikenColor ind) && Js.is_finite_number (heikenCount ind))
  | None => false
  end.

(** rev. 2, l. 211-212. *)
Definition wantsEnter (sg : signals) : bool :=
  String.eqb (action_of sg) "ENTER" || negb strictRec.

(** rev. 2, l. 219-232: phase thresholds and the threshold test. *)
Definition thresholds (ph : option phase) : float * float :=
  match ph with
  | Some EARLY => (minProbEarly cfg, edgeEarly cfg)
  | Some MID => (minProbMid cfg, edgeMid cfg)
  | _ => (minProbLate cfg, edgeLate cfg)
  end.

Definition meetsThresholds (sg : signals) (r : recommendation) (sd : side) : bool :=
  let '(minProb, edgeThreshold) := thresholds (rec_phase r) in
  let edge := if Js.truthy (rec_edge r) then Js.to_number (rec_edge r) else 0 in
  JsNum.ge (Js.to_number (model_prob sg sd)) minProb && JsNum.ge edge edgeThreshold.

(** rev. 2, l. 238-245: the price-sanity test of an entry, true when the
    price must be refused. *)
Definition priceOutOfBounds (entryPrice : jsval) : bool :=
  let minPoly := Js.opt_or (minPolyPrice cfg) 0.001 in
  let maxPoly := Js.opt_or (maxPolyPrice cfg) 0.999 in
  negb (Js.is_number entryPrice)
  || negb (JsNum.isFinite (Js.to_number entryPrice))
  || JsNum.lt (Js.to_number entryPrice) minPoly
  || JsNum.gt (Js.to_number entryPrice) maxPoly.

(** rev. 2, l. 253-254: [shares], [None] for [null] and for a value the
    test that follows rejects. *)
Definition shares_for (contractSizeUsd : float) (entryPrice : jsval) : option float :=
  if JsNum.gt (Js.to_number entryPrice) 0 then
    let shares := contractSizeUsd / Js.to_number entryPrice in
    if negb (JsNum.isFinite shares) || JsNum.le shares 0 then None else Some shares
  else None.

(** rev. 2, l. 256-272: the trade an entry opens. *)
Definition entry_trade (e : env) (marketSlug : string) (sd : side) (entryPrice : jsval)
  (shares contractSizeUsd : float) (ph : option phase) (sideInferred : bool) : trade :=
  {| t_id := Some (fresh_id e);
     t_timestamp := Some (now_iso e);
     t_marketSlug := Some marketSlug;
     t_side := Some sd;
     t_instrument := Some "POLY";
     t_entryPrice := entryPrice;
     t_shares := JNum shares;
     t_contractSize := JNum contractSizeUsd;
     t_status := Some OPEN;
     t_entryTime := Some (now_iso e);
     t_exitPrice := JNull;
     t_exitTime := None;
     t_pnl := JNum 0;
     t_entryPhase := ph;
     t_sideInferred := Some sideInferred;
     t_exitReason := None;
     t_entryReason := None |}.

(** rev. 2, l. 370-386: the trade a flip opens. *)
Definition flip_trade (e : env) (marketSlug : string) (newSide : side) (entryPrice : jsval)
  (shares contractSizeUsd : float) (ph : option phase) : trade :=
  {| t_id := Some (fresh_id e);
     t_timestamp := Some (now_iso e);
     t_marketSlug := Some marketSlug;
     t_side := Some newSide;
     t_instrument := Some "POLY";
     t_entryPrice := entryPrice;
     t_shares := JNum shares;
     t_contractSize := JNum contractSizeUsd;
     t_status := Some OPEN;
     t_entryTime := Some (now_iso e);
     t_exitPrice := JNull;
     t_exitTime := None;
     t_pnl := JNum 0;
     t_entryPhase := Some (Js.opt_or ph MID);
     t_sideInferred := None;
     t_exitReason := None;
     t_entryReason := Some "Flip" |}.

(** rev. 2, l. 361-363 and 368-369: the same two tests as the flip entry
    writes them. *)
Definition priceInBounds (entryPrice : jsval) : bool :=
  let minPoly := Js.opt_or (minPolyPrice cfg) 0.001 in
  let maxPoly := Js.opt_or (maxPolyPrice cfg) 0.999 in
  Js.is_number entryPrice
  && JsNum.isFinite (Js.to_number entryPrice)
  && JsNum.ge (Js.to_number entryPrice) minPoly
  && JsNum.le (Js.to_number entryPrice) maxPoly.

Definition flip_shares_for (contractSizeUsd : float) (entryPrice : jsval) : option float :=
  if JsNum.gt (Js.to_number entryPrice) 0 then
    let shares := contractSizeUsd / Js.to_number entryPrice in
    if JsNum.isFinite shares && JsNum.gt shares 0 then Some shares else None
  else None.

(** [!contractSizeUsd || contractSizeUsd <= 0]. *)
Definition noSize (contractSizeUsd : float) : bool :=
  negb (JsNum.truthy contractSizeUsd) || JsNum.le contractSizeUsd 0.

(** rev. 2, l. 288: the rollover test. *)
Definition rolledOver (sg : signals) (t : trade) : bool :=
  Js.truthy_str (t_marketSlug t)
  && Js.truthy_str (Some (marketSlug_of sg))
  && negb (bool_decide (t_marketSlug t = Some (marketSlug_of sg))).

(** rev. 2, l. 297-308: whether the mark-to-market loss reaches the stop
    loss amount. *)
Definition stopLossHit (sg : signals) (t : trade) : bool :=
  let curPx := price_of sg (t_side t) in
  if Js.is_null curPx then false
  else
    let valueNow := shares_of t * Js.to_number curPx in
    let pnlNow := valueNow - Js.to_number (t_contractSize t) in
    let stopLossPct := Js.opt_or (stopLossPct cfg) 0.25 in
    let stopLossAmount := - JsNum.abs (Js.to_number (t_contractSize t) * stopLossPct) in
    JsNum.le pnlNow stopLossAmount.

(** rev. 2, l. 311-322: the probability-flip condition. *)
Definition opposingMoreLikely (sg : signals) (t : trade) : bool :=
  let minProb := Js.opt_or (exitFlipMinProb cfg) 0.55 in
  let margin := Js.opt_or (exitFlipMargin cfg) 0.03 in
  match modelUp sg, modelDown sg with
  | JNum upP, JNum downP =>
      match t_side t with
      | Some UP => JsNum.ge downP minProb && JsNum.ge downP (upP + margin)
      | Some DOWN => JsNum.ge upP minProb && JsNum.ge upP (downP + margin)
      | None => false
      end
  | _, _ => false
  end.

(** rev. 2, l. 282-284 and 324-349: [shouldExit], [exitReason] and
    [shouldFlip] after the three exit rules, in the order of the code. *)
Definition exit_decision (e : env) (sg : signals) (candleCount : nat) (st : tstate)
  (t : trade) : bool * string * bool :=
  let '(shouldExit, exitReason, shouldFlip) := (false, "", false) in
  let '(shouldExit, exitReason, shouldFlip) :=
    if negb shouldExit && opposingMoreLikely sg t then
      let flipEnabled := Js.opt_or (flipOnProbabilityFlip cfg) true in
      let cooldownMs := Js.opt_or (flipCooldownSeconds cfg) 60 * 1000 in
      (true, "Probability Flip",
       if flipEnabled && canEnter candleCount && negb (isTooLateToEnter sg)
          && JsNum.ge (now_ms e - lastFlipAtMs st) cooldownMs
       then true else shouldFlip)
    else (shouldExit, exitReason, shouldFlip) in
  let '(shouldExit, exitReason) :=
    if negb shouldExit && stopLossHit sg t && opposingMoreLikely sg t
    then (true, "Stop Loss") else (shouldExit, exitReason) in
  let '(shouldExit, exitReason) :=
    if negb shouldExit && JsNum.lt (timeLeftMin sg) 0.5
    then (true, "End of Candle") else (shouldExit, exitReason) in
  (shouldExit, exitReason, shouldFlip).

Definition with_store (st : tstate) (s : store) : tstate :=
  {| openTrade := openTrade st; sharedAt := sharedAt st;
     lastFlipAtMs := lastFlipAtMs st; ledgerStore := s |}.

(** rev. 2, l. 357-396: the optional flip entry after a close. *)
Definition flip_entry (e : env) (sg : signals) (t : trade) (st : tstate) : outcome tstate :=
  let newSide := if bool_decide (t_side t = Some UP) then DOWN else UP in
  let entryPrice := price_of sg (Some newSide) in
  if priceInBounds entryPrice && negb (isLowLiquidity sg) && negb (isLowVolume sg) then
    let '(contractSizeUsd, s1) := computeContractSizeUsd (ledgerStore st) in
    if noSize contractSizeUsd then mret (with_store st s1)
    else
      match flip_shares_for contractSizeUsd entryPrice with
      | Some shares =>
          let flipped :=
            flip_trade e (marketSlug_of sg) newSide entryPrice shares contractSizeUsd
              (match sig_rec sg with Some r => rec_phase r | None => None end) in
          s2 ← Ledger.addTrade e flipped s1;
          let '(_, s3) := getBalanceSnapshot s2 in
          mret {| openTrade := Some flipped; sharedAt := None;
                  lastFlipAtMs := now_ms e; ledgerStore := s3 |}
      | None => mret (with_store st s1)
      end
  else mret st.

(** rev. 2, l. 280-399: the exit block, for the open trade [t]. *)
Definition exit_block (e : env) (sg : signals) (candleCount : nat) (t : trade)
  (st : tstate) : outcome tstate :=
  if rolledOver sg t then
    let exitPrice := price_of sg (t_side t) in
    if negb (Js.is_null exitPrice)
    then closeTrade e t exitPrice "Market Rollover" st
    else mret st
  else
    let '(shouldExit, exitReason, shouldFlip) := exit_decision e sg candleCount st t in
    if shouldExit then
      let exitPrice := price_of sg (t_side t) in
      if negb (Js.is_null exitPrice) then
        st1 ← closeTrade e t exitPrice exitReason st;
        if shouldFlip then flip_entry e sg t st1 else mret st1
      else mret st
    else mret st.

(** rev. 2, l. 216-276: the entry block, for the resolved [side] and its
    price. *)
Definition entry_block (e : env) (sg : signals) (sd : side) (sideInferred : bool)
  (currentPolyPrice : jsval) (st : tstate) : outcome tstate :=
  match sig_rec sg with
  | None => Thrown "TypeError: cannot destructure 'signals.rec'"
  | Some r =>
      if meetsThresholds sg r sd then
        let entryPrice := currentPolyPrice in
        if priceOutOfBounds entryPrice then mret st
        else
          let '(contractSizeUsd, s1) := computeContractSizeUsd (ledgerStore st) in
          if noSize contractSizeUsd then mret (with_store st s1)
          else
            match shares_for contractSizeUsd entryPrice with
            | None => mret (with_store st s1)
            | Some shares =>
                let opened :=
                  entry_trade e (marketSlug_of sg) sd entryPrice shares contractSizeUsd
                    (rec_phase r) sideInferred in
                s2 ← Ledger.addTrade e opened s1;
                let '(_, s3) := getBalanceSnapshot s2 in
                mret {| openTrade := Some opened; sharedAt := None;
                        lastFlipAtMs := lastFlipAtMs st; ledgerStore := s3 |}
            end
      else mret st
  end.

(** rev. 2, l. 73-400, [processSignals]; [candleCount] is
    [Array.isArray(klines1m) ? klines1m.length : 0].  The entry-debug record
    [lastEntryStatus] (l. 94-98, 104, 120-128, 174-209), which no decision
    reads, is left out. *)
Definition processSignals (e : env) (sg : signals) (candleCount : nat) (st : tstate)
  : outcome tstate :=
  if negb (enabled cfg) then mret st
  else if negb (Js.truthy_obj (openTrade st)) && strictRec
          && negb (String.eqb (action_of sg) "ENTER") then mret st
  else
    let '(side, sideInferred) := resolve_side sg in
    let currentPolyPrice := match side with Some _ => price_of sg side | None => JNull end in
    match side with
    | None => mret st
    | Some sd =>
        if Js.is_null currentPolyPrice then mret st
        else if canEnter candleCount && indicatorsPopulated sg
                && negb (Js.truthy_obj (openTrade st)) && wantsEnter sg
                && negb (isTooLateToEnter sg) && negb (isLowLiquidity sg)
                && negb (isLowVolume sg)
        then entry_block e sg sd sideInferred currentPolyPrice st
        else
          match openTrade st with
          | Some t => exit_block e sg candleCount t st
          | None => mret st
          end
    end.

End WithConfig.

End Trader.

(** ** Session VWAP: [computeSessionVwap], [src/src/index.js] l. 361-385 *)

(** A 1-minute bar; a field that is missing reads as NaN in the arithmetic
    below, which is what [undefined] does there. *)
Record candle : Type := mkCandle {
  high : float;
  low : float;
  close : float;
  volume : jsval
}.

Module Vwap.

Local Open Scope float_scope.

(** l. 370: [(c.high + c.low + c.close) / 3]. *)
Definition typical_price (c : candle) : float :=
  (high c + low c + close c) / 3.

(** l. 371: the volume the loop uses. *)
Definition vol_of (c : candle) : float :=
  if Js.is_finite_number (volume c) then Js.to_number (volume c) else 0.

(** The loop variables [pv], [v], [tpSum] and the counter [n].  The counter
    only ever holds the number of bars seen, an integer that [n += 1] keeps
    exact (an array has fewer than 2^32 elements), so it is a [nat]. *)
Record acc : Type := mkAcc {
  pv : float;
  v : float;
  tpSum : float;
  n : nat
}.

(** l. 369-380: one iteration. *)
Definition step (a : acc) (c : candle) : acc :=
  let tp := typical_price c in
  let vol := vol_of c in
  {| pv := pv a + tp * vol;
     v := v a + vol;
     tpSum := tpSum a + tp;
     n := S (n a) |}.

Definition loop (candles : list candle) : acc :=
  fold_left step candles {| pv := 0; v := 0; tpSum := 0; n := 0 |}.

(** l. 361-385, [computeSessionVwap]; [None] is [null]. *)
Definition computeSessionVwap (candles : list candle) : option float :=
  match candles with
  | [] => None
  | _ =>
      let a := loop candles in
      if JsNum.seq (v a) 0 then
        match n a with
        | O => None
        | S _ => Some (tpSum a / JsNum.of_nat (n a))
        end
      else Some (pv a / v a)
  end.

(** l. 387-394, [computeVwapSeries]: the VWAP of every prefix. *)
Definition computeVwapSeries (candles : list candle) : list (option float) :=
  (fun i => computeSessionVwap (take (S i) candles)) <$> seq 0 (length candles).

(** The specification's fallback value: the unweighted arithmetic mean, the
    sum taken in bar order and divided by the number of bars. *)
Definition unweighted_mean (xs : list float) : float :=
  fold_left PrimFloat.add xs 0 / JsNum.of_nat (length xs).

(** A bar has zero volume when the volume the loop uses is [=== 0] (this
    covers [0], [-0] and a volume that is missing or not finite). *)
Definition zero_volume (c : candle) : Prop :=
  JsNum.seq (vol_of c) 0 = true.

End Vwap.

(** ** The earlier revision: [src/src/paper_trading/trader.js] *)

(** [initialize] (l. 10-35) and [closeTrade] (l. 176-197) are those of
    rev. 2, as are the filters and tests reused below; the earlier
    [processSignals] has fixed sizing, no rec gating, no rollover and no
    stop loss. *)
Module LegacyTrader.

Local Open Scope float_scope.

Section WithConfig.

Variable cfg : config.

(** l. 115-130: the trade an entry opens. *)
Definition entry_trade (e : env) (marketSlug : string) (sd : side) (entryPrice : jsval)
  (shares : float) (ph : option phase) : trade :=
  {| t_id := Some (fresh_id e);
     t_timestamp := Some (now_iso e);
     t_marketSlug := Some marketSlug;
     t_side := Some sd;
     t_instrument := Some "POLY";
     t_entryPrice := entryPrice;
     t_shares := JNum shares;
     t_contractSize := match contractSize cfg with Some x => JNum x | None => JUndef end;
     t_status := Some OPEN;
     t_entryTime := Some (now_iso e);
     t_exitPrice := JNull;
     t_exitTime := None;
     t_pnl := JNum 0;
     t_entryPhase := ph;
     t_sideInferred := None;
     t_exitReason := None;
     t_entryReason := None |}.

(** l. 139-165: [shouldExit] and [exitReason]. *)
Definition exit_decision (sg : signals) (t : trade) : bool * string :=
  let '(shouldExit, exitReason) :=
    if Trader.opposingMoreLikely cfg sg t then (true, "Probability Flip") else (false, "") in
  if negb shouldExit && JsNum.lt (timeLeftMin sg) 0.5
  then (true, "End of Candle") else (shouldExit, exitReason).

(** l. 37-174, [processSignals]. *)
Definition processSignals (e : env) (sg : signals) (candleCount : nat) (st : tstate)
  : outcome tstate :=
  if negb (enabled cfg) then mret st
  else
    let indicatorsReady := Trader.canEnter cfg candleCount in
    match sig_rec sg with
    | Some (mkRec action (Some sd) ph edge as r) =>
        let currentPolyPrice := Trader.price_of sg (Some sd) in
        if Js.is_null currentPolyPrice then mret st
        else if negb indicatorsReady then mret st
        else if negb (Js.truthy_obj (openTrade st))
                && bool_decide (action = Some "ENTER")
                && negb (Trader.isTooLateToEnter cfg sg)
                && negb (Trader.hasBadSpread cfg sg)
                && negb (Trader.isLowVolume cfg sg)
        then
          if Trader.meetsThresholds cfg sg r sd then
            let entryPrice := currentPolyPrice in
            if Trader.priceOutOfBounds cfg entryPrice then mret st
            else
              match Trader.shares_for (Js.to_number
                      (match contractSize cfg with Some x => JNum x | None => JUndef end))
                      entryPrice with
              | None => mret st
              | Some shares =>
                  let opened :=
                    entry_trade e (Trader.marketSlug_of sg) sd entryPrice shares ph in
                  s1 ← Ledger.addTrade e opened (ledgerStore st);
                  mret {| openTrade := Some opened; sharedAt := None;
                          lastFlipAtMs := lastFlipAtMs st; ledgerStore := s1 |}
              end
          else mret st
        else
          match openTrade st with
          | Some t =>
              let '(shouldExit, exitReason) := exit_decision sg t in
              if shouldExit then
                let exitPrice := Trader.price_of sg (t_side t) in
                if negb (Js.is_null exitPrice)
                then Trader.closeTrade e t exitPrice exitReason st
                else mret st
              else mret st
          | None => mret st
          end
    | _ => mret st
    end.

End WithConfig.

End LegacyTrader.

(** ** Runs of the trader *)

(** The identifiers of the ledger's trades, in order. *)
Definition ids (ts : list trade) : list (option string) := t_id <$> ts.

(** The trades the ledger module currently answers with. *)
Definition ledger_trades (st : tstate) : list trade :=
  trades (Ledger.current (ledgerStore st)).

(** The trader before [initialize]: the constructor's fields over the
    ledger module's state. *)
Definition fresh_trader (s : store) : tstate :=
  {| openTrade := None; sharedAt := None; lastFlipAtMs := 0%float; ledgerStore := s |}.

(** A ledger state a process may start from: distinct identifiers and at
    most one OPEN trade, in the cache (or the file it will be loaded from)
    and in the file. *)
Record well_formed_store (s : store) : Prop := mkWellFormed {
  wf_ids : NoDup (ids (trades (Ledger.current s)));
  wf_open : Ledger.open_count (trades (Ledger.current s)) <= 1;
  wf_disk : forall d, disk s = Some d -> Ledger.open_count (trades d) <= 1
}.

(** The states the application reaches: [initialize] once (as
    [initializeTrader] does), then one [processSignals] per tick, each tick
    drawing an identifier that no trade of the ledger carries. *)
Inductive reachable (cfg : config) : tstate -> Prop :=
  | reach_initialize (e : env) (s : store) (st : tstate) :
      well_formed_store s ->
      Trader.initialize e (fresh_trader s) = Returned st ->
      reachable cfg st
  | reach_tick (e : env) (sg : signals) (candleCount : nat) (st st' : tstate) :
      reachable cfg st ->
      Some (fresh_id e) ∉ ids (ledger_trades st) ->
      Trader.processSignals cfg e sg candleCount st = Returned st' ->
      reachable cfg st'.

(** What ties the trader's [openTrade] to the ledger between ticks. *)
Record coherent (st : tstate) : Prop := mkCoherent {
  coh_ids : NoDup (ids (ledger_trades st));
  coh_flat : openTrade st = None -> Ledger.open_count (ledger_trades st) = 0;
  coh_open : forall t x, openTrade st = Some t ->
    x ∈ ledger_trades st -> is_open x = true -> t_id x = t_id t;
  coh_shared : forall t k, openTrade st = Some t -> sharedAt st = Some k ->
    t_id <$> (ledger_trades st !! k) = Some (t_id t);
  coh_disk : forall d, disk (ledgerStore st) = Some d -> Ledger.open_count (trades d) <= 1
}.

(** The cached ledger after [closeTrade]: the closing fields written
    through a shared object, then merged by [updateTrade]. *)
Definition ledger_after_close (e : env) (t : trade) (exitPrice : jsval) (reason : string)
  (st : tstate) : ledger :=
  let c := Trader.closed e t exitPrice reason in
  Ledger.patch_trade (t_id t) c
    (Ledger.current (Trader.write_shared (sharedAt st) c (ledgerStore st))).

(** The open trade [t] of the trader is recorded in the ledger at index
    [i], first under its identifier. *)
Definition recorded_at (st : tstate) (t : trade) (i : nat) : Prop :=
  openTrade st = Some t
  /\ (exists old, Ledger.findIndex (t_id t) (ledger_trades st) = Some (i, old))
  /\ (sharedAt st = None \/ sharedAt st = Some i).

(** The trade the trader holds is recorded in the ledger, OPEN, under its
    identifier. *)
Definition held_is_recorded (st : tstate) : Prop :=
  forall t, openTrade st = Some t ->
    exists i x, ledger_trades st !! i = Some x /\ t_id x = t_id t /\ is_open x = true.

(** The ledger module's state after [addTrade] has accepted [t]. *)
Definition store_after_add (e : env) (t : trade) (s : store) : store :=
  {| currentLedger := Some (Ledger.push_trade e t (Ledger.current s));
     disk := if write_ok e
             then Some (Ledger.json_ledger (Ledger.push_trade e t (Ledger.current s)))
             else disk s |}.

(** The trader after [closeTrade]: flat, over the ledger that
    [updateTrade] leaves. *)
Definition after_close (e : env) (t : trade) (exitPrice : jsval) (reason : string)
  (st : tstate) : tstate :=
  {| openTrade := None; sharedAt := None; lastFlipAtMs := lastFlipAtMs st;
     ledgerStore :=
       {| currentLedger := Some (ledger_after_close e t exitPrice reason st);
          disk := if write_ok e
                  then Some (Ledger.json_ledger (ledger_after_close e t exitPrice reason st))
                  else disk (ledgerStore st) |} |}.

(** The trader after an entry or a flip has recorded [t]. *)
Definition after_open (e : env) (t : trade) (flipAt : float) (st : tstate) : tstate :=
  {| openTrade := Some t; sharedAt := None; lastFlipAtMs := flipAt;
     ledgerStore := store_after_add e t (ledgerStore st) |}.

(** The entry condition of rev. 2, l. 215, without its [!this.openTrade]. *)
Definition entry_gate (cfg : config) (sg : signals) (candleCount : nat) : bool :=
  Trader.canEnter cfg candleCount && Trader.indicatorsPopulated sg
  && Trader.wantsEnter cfg sg && negb (Trader.isTooLateToEnter cfg sg)
  && negb (Trader.isLowLiquidity cfg sg) && negb (Trader.isLowVolume cfg sg).

(** The flip condition of rev. 2, l. 328-333. *)
Definition may_flip (cfg : config) (e : env) (sg : signals) (candleCount : nat)
  (st : tstate) : bool :=
  Js.opt_or (flipOnProbabilityFlip cfg) true && Trader.canEnter cfg candleCount
  && negb (Trader.isTooLateToEnter cfg sg)
  && JsNum.ge (now_ms e - lastFlipAtMs st)%float
       (Js.opt_or (flipCooldownSeconds cfg) 60 * 1000)%float.

(** rev. 2, l. 358: [trade.side === "UP" ? "DOWN" : "UP"]. *)
Definition other_side (sd : option side) : side :=
  if bool_decide (sd = Some UP) then DOWN else UP.

(** ** The trader singleton and the start of the application *)

(** The module state of [paper_trading/trader.js] together with that of
    [ledger.js]: [instantiated] is [traderInstance !== null], and [trader]
    holds the instance's fields over the ledger module's state (the fields
    the constructor sets, while there is no instance yet). *)
Record app : Type := mkApp {
  instantiated : bool;
  trader : tstate
}.

Module App.

(** The process before anything ran: no instance, the ledger module's
    cache and file as given. *)
Definition start (s : store) : app :=
  {| instantiated := false; trader := fresh_trader s |}.

(** [trader.js] l. 203-209 (rev. 2, l. 429-435), [initializeTrader]. *)
Definition initializeTrader (e : env) (a : app) : outcome app :=
  if instantiated a then mret a
  else
    st ← Trader.initialize e (fresh_trader (ledgerStore (trader a)));
    mret {| instantiated := true; trader := st |}.

(** l. 211-213, [getTraderInstance]. *)
Definition getTraderInstance (a : app) : option tstate :=
  if instantiated a then Some (trader a) else None.

(** l. 219-221, [getOpenTrade]:
    [traderInstance?.openTrade || ledgerGetOpenTrade()]. *)
Definition getOpenTrade (a : app) : option trade * app :=
  match (if instantiated a then openTrade (trader a) else None) with
  | Some t => (Some t, a)
  | None =>
      let '(found, s0) := Ledger.getOpenTrade (ledgerStore (trader a)) in
      (snd <$> found,
       {| instantiated := instantiated a; trader := Trader.with_store (trader a) s0 |})
  end.

(** [src/src/index.js] l. 112-113, the first two steps of [startApp]. *)
Definition startApp (e : env) (s : store) : outcome app :=
  s1 ← Ledger.initializeLedger e s;
  initializeTrader e (start s1).

(** [src/src/index.js] l. 168-172 and 288, one pass of the main loop as far
    as the trader goes; the loop's [try]/[catch] (l. 175, 354) logs what
    [processSignals] throws, which it does before it has changed
    anything. *)
Definition pass (cfg : config) (e : env) (sg : signals) (candleCount : nat) (a : app)
  : app :=
  if enabled cfg && instantiated a then
    match Trader.processSignals cfg e sg candleCount (trader a) with
    | Returned st => {| instantiated := true; trader := st |}
    | Thrown _ => a
    end
  else a.

End App.

(** The states of a run of the application: [startApp] in a new process
    (the ledger module's cache is [null]) over a well-formed ledger file,
    then passes of the main loop, each drawing an identifier that no trade
    of the ledger carries. *)
Inductive running (cfg : config) : app -> Prop :=
  | run_start (e : env) (s : store) (a : app) :
      currentLedger s = None ->
      well_formed_store s ->
      App.startApp e s = Returned a ->
      running cfg a
  | run_pass (e : env) (sg : signals) (candleCount : nat) (a : app) :
      running cfg a ->
      Some (fresh_id e) ∉ ids (ledger_trades (trader a)) ->
      running cfg (App.pass cfg e sg candleCount a).

(** A new process over the same ledger file: the module's cache is empty
    again. *)
Definition restart (s : store) : store :=
  {| currentLedger := None; disk := disk s |}.

(** The cached summary is the one [recalculateSummary] gives for the cached
    trades. *)
Definition summary_fresh (s : store) : Prop :=
  ledger_summary (Ledger.current s)
  = Some (Ledger.recalculateSummary (trades (Ledger.current s))).

(** ** Analytics of the UI server: [src/src/ui/server.js] *)

Module Analytics.

Local Open Scope float_scope.

(** The [overview] object that [computeAnalytics] returns (l. 124-134). *)
Record overview : Type := mkOverview {
  closedTrades : nat;
  wins : nat;
  losses : nat;
  totalPnL : float;
  winRate : option float;
  avgWin : option float;
  avgLoss : option float;
  profitFactor : option float;
  expectancy : option float
}.

(** l. 109: [trades.filter((t) => t && t.status === 'CLOSED')]. *)
Definition closed (allTrades : list trade) : list trade :=
  List.filter is_closed allTrades.

(** l. 111-112: the tests of a win and of a loss. *)
Definition is_win (t : trade) : bool :=
  Js.is_number (t_pnl t) && JsNum.gt (Js.to_number (t_pnl t)) 0.

Definition is_loss (t : trade) : bool :=
  Js.is_number (t_pnl t) && JsNum.lt (Js.to_number (t_pnl t)) 0.

(** l. 114: [sum]. *)
Definition sum (arr : list trade) : float :=
  fold_left
    (fun acc t => acc + (if Js.is_number (t_pnl t) then Js.to_number (t_pnl t) else 0))
    arr 0.

(** [arr.length ? (x / arr.length) : null]. *)
Definition per (x : float) (len : nat) : option float :=
  match len with
  | O => None
  | S _ => Some (x / JsNum.of_nat len)
  end.

(** l. 107-134: the [overview] part of [computeAnalytics]; the groupings
    of l. 135-150 are not modelled. *)
Definition overview_of (allTrades : list trade) : overview :=
  let closed := closed allTrades in
  let wins := List.filter is_win closed in
  let losses := List.filter is_loss closed in
  let totalPnL := sum closed in
  let winPnL := sum wins in
  let lossPnL := sum losses in
  {| closedTrades := length closed;
     wins := length wins;
     losses := length losses;
     totalPnL := totalPnL;
     winRate := per (JsNum.of_nat (length wins)) (length closed);
     avgWin := per winPnL (length wins);
     avgLoss := per lossPnL (length losses);
     profitFactor :=
       if negb (JsNum.seq lossPnL 0) then Some (winPnL / JsNum.abs lossPnL) else None;
     expectancy := per totalPnL (length closed) |}.

End Analytics.

(** ** VWAP crosses: [countVwapCrosses], [src/src/index.js] l. 108 *)

Module VwapCross.

Local Open Scope float_scope.

(** [closes[i]] and [vwapSeries[i]] as the subtraction reads them: an index
    out of range gives [undefined], that is NaN, and a [null] entry of the
    series gives [0]. *)
Definition close_at (closes : list float) (i : nat) : float :=
  default nan (closes !! i).

Definition vwap_at (vwapSeries : list (option float)) (i : nat) : float :=
  match vwapSeries !! i with
  | Some (Some x) => x
  | Some None => 0
  | None => nan
  end.

(** The body of the loop at index [i]: whether [crosses += 1] runs. *)
Definition crossed (closes : list float) (vwapSeries : list (option float)) (i : nat)
  : bool :=
  let prev := close_at closes (i - 1) - vwap_at vwapSeries (i - 1) in
  let cur := close_at closes i - vwap_at vwapSeries i in
  if JsNum.seq prev 0 then false
  else (JsNum.gt prev 0 && JsNum.lt cur 0) || (JsNum.lt prev 0 && JsNum.gt cur 0).

(** [countVwapCrosses]; [None] is [null].  The loop runs [i] from
    [closes.length - lookback + 1] up to [closes.length - 1]. *)
Definition countVwapCrosses (closes : list float) (vwapSeries : list (option float))
  (lookback : nat) : option nat :=
  if (length closes <? lookback)%nat || (length vwapSeries <? lookback)%nat then None
  else
    Some (fold_left
            (fun crosses i => if crossed closes vwapSeries i then S crosses else crosses)
            (seq (length closes - lookback + 1) (lookback - 1)) 0%nat).

End VwapCross.

(** ** The specification's vocabulary

    Definitions that follow the words of the specification, to be compared
    with what the code computes. *)

Module Spec.

Local Open Scope float_scope.

(** "a finite number strictly greater than 0". *)
Definition positive_finite (v : jsprim) : bool :=
  match v with
  | JVal (JNum x) => JsNum.isFinite x && JsNum.gt x 0
  | _ => false
  end.

(** "shares is set": neither [null] nor [undefined]. *)
Definition is_set (v : jsprim) : bool := negb (Js.is_nullish v).

(** "status is OPEN (or absent, defaulting to OPEN)". *)
Definition open_or_absent (t : trade) : Prop :=
  t_status t = Some OPEN \/ t_status t = None.

(** [clamp(x, lo, hi)]. *)
Definition clamp (x lo hi : float) : float := JsNum.max lo (JsNum.min hi x).

(** "clamp(balance x stakePercent, minTradeUsd, maxTradeUsd), further
    capped at available balance". *)
Definition capped_stake (balance stakePercent minTradeUsd maxTradeUsd : float) : float :=
  JsNum.min (clamp (balance * stakePercent) minTradeUsd maxTradeUsd) balance.

(** "rounded down to the smallest currency unit". *)
Definition floor_cents (x : float) : float := JsNum.floor (x * 100) / 100.

End Spec.

(** ** Concrete scenarios

    The inputs of the repository's tests and of the specification's
    end-to-end scenarios, used to run the embedding. *)

Module Scenarios.

Local Open Scope float_scope.

(** The bars of [src/test/vwap.test.js]. *)
Definition vwap_test_bars : list candle :=
  [ {| high := 110; low := 90; close := 100; volume := JNum 0 |};
    {| high := 120; low := 100; close := 110; volume := JNum 0 |} ].

(** Two bars without volume whose close is not the middle of the range. *)
Definition vwap_skewed_bars : list candle :=
  [ {| high := 110; low := 90; close := 94; volume := JNum 0 |};
    {| high := 120; low := 100; close := 113; volume := JNum 0 |} ].

(** An environment whose disk accepts writes, and one whose disk fails. *)
Definition env_ok : env :=
  {| now_ms := 1770076800000; now_iso := "2026-02-03T00:00:00.000Z";
     fresh_id := "1770076800000k3x9q2"; write_ok := true |}.

Definition env_fail : env :=
  {| now_ms := 1770076800000; now_iso := "2026-02-03T00:00:00.000Z";
     fresh_id := "1770076800000k3x9q2"; write_ok := false |}.

(** A process that has not touched the ledger yet, with no ledger file. *)
Definition store_empty : store := {| currentLedger := None; disk := None |}.

(** A trade as the trader's entry builds it: UP at 0.20 for $100. *)
Definition trade_up (id : string) (st : status) : trade :=
  {| t_id := Some id;
     t_timestamp := Some "2026-02-03T00:00:00.000Z";
     t_marketSlug := Some "btc-updown-15m-1770076800";
     t_side := Some UP;
     t_instrument := Some "POLY";
     t_entryPrice := JNum 0.20;
     t_shares := JNum 500;
     t_contractSize := JNum 100;
     t_status := Some st;
     t_entryTime := Some "2026-02-03T00:00:00.000Z";
     t_exitPrice := JNull;
     t_exitTime := None;
     t_pnl := JNum 0;
     t_entryPhase := Some EARLY;
     t_sideInferred := Some false;
     t_exitReason := None;
     t_entryReason := None |}.

(** The corrupt record of the changelog: an OPEN trade entered at 0.00. *)
Definition trade_zero_price : trade :=
  {| t_id := Some "1770076800000zzzzzz";
     t_timestamp := None;
     t_marketSlug := Some "btc-updown-15m-1770076800";
     t_side := Some UP;
     t_instrument := Some "POLY";
     t_entryPrice := JNum 0;
     t_shares := JUndef;
     t_contractSize := JNum 100;
     t_status := None;
     t_entryTime := None;
     t_exitPrice := JNull;
     t_exitTime := None;
     t_pnl := JUndef;
     t_entryPhase := Some EARLY;
     t_sideInferred := None;
     t_exitReason := None;
     t_entryReason := None |}.

(** An OPEN trade entered at 0.50, complete but for its [shares], which are
    whatever the caller has put there. *)
Definition trade_with_shares (sh : jsprim) : trade :=
  {| t_id := Some "1770076800000sssss";
     t_timestamp := Some "2026-02-03T00:00:00.000Z";
     t_marketSlug := Some "btc-updown-15m-1770076800";
     t_side := Some UP;
     t_instrument := Some "POLY";
     t_entryPrice := JNum 0.5;
     t_shares := sh;
     t_contractSize := JNum 100;
     t_status := Some OPEN;
     t_entryTime := Some "2026-02-03T00:00:00.000Z";
     t_exitPrice := JNull;
     t_exitTime := None;
     t_pnl := JNum 0;
     t_entryPhase := Some EARLY;
     t_sideInferred := Some false;
     t_exitReason := None;
     t_entryReason := None |}.

(** A cached ledger holding the given trades, summary recomputed. *)
Definition ledger_of (ts : list trade) : ledger :=
  {| trades := ts; ledger_summary := Some (Ledger.recalculateSummary ts) |}.

Definition store_of (ts : list trade) : store :=
  {| currentLedger := Some (ledger_of ts); disk := Some (Ledger.json_ledger (ledger_of ts)) |}.

(** [CONFIG.paperTrading] with the defaults of [src/unnamed/part_003]
    (first document, l. 52-113), which has no [recGating] entry. *)
Definition cfg_default : config :=
  {| enabled := true;
     startingBalance := Some 1000; stakePct := JNum 0.10;
     minTradeUsd := Some 25; maxTradeUsd := Some 250; contractSize := Some 100;
     minProbEarly := 0.60; minProbMid := 0.64; minProbLate := 0.68;
     edgeEarly := 0.08; edgeMid := 0.12; edgeLate := 0.16;
     stopLossPct := Some 0.20;
     exitFlipMinProb := Some 0.58; exitFlipMargin := Some 0.05;
     flipOnProbabilityFlip := Some true; flipCooldownSeconds := Some 180;
     minLiquidity := Some 1000; maxSpread := 0.05;
     minVolumeRecent := Some 0; minVolumeRatio := Some 0;
     minPolyPrice := Some 0.01; maxPolyPrice := Some 0.98;
     noEntryFinalMinutes := 2; minCandlesForEntry := Some 30;
     recGating := None |}.

(** The same with the flip threshold of scenario B and the gating mode
    given. *)
Definition cfg_with (gating : string) (flipMinProb : float) : config :=
  {| enabled := true;
     startingBalance := Some 1000; stakePct := JNum 0.10;
     minTradeUsd := Some 25; maxTradeUsd := Some 250; contractSize := Some 100;
     minProbEarly := 0.60; minProbMid := 0.64; minProbLate := 0.68;
     edgeEarly := 0.08; edgeMid := 0.12; edgeLate := 0.16;
     stopLossPct := Some 0.20;
     exitFlipMinProb := Some flipMinProb; exitFlipMargin := Some 0.05;
     flipOnProbabilityFlip := Some true; flipCooldownSeconds := Some 180;
     minLiquidity := Some 1000; maxSpread := 0.05;
     minVolumeRecent := Some 0; minVolumeRatio := Some 0;
     minPolyPrice := Some 0.01; maxPolyPrice := Some 0.98;
     noEntryFinalMinutes := 2; minCandlesForEntry := Some 30;
     recGating := Some gating |}.

(** The configuration [src/test/trader-entry.test.js] sets (l. 25-36). *)
Definition cfg_test : config :=
  {| enabled := true;
     startingBalance := Some 1000; stakePct := JNum 0.10;
     minTradeUsd := Some 25; maxTradeUsd := Some 250; contractSize := Some 100;
     minProbEarly := 0.50; minProbMid := 0.64; minProbLate := 0.68;
     edgeEarly := 0; edgeMid := 0.12; edgeLate := 0.16;
     stopLossPct := Some 0.20;
     exitFlipMinProb := Some 0.58; exitFlipMargin := Some 0.05;
     flipOnProbabilityFlip := Some true; flipCooldownSeconds := Some 180;
     minLiquidity := Some 0; maxSpread := 999;
     minVolumeRecent := Some 0; minVolumeRatio := Some 0;
     minPolyPrice := Some 0.002; maxPolyPrice := Some 0.98;
     noEntryFinalMinutes := 2; minCandlesForEntry := Some 1;
     recGating := Some "loose" |}.

(** The indicators of the test (l. 49-56); volumes are not available. *)
Definition indicators_ready : indicators :=
  {| volumeRecent := JNull; volumeAvg := JNull;
     rsiNow := JNum 50; vwapNow := JNum 100; vwapSlope := JNum 0.1;
     macd_hist := JNum 1; heikenColor := Some "green"; heikenCount := JNum 3 |}.

(** A tick on a liquid market with tight spreads and warm indicators. *)
Definition tick (r : option recommendation) (minutesLeft : float) (marketSlug : string)
  (up down mUp mDown : jsval) : signals :=
  {| sig_rec := r;
     timeLeftMin := minutesLeft;
     sig_market := Some {| slug := Some marketSlug; liquidityNum := JNum 100000 |};
     spread_up := JNum 0.01; spread_down := JNum 0.01;
     polyPrices := Some {| price_UP := up; price_DOWN := down |};
     modelUp := mUp; modelDown := mDown;
     sig_indicators := Some indicators_ready |}.

Definition market_a : string := "btc-updown-15m-1770076800".
Definition market_b : string := "btc-updown-15m-1770077700".

(** The signals of the test (l. 41-57): the recommendation abstains and
    names no side. *)
Definition signals_test : signals :=
  tick (Some {| rec_action := Some "NO_TRADE"; rec_side := None;
                rec_phase := Some EARLY; rec_edge := JNum 0.2 |})
       10 "m1" (JNum 0.01) (JNum 0.02) (JNum 0.7) (JNum 0.3).

(** A recommendation to enter on a side, early in the window. *)
Definition rec_enter (sd : side) : option recommendation :=
  Some {| rec_action := Some "ENTER"; rec_side := Some sd;
          rec_phase := Some EARLY; rec_edge := JNum 0.2 |}.

(** A recommendation that holds but names a side. *)
Definition rec_hold (sd : side) : option recommendation :=
  Some {| rec_action := Some "NO_TRADE"; rec_side := Some sd;
          rec_phase := Some MID; rec_edge := JNum 0.01 |}.

(** A trader holding the UP trade of [trade_up], recorded in the ledger. *)
Definition id_a : string := "1770076000000abcdef".

Definition holding (t : trade) : tstate :=
  {| openTrade := Some t; sharedAt := None; lastFlipAtMs := 0;
     ledgerStore := store_of [t] |}.

(** A closed trade of an earlier market with the given realized profit. *)
Definition trade_closed (id : string) (profit : float) : trade :=
  {| t_id := Some id;
     t_timestamp := Some "2026-02-02T23:00:00.000Z";
     t_marketSlug := Some "btc-updown-15m-1770073200";
     t_side := Some DOWN;
     t_instrument := Some "POLY";
     t_entryPrice := JNum 0.5;
     t_shares := JNum 200;
     t_contractSize := JNum 100;
     t_status := Some CLOSED;
     t_entryTime := Some "2026-02-02T23:00:00.000Z";
     t_exitPrice := JNum ((100 + profit) / 200);
     t_exitTime := Some "2026-02-02T23:10:00.000Z";
     t_pnl := JNum profit;
     t_entryPhase := Some EARLY;
     t_sideInferred := Some false;
     t_exitReason := Some "End of Candle";
     t_entryReason := None |}.

(** An UP trade bought at 0.30 for $100: 333.33... shares. *)
Definition trade_thirds : trade :=
  {| t_id := Some id_a;
     t_timestamp := Some "2026-02-03T00:00:00.000Z";
     t_marketSlug := Some market_a;
     t_side := Some UP;
     t_instrument := Some "POLY";
     t_entryPrice := JNum 0.3;
     t_shares := JNum (100 / 0.3);
     t_contractSize := JNum 100;
     t_status := Some OPEN;
     t_entryTime := Some "2026-02-03T00:00:00.000Z";
     t_exitPrice := JNull;
     t_exitTime := None;
     t_pnl := JNum 0;
     t_entryPhase := Some EARLY;
     t_sideInferred := Some false;
     t_exitReason := None;
     t_entryReason := None |}.

(** Scenario A: a recommendation to enter UP, quoted at 0.20. *)
Definition signals_a : signals :=
  tick (rec_enter UP) 10 market_a (JNum 0.20) (JNum 0.80) (JNum 0.7) (JNum 0.3).

(** Scenario B: the model has turned to DOWN, 0.65 against 0.40. *)
Definition signals_b : signals :=
  tick (rec_hold DOWN) 10 market_a (JNum 0.15) (JNum 0.85) (JNum 0.40) (JNum 0.65).

(** Scenario C: the next market's tick, the model firmly on UP. *)
Definition signals_c : signals :=
  tick (rec_hold UP) 10 market_b (JNum 0.30) (JNum 0.70) (JNum 0.9) (JNum 0.1).

(** The next market's tick without a quote for UP. *)
Definition signals_c_no_quote : signals :=
  tick (rec_hold DOWN) 10 market_b JNull (JNum 0.70) (JNum 0.9) (JNum 0.1).

(** UP has fallen to 0.05 while the model still favours UP. *)
Definition signals_loss : signals :=
  tick (rec_hold UP) 10 market_a (JNum 0.05) (JNum 0.95) (JNum 0.6) (JNum 0.4).

(** The same tick on the next market. *)
Definition signals_loss_rolled : signals :=
  tick (rec_hold UP) 10 market_b (JNum 0.05) (JNum 0.95) (JNum 0.6) (JNum 0.4).

(** The model at 0.70 for DOWN, both sides quoted at 0.50. *)
Definition signals_flip_half : signals :=
  tick (rec_hold DOWN) 10 market_a (JNum 0.5) (JNum 0.5) (JNum 0.30) (JNum 0.70).

(** Six seconds before the window ends: the recommendation names DOWN,
    which has no quote; UP, the held side, is quoted at 0.50. *)
Definition signals_end_no_down_quote : signals :=
  tick (rec_hold DOWN) 0.1 market_a (JNum 0.5) JNull (JNum 0.5) (JNum 0.5).

(** The same tick with a recommendation that names UP. *)
Definition signals_end : signals :=
  tick (rec_hold UP) 0.1 market_a (JNum 0.5) JNull (JNum 0.5) (JNum 0.5).

(** A flat trader over a ledger with five cents of realized profit. *)
Definition flat_with_profit : tstate :=
  fresh_trader (store_of [trade_closed "1770070000000aaaaaa" 0.05]).

(** Scenario A's outcome: $100 of UP at 0.20 is 500 shares. *)
Definition opened_a : trade :=
  Trader.entry_trade env_ok market_a UP (JNum 0.20) 500 100 (Some EARLY) false.

Definition after_a : tstate :=
  {| openTrade := Some opened_a; sharedAt := None; lastFlipAtMs := 0;
     ledgerStore := store_of [opened_a] |}.

(** The trader after [initialize] on an empty ledger. *)
Definition initialized : tstate :=
  {| openTrade := None; sharedAt := None; lastFlipAtMs := 0;
     ledgerStore := {| currentLedger := Some Ledger.default_ledger; disk := None |} |}.

(** A later tick's environment. *)
Definition env_later : env :=
  {| now_ms := 1770077100000; now_iso := "2026-02-03T00:05:00.000Z";
     fresh_id := "1770077100000p7m4d1"; write_ok := true |}.

(** The state after scenario A's entry and then scenario B's tick, which
    closes the UP trade and opens the DOWN "Flip" trade. *)
Definition after_a_then_b : tstate :=
  Eval vm_compute in
    match Trader.processSignals cfg_default env_later signals_b 30 after_a with
    | Returned st => st
    | Thrown _ => after_a
    end.

(** The DOWN trade that scenario B's tick opens, and the state in between:
    after the close of the UP trade at 0.15, before the flip entry. *)
Definition flipped_b : trade :=
  Eval vm_compute in
    match openTrade after_a_then_b with
    | Some t => t
    | None => opened_a
    end.

Definition closed_a_at_b : tstate :=
  Eval vm_compute in
    match Trader.closeTrade env_later opened_a (JNum 0.15) "Probability Flip" after_a with
    | Returned st => st
    | Thrown _ => after_a
    end.

(** A ledger file whose only trade is OPEN with an entry price of 0. *)
Definition trade_corrupt : trade :=
  {| t_id := Some "1770070000000bad000";
     t_timestamp := Some "2026-02-02T23:00:00.000Z";
     t_marketSlug := Some "btc-updown-15m-1770073200";
     t_side := Some UP;
     t_instrument := Some "POLY";
     t_entryPrice := JNum 0;
     t_shares := JNull;
     t_contractSize := JNum 100;
     t_status := Some OPEN;
     t_entryTime := Some "2026-02-02T23:00:00.000Z";
     t_exitPrice := JNull;
     t_exitTime := None;
     t_pnl := JNum 0;
     t_entryPhase := Some EARLY;
     t_sideInferred := None;
     t_exitReason := None;
     t_entryReason := None |}.

Definition store_corrupt : store :=
  {| currentLedger := None;
     disk := Some {| trades := [trade_corrupt]; ledger_summary := None |} |}.


(** A trade object that carries only what a caller has to give: no
    identifier, timestamp, status or pnl. *)
Definition trade_bare : trade :=
  {| t_id := None;
     t_timestamp := None;
     t_marketSlug := Some market_a;
     t_side := Some DOWN;
     t_instrument := Some "POLY";
     t_entryPrice := JNum 0.5;
     t_shares := JUndef;
     t_contractSize := JNum 100;
     t_status := None;
     t_entryTime := None;
     t_exitPrice := JUndef;
     t_exitTime := None;
     t_pnl := JUndef;
     t_entryPhase := None;
     t_sideInferred := None;
     t_exitReason := None;
     t_entryReason := None |}.

(** A record of the ledger file that is OPEN and valid but has no [id]. *)
Definition trade_no_id : trade :=
  {| t_id := None;
     t_timestamp := Some "2026-02-03T00:00:00.000Z";
     t_marketSlug := Some market_a;
     t_side := Some DOWN;
     t_instrument := Some "POLY";
     t_entryPrice := JNum 0.5;
     t_shares := JNum 200;
     t_contractSize := JNum 100;
     t_status := Some OPEN;
     t_entryTime := Some "2026-02-03T00:00:00.000Z";
     t_exitPrice := JNull;
     t_exitTime := None;
     t_pnl := JNum 0;
     t_entryPhase := Some EARLY;
     t_sideInferred := Some false;
     t_exitReason := None;
     t_entryReason := None |}.

(** An update that carries only the closing fields. *)
Definition patch_exit : trade :=
  {| t_id := None;
     t_timestamp := None;
     t_marketSlug := None;
     t_side := None;
     t_instrument := None;
     t_entryPrice := JUndef;
     t_shares := JUndef;
     t_contractSize := JUndef;
     t_status := Some CLOSED;
     t_entryTime := None;
     t_exitPrice := JNum 0.3;
     t_exitTime := Some "2026-02-03T00:14:40.000Z";
     t_pnl := JNum 50;
     t_entryPhase := None;
     t_sideInferred := None;
     t_exitReason := Some "End of Candle";
     t_entryReason := None |}.

(** Scenario A's tick one minute before the window ends. *)
Definition signals_a_late : signals :=
  tick (rec_enter UP) 1 market_a (JNum 0.20) (JNum 0.80) (JNum 0.7) (JNum 0.3).

(** Scenario A's tick with a recommendation that holds on UP. *)
Definition signals_a_hold : signals :=
  tick (Some {| rec_action := Some "NO_TRADE"; rec_side := Some UP;
                rec_phase := Some EARLY; rec_edge := JNum 0.2 |})
       10 market_a (JNum 0.20) (JNum 0.80) (JNum 0.7) (JNum 0.3).

(** Scenario A's tick without a recommendation object. *)
Definition signals_no_rec : signals :=
  tick None 10 market_a (JNum 0.20) (JNum 0.80) (JNum 0.7) (JNum 0.3).

(** The last seconds of the window, the model undecided. *)
Definition signals_last_seconds : signals :=
  tick (rec_hold UP) 0.1 market_a (JNum 0.5) (JNum 0.5) (JNum 0.5) (JNum 0.5).

(** The trader of a new process that has adopted the OPEN trade [t] of the
    ledger file written for [store_of [t]]. *)
Definition adopted (t : trade) : tstate :=
  {| openTrade := Some t; sharedAt := Some 0%nat; lastFlipAtMs := 0;
     ledgerStore := Ledger.ensure_loaded (restart (store_of [t])) |}.

(** The application started in a new process without a ledger file, and
    then after the pass of the main loop that sees scenario A's tick. *)
Definition app_started : app :=
  Eval vm_compute in
    match App.startApp env_ok store_empty with
    | Returned a => a
    | Thrown _ => App.start store_empty
    end.

Definition app_after_a : app :=
  Eval vm_compute in App.pass cfg_default env_later signals_a 30 app_started.

(** Scenario A's tick under the earlier revision, on the ledger with five
    cents of realized profit: the trade it opens and the state after it. *)
Definition legacy_opened_a : trade :=
  LegacyTrader.entry_trade cfg_default env_ok market_a UP (JNum 0.20) 500 (Some EARLY).

Definition legacy_after_a : tstate :=
  Eval vm_compute in
    match LegacyTrader.processSignals cfg_default env_ok signals_a 30 flat_with_profit with
    | Returned st => st
    | Thrown _ => flat_with_profit
    end.

(** A flat trader over a ledger whose one CLOSED trade lost the whole
    starting balance. *)
Definition flat_wiped_out : tstate :=
  fresh_trader (store_of [trade_closed "1770070000000aaaaaa" (-1000)]).

End Scenarios.

(** * Properties *)

(** ** Facts about binary64 comparisons with zero *)

Module FloatFacts.

Local Open Scope float_scope.

Lemma Prim2SF_zero : Prim2SF 0 = S754_zero false.
Proof. reflexivity. Qed.

Lemma zero_cases (x : float) : (x =? 0) = true -> x = 0 \/ x = (-0).
Proof.
  rewrite FloatAxioms.eqb_spec, Prim2SF_zero. intros H.
  rewrite <- (SF2Prim_Prim2SF x).
  destruct (Prim2SF x) as [s | s | | s m e]; try discriminate.
  - destruct s; [right | left]; reflexivity.
  - destruct s; discriminate.
  - destruct s; discriminate.
Qed.

Lemma lt0_not_le0 (x : float) : (0 <? x) = true -> (x <=? 0) = false.
Proof.
  rewrite FloatAxioms.ltb_spec, FloatAxioms.leb_spec, Prim2SF_zero.
  destruct (Prim2SF x) as [s | s | | s m e]; try discriminate; try reflexivity;
    destruct s; try discriminate; reflexivity.
Qed.

Lemma not_lt0_le0 (x : float) :
  is_nan x = false -> (0 <? x) = false -> (x <=? 0) = true.
Proof.
  unfold is_nan. rewrite FloatAxioms.eqb_spec, FloatAxioms.ltb_spec, FloatAxioms.leb_spec, Prim2SF_zero.
  destruct (Prim2SF x) as [s | s | | s m e]; try discriminate; try reflexivity;
    destruct s; try discriminate; reflexivity.
Qed.

Lemma finite_not_nan (x : float) : is_finite x = true -> is_nan x = false.
Proof.
  unfold is_finite. destruct (is_nan x); [discriminate | reflexivity].
Qed.

(** [Number(x.toFixed(2))] on some values: a repeating fraction, a decimal
    that its double undershoots, exact ties (rounded away from zero), a
    negative value that rounds to [-0], values between 2^53 / 100 and 2^52
    (where [x * 100] is no longer exact in binary64, but [toFixed] is), and
    1e21, which [toFixed] prints in exponent notation. *)
Lemma toFixed2_values :
  JsNum.toFixed2 66.66666666666667 = 66.67
  /\ JsNum.toFixed2 1.005 = 1
  /\ JsNum.toFixed2 0.125 = 0.13
  /\ JsNum.toFixed2 (-0.125) = -0.13
  /\ JsNum.toFixed2 (-0.001) = -0
  /\ JsNum.toFixed2 (0.1 + 0.2) = 0.3
  /\ JsNum.toFixed2 123456789012345.67 = 123456789012345.67
  /\ JsNum.toFixed2 90071992547409.92 = 90071992547409.92
  /\ JsNum.toFixed2 4000000000000001 = 4000000000000001
  /\ JsNum.toFixed2 1e21 = 1e21
  /\ JsNum.toFixed2 infinity = infinity.
Proof. repeat split. Qed.

(** [Number(s)] on some strings: decimal literals with white space around
    them, with a sign, a dot and an exponent; literals of base 16, 8 and 2;
    the empty string; roundings to the nearest double, to [Infinity] and to
    zero; and strings that are no numeric literal, which give NaN. *)
Lemma string_to_number_values :
  Js.string_to_number "5" = 5
  /\ Js.string_to_number "  12.5e1 " = 125
  /\ Js.string_to_number "+.5" = 0.5
  /\ Js.string_to_number "5." = 5
  /\ Js.string_to_number "-0" = -0
  /\ Js.string_to_number "0.1" = 0.1
  /\ Js.string_to_number "" = 0
  /\ Js.string_to_number "   " = 0
  /\ Js.string_to_number "0x1F" = 31
  /\ Js.string_to_number "0o17" = 15
  /\ Js.string_to_number "0b101" = 5
  /\ Js.string_to_number "9007199254740993" = 9007199254740992
  /\ Js.string_to_number "1e400" = infinity
  /\ Js.string_to_number "-1e-400" = -0
  /\ Js.string_to_number "Infinity" = infinity
  /\ Js.string_to_number "-Infinity" = neg_infinity
  /\ forallb (fun s => is_nan (Js.string_to_number s))
       ["five"; "5px"; "5 5"; "0x"; "-0x10"; "0b102"; "1e"; "e5"; "."; "+"; "1_000";
        "1.2.3"; "infinity"; "NaN"; "true"; "null"] = true.
Proof. repeat split. Qed.

End FloatFacts.

(** ** Session VWAP *)

Module VwapFacts.

Import Vwap.
Local Open Scope float_scope.

(** The increments [n += 1] are exact: up to the 240 bars the application
    keeps (and far beyond), the counter of the loop is the number of bars. *)
Lemma count_is_exact_to_4096 :
  forallb (fun k => PrimFloat.Leibniz.eqb (JsNum.count k) (JsNum.of_nat k)) (seq 0 4097)
  = true.
Proof. vm_compute. reflexivity. Qed.

(** Adding a zero volume to a running volume of [0] leaves [0]. *)
Lemma add_zero_volume (x : float) : JsNum.seq x 0 = true -> 0 + x = 0.
Proof.
  intros H. destruct (FloatFacts.zero_cases x H) as [-> | ->]; reflexivity.
Qed.

(** The loop from any accumulator: the counter and the sum of typical
    prices do not depend on the volumes. *)
Lemma fold_step_n (cs : list candle) (a : acc) :
  n (fold_left step cs a) = (n a + length cs)%nat.
Proof.
  revert a. induction cs as [| c cs IH]; intros a; simpl.
  - lia.
  - rewrite IH. simpl. lia.
Qed.

Lemma fold_step_tpSum (cs : list candle) (a : acc) :
  tpSum (fold_left step cs a) = fold_left PrimFloat.add (typical_price <$> cs) (tpSum a).
Proof.
  revert a. induction cs as [| c cs IH]; intros a; simpl.
  - reflexivity.
  - rewrite IH. reflexivity.
Qed.

Lemma fold_step_v_zero (cs : list candle) (a : acc) :
  v a = 0 -> Forall zero_volume cs -> v (fold_left step cs a) = 0.
Proof.
  revert a. induction cs as [| c cs IH]; intros a Ha Hz; simpl.
  - exact Ha.
  - inversion Hz as [| c' cs' Hc Hcs]; subst.
    apply IH; [| exact Hcs].
    simpl. rewrite Ha. apply add_zero_volume. exact Hc.
Qed.

(** C10.  For every non-empty sequence of bars whose volumes are all zero,
    [computeSessionVwap] returns the unweighted arithmetic mean of
    [(high + low + close) / 3] over the bars, as the very same double (the
    sum taken in bar order, then one division by the number of bars). *)
Theorem vwap_zero_volume_is_mean (bars : list candle) :
  bars <> [] ->
  Forall zero_volume bars ->
  computeSessionVwap bars
  = Some (unweighted_mean ((fun c => (high c + low c + close c) / 3) <$> bars)).
Proof.
  intros Hne Hz.
  destruct bars as [| b bs]; [congruence |].
  unfold computeSessionVwap, loop, unweighted_mean.
  rewrite (fold_step_v_zero (b :: bs)) by (reflexivity || assumption).
  change (JsNum.seq 0 0) with true. cbv iota.
  rewrite fold_step_n, fold_step_tpSum, length_fmap.
  simpl. reflexivity.
Qed.

(** Two bars without volume that close away from the middle of their range:
    the typical prices are 98 and 111 and their mean 104.5, while the closes
    average 103.5 and the mid-ranges 105. *)
Lemma vwap_zero_volume_is_mean_witness :
  Forall zero_volume Scenarios.vwap_skewed_bars
  /\ computeSessionVwap Scenarios.vwap_skewed_bars
     = Some (unweighted_mean
               ((fun c => (high c + low c + close c) / 3) <$> Scenarios.vwap_skewed_bars))
  /\ computeSessionVwap Scenarios.vwap_skewed_bars = Some 104.5
  /\ unweighted_mean (close <$> Scenarios.vwap_skewed_bars) = 103.5
  /\ unweighted_mean ((fun c => (high c + low c) / 2) <$> Scenarios.vwap_skewed_bars) = 105.
Proof.
  split; [repeat constructor |].
  split; [| repeat split].
  apply vwap_zero_volume_is_mean.
  - discriminate.
  - repeat constructor.
Defined.

(** The bars of [src/test/vwap.test.js]: the test expects 105. *)
Lemma vwap_of_test_bars :
  computeSessionVwap Scenarios.vwap_test_bars = Some 105.
Proof. reflexivity. Qed.

End VwapFacts.

(** ** The ledger *)

Module LedgerFacts.

Import Ledger.
Local Open Scope float_scope.

(** The code's test of a price or share count accepts exactly the finite
    numbers above zero. *)
Lemma not_positive_finite_bad (x : float) :
  Spec.positive_finite (JNum x) = false ->
  negb (JsNum.isFinite x) || JsNum.le x 0 = true.
Proof.
  unfold Spec.positive_finite, JsNum.isFinite, JsNum.gt, JsNum.le.
  destruct (is_finite x) eqn:Hfin; simpl; [| reflexivity].
  intros Hgt. apply FloatFacts.not_lt0_le0; [| exact Hgt].
  apply FloatFacts.finite_not_nan. exact Hfin.
Qed.

Lemma badEp_of_not_positive (ep : jsval) :
  Spec.positive_finite ep = false -> badEp ep = true.
Proof.
  destruct ep as [| | x]; try reflexivity.
  intros H. unfold badEp. simpl.
  apply not_positive_finite_bad. exact H.
Qed.

Lemma badSh_of_not_positive (sh : jsprim) :
  Spec.is_set sh = true ->
  Spec.positive_finite (JNum (Js.to_number sh)) = false ->
  badSh sh = true.
Proof.
  unfold Spec.is_set, badSh. intros -> H.
  apply not_positive_finite_bad. exact H.
Qed.

(** [saveLedger] and [updateLedger] never throw: a failed write is caught. *)
Lemma saveLedger_returns (e : env) (l : ledger) (s : store) :
  saveLedger e l s
  = Returned (if write_ok e
              then {| currentLedger := currentLedger s; disk := Some (json_ledger l) |}
              else s).
Proof.
  unfold saveLedger, writeFileSync. destruct (write_ok e); reflexivity.
Qed.

Lemma current_ensure_loaded (s : store) : current (ensure_loaded s) = current s.
Proof.
  destruct s as [[l |] d]; reflexivity.
Qed.

Lemma disk_ensure_loaded (s : store) : disk (ensure_loaded s) = disk s.
Proof.
  destruct s as [[l |] d]; reflexivity.
Qed.

Lemma updateLedger_returns (e : env) (f : ledger -> ledger) (s : store) :
  updateLedger e f s
  = Returned {| currentLedger := Some (f (current s));
                disk := if write_ok e then Some (json_ledger (f (current s))) else disk s |}.
Proof.
  unfold updateLedger. rewrite saveLedger_returns, current_ensure_loaded, disk_ensure_loaded.
  destruct (write_ok e); reflexivity.
Qed.

(** An entry price that is a finite number above 0, with shares that are
    unset or convert to a finite number above 0, passes the test. *)
Lemma accepted_of_positive (t : trade) :
  Spec.positive_finite (t_entryPrice t) = true ->
  Spec.is_set (t_shares t) = false
  \/ Spec.positive_finite (JNum (Js.to_number (t_shares t))) = true ->
  refused t = false.
Proof.
  intros Hep Hsh. unfold refused.
  assert (H1 : badEp (t_entryPrice t) = false).
  { destruct (t_entryPrice t) as [| | x]; try discriminate Hep.
    unfold Spec.positive_finite in Hep. apply andb_prop in Hep as [Hf Hg].
    unfold badEp. simpl. rewrite Hf. simpl.
    apply FloatFacts.lt0_not_le0. exact Hg. }
  assert (H2 : badSh (t_shares t) = false).
  { unfold badSh. destruct Hsh as [Hset | Hpos].
    - unfold Spec.is_set in Hset. rewrite Hset. reflexivity.
    - unfold Spec.positive_finite in Hpos. apply andb_prop in Hpos as [Hf Hg].
      rewrite Hf. simpl. unfold JsNum.le.
      rewrite (FloatFacts.lt0_not_le0 _ Hg). apply andb_false_r. }
  rewrite H1, H2. apply andb_false_r.
Qed.

(** C8, as the code has it.  [addTrade] of a trade whose status is OPEN or
    absent, and whose entry price is not a finite number above 0, or whose
    shares are set and do not convert, by [Number(shares)], to a finite
    number above 0, returns without touching the ledger: the cache and the
    file are what they were, so no record, coerced or not, is stored.  Every
    other such trade is appended, with the shares as they were given: a
    string or a boolean that converts to a finite number above 0 is stored
    as that string or boolean. *)
Theorem addTrade_rejects_invalid_open (e : env) (t : trade) (s : store) :
  Spec.open_or_absent t ->
  (Spec.positive_finite (t_entryPrice t) = false
   \/ (Spec.is_set (t_shares t) = true
       /\ Spec.positive_finite (JNum (Js.to_number (t_shares t))) = false) ->
   addTrade e t s = Returned s)
  /\ (Spec.positive_finite (t_entryPrice t) = true
      /\ (Spec.is_set (t_shares t) = false
          \/ Spec.positive_finite (JNum (Js.to_number (t_shares t))) = true) ->
      exists s' r,
        addTrade e t s = Returned s'
        /\ trades (current s') = (trades (current s) ++ [r])%list
        /\ t_entryPrice r = t_entryPrice t
        /\ t_shares r = t_shares t).
Proof.
  intros Hopen. split.
  - intros Hbad. unfold addTrade.
    assert (Hr : refused t = true).
    { unfold refused, isOpen.
      destruct Hopen as [-> | ->]; simpl;
        (destruct Hbad as [Hep | [Hset Hsh]];
         [ rewrite (badEp_of_not_positive _ Hep); reflexivity
         | rewrite (badSh_of_not_positive _ Hset Hsh); apply orb_true_r ]). }
    rewrite Hr. reflexivity.
  - intros [Hep Hsh]. unfold addTrade.
    rewrite (accepted_of_positive t Hep Hsh), updateLedger_returns.
    eexists. exists (newTrade e t). split; [reflexivity |].
    unfold current. simpl. repeat split.
Qed.

(** The corrupt record of the changelog, entered at 0.00, and trades whose
    shares are the number 0, a string that is no number, the empty string
    (which converts to 0), a negative number in a string and the boolean
    [false]: each is refused, and the ledger with its one earlier trade is
    returned as it was.  Trades whose shares are 200, unset, or a string
    that converts to 5 are appended with these shares. *)
Lemma addTrade_rejects_invalid_open_witness :
  (Spec.open_or_absent Scenarios.trade_zero_price
   /\ Spec.positive_finite (t_entryPrice Scenarios.trade_zero_price) = false
   /\ addTrade Scenarios.env_ok Scenarios.trade_zero_price
        (Scenarios.store_of [Scenarios.trade_up "1770076000000abcdef" CLOSED])
      = Returned (Scenarios.store_of [Scenarios.trade_up "1770076000000abcdef" CLOSED]))
  /\ Forall
       (fun sh =>
          Spec.is_set sh = true
          /\ Spec.positive_finite (JNum (Js.to_number sh)) = false
          /\ addTrade Scenarios.env_ok (Scenarios.trade_with_shares sh)
               (Scenarios.store_of [Scenarios.trade_up "1770076000000abcdef" CLOSED])
             = Returned
                 (Scenarios.store_of [Scenarios.trade_up "1770076000000abcdef" CLOSED]))
       [JVal (JNum 0); JStr "five"; JStr ""; JStr "-5"; JBool false]
  /\ Forall
       (fun sh =>
          exists s' r,
            addTrade Scenarios.env_ok (Scenarios.trade_with_shares sh)
              (Scenarios.store_of [Scenarios.trade_up "1770076000000abcdef" CLOSED])
            = Returned s'
            /\ trades (current s')
               = ([Scenarios.trade_up "1770076000000abcdef" CLOSED] ++ [r])%list
            /\ t_entryPrice r = JNum 0.5
            /\ t_shares r = sh)
       [JVal (JNum 200); JVal JUndef; JStr "5"].
Proof.
  split; [| split].
  - split; [right; reflexivity |].
    split; [reflexivity |].
    apply (proj1 (addTrade_rejects_invalid_open Scenarios.env_ok Scenarios.trade_zero_price
                    (Scenarios.store_of [Scenarios.trade_up "1770076000000abcdef" CLOSED])
                    (or_intror eq_refl))).
    left; reflexivity.
  - repeat (apply Forall_cons; split;
            [ split; [reflexivity |]; split; [reflexivity |];
              match goal with
              | |- addTrade _ (Scenarios.trade_with_shares ?sh) ?s0 = _ =>
                  apply (proj1 (addTrade_rejects_invalid_open Scenarios.env_ok
                                  (Scenarios.trade_with_shares sh) s0 (or_introl eq_refl)))
              end;
              right; split; reflexivity
            | ]).
    apply Forall_nil. exact I.
  - apply Forall_cons; split;
      [ apply (proj2 (addTrade_rejects_invalid_open Scenarios.env_ok
                        (Scenarios.trade_with_shares (JNum 200))
                        (Scenarios.store_of
                           [Scenarios.trade_up "1770076000000abcdef" CLOSED])
                        (or_introl eq_refl)));
        split; [reflexivity | right; reflexivity] |].
    apply Forall_cons; split;
      [ apply (proj2 (addTrade_rejects_invalid_open Scenarios.env_ok
                        (Scenarios.trade_with_shares JUndef)
                        (Scenarios.store_of
                           [Scenarios.trade_up "1770076000000abcdef" CLOSED])
                        (or_introl eq_refl)));
        split; [reflexivity | left; reflexivity] |].
    apply Forall_cons; split;
      [ apply (proj2 (addTrade_rejects_invalid_open Scenarios.env_ok
                        (Scenarios.trade_with_shares (JStr "5"))
                        (Scenarios.store_of
                           [Scenarios.trade_up "1770076000000abcdef" CLOSED])
                        (or_introl eq_refl)));
        split; [reflexivity | right; reflexivity] |].
    apply Forall_nil. exact I.
Defined.

(** C8 as stated fails: shares that are set and are no number at all, the
    string "5" or the boolean [true], are tested as [Number(shares)], which
    is 5 and 1, so the trade is accepted.  The ledger and its file then hold
    the record with the string, or the boolean, as its shares. *)
Lemma addTrade_accepts_coerced_shares :
  Forall
    (fun sh =>
       Spec.open_or_absent (Scenarios.trade_with_shares sh)
       /\ Spec.is_set sh = true
       /\ Spec.positive_finite sh = false
       /\ Spec.positive_finite (JNum (Js.to_number sh)) = true
       /\ exists s',
            addTrade Scenarios.env_ok (Scenarios.trade_with_shares sh) Scenarios.store_empty
            = Returned s'
            /\ trades (current s') = [Scenarios.trade_with_shares sh]
            /\ (trades <$> disk s') = Some [Scenarios.trade_with_shares sh])
    [JStr "5"; JStr " 0x10 "; JBool true]
  /\ Js.to_number (JStr "5") = 5
  /\ Js.to_number (JStr " 0x10 ") = 16
  /\ Js.to_number (JBool true) = 1.
Proof.
  split; [| repeat split].
  repeat (apply Forall_cons; split;
          [ split; [left; reflexivity |]; split; [reflexivity |];
            split; [reflexivity |]; split; [reflexivity |];
            eexists; split; [vm_compute; reflexivity |]; split; reflexivity
          | ]).
  apply Forall_nil. exact I.
Qed.

(** C9, as the code has it.  When the write fails, [addTrade] and
    [updateTrade] still return normally (the error is caught and logged,
    nothing reaches the caller), the cached ledger holds the mutation, and
    the file keeps its previous content; the next save that succeeds writes
    the whole cached ledger, that mutation included. *)
Theorem write_failure_is_swallowed (e : env) (s : store) :
  write_ok e = false ->
  (forall t, refused t = false ->
     addTrade e t s
     = Returned {| currentLedger := Some (push_trade e t (current s)); disk := disk s |})
  /\ (forall tradeId updateData,
        updateTrade e tradeId updateData s
        = Returned {| currentLedger := Some (patch_trade tradeId updateData (current s));
                      disk := disk s |})
  /\ (forall e' f s', write_ok e' = true ->
        updateLedger e' f s'
        = Returned {| currentLedger := Some (f (current s'));
                      disk := Some (json_ledger (f (current s'))) |}).
Proof.
  intros Hw. repeat split.
  - intros t Hr. unfold addTrade. rewrite Hr, updateLedger_returns, Hw. reflexivity.
  - intros tradeId updateData. unfold updateTrade.
    rewrite updateLedger_returns, Hw. reflexivity.
  - intros e' f s' Hw'. rewrite updateLedger_returns, Hw'. reflexivity.
Qed.

Lemma write_failure_is_swallowed_witness :
  write_ok Scenarios.env_fail = false
  /\ addTrade Scenarios.env_fail (Scenarios.trade_up "1770076800000k3x9q2" OPEN)
       Scenarios.store_empty
     = Returned
         {| currentLedger :=
              Some (push_trade Scenarios.env_fail
                      (Scenarios.trade_up "1770076800000k3x9q2" OPEN)
                      (current Scenarios.store_empty));
            disk := None |}.
Proof.
  split; [reflexivity |].
  apply (proj1 (write_failure_is_swallowed Scenarios.env_fail Scenarios.store_empty eq_refl)).
  reflexivity.
Defined.

(** C9 as stated fails: with a failing disk, appending a valid OPEN trade
    to an empty ledger returns normally, and the cached ledger has advanced
    to one trade while no file was written. *)
Lemma write_failure_advances_memory :
  exists s',
    addTrade Scenarios.env_fail (Scenarios.trade_up "1770076800000k3x9q2" OPEN)
      Scenarios.store_empty = Returned s'
    /\ length (trades (current s')) = 1%nat
    /\ length (trades (current Scenarios.store_empty)) = 0%nat
    /\ disk s' = None.
Proof.
  eexists. split; [reflexivity |]. repeat split.
Qed.

End LedgerFacts.

(** ** The trade state machine *)

(** A run that has returned its state gives that state. *)
Ltac returned H :=
  unfold mret, outcome_ret, mbind, outcome_bind, obind in H; injection H as <-.

Module TraderFacts.

Import Trader.
Local Open Scope float_scope.

(** *** How a tick is dispatched *)

(** With a trade open, a tick that has a side and a price for it goes to
    the exit block. *)
Lemma processSignals_open (cfg : config) (e : env) (sg : signals) (n : nat)
  (st : tstate) (t : trade) (sd : side) (inferred : bool) :
  enabled cfg = true ->
  openTrade st = Some t ->
  resolve_side cfg sg = (Some sd, inferred) ->
  Js.is_null (price_of sg (Some sd)) = false ->
  processSignals cfg e sg n st = exit_block cfg e sg n t st.
Proof.
  intros Hen Hopen Hside Hpx. unfold processSignals.
  rewrite Hen, Hopen, Hside. simpl. rewrite Hpx.
  rewrite !andb_false_r. simpl. reflexivity.
Qed.

(** A tick without a side, or without a price for its side, ends before
    the entry and the exit blocks: the state is returned as it was. *)
Lemma processSignals_skipped (cfg : config) (e : env) (sg : signals) (n : nat)
  (st : tstate) :
  (fst (resolve_side cfg sg) = None
   \/ exists sd, fst (resolve_side cfg sg) = Some sd
                 /\ Js.is_null (price_of sg (Some sd)) = true) ->
  processSignals cfg e sg n st = Returned st.
Proof.
  intros H. unfold processSignals.
  destruct (negb (enabled cfg)); [reflexivity |].
  destruct (_ && _ && _); [reflexivity |].
  destruct (resolve_side cfg sg) as [side inferred]. simpl in H.
  destruct H as [-> | (sd & -> & Hpx)]; [reflexivity |].
  rewrite Hpx. reflexivity.
Qed.

(** [closeTrade] always returns: the trader is flat, and the ledger is the
    one [updateTrade] leaves. *)
Lemma closeTrade_returns (e : env) (t : trade) (exitPrice : jsval) (reason : string)
  (st : tstate) :
  closeTrade e t exitPrice reason st
  = Returned
      {| openTrade := None; sharedAt := None; lastFlipAtMs := lastFlipAtMs st;
         ledgerStore :=
           {| currentLedger := Some (ledger_after_close e t exitPrice reason st);
              disk := if write_ok e
                      then Some (Ledger.json_ledger (ledger_after_close e t exitPrice reason st))
                      else disk (ledgerStore st) |} |}.
Proof.
  unfold closeTrade, Ledger.updateTrade.
  rewrite LedgerFacts.updateLedger_returns. simpl.
  unfold ledger_after_close.
  replace (disk (write_shared (sharedAt st) (closed e t exitPrice reason) (ledgerStore st)))
    with (disk (ledgerStore st)); [reflexivity |].
  unfold write_shared. destruct (sharedAt st), (currentLedger (ledgerStore st)); reflexivity.
Qed.

(** *** Reading the ledger does not change what it answers *)

Lemma getLedger_eq (s : store) :
  Ledger.getLedger s = (Ledger.current s, Ledger.ensure_loaded s).
Proof.
  unfold Ledger.getLedger. rewrite LedgerFacts.current_ensure_loaded. reflexivity.
Qed.

Lemma getBalanceSnapshot_eq (cfg : config) (s : store) :
  getBalanceSnapshot cfg s = (balance_of cfg (Ledger.current s), Ledger.ensure_loaded s).
Proof. unfold getBalanceSnapshot. rewrite getLedger_eq. reflexivity. Qed.

Lemma computeContractSizeUsd_eq (cfg : config) (s : store) :
  computeContractSizeUsd cfg s
  = (size_of_balance cfg (balance_of cfg (Ledger.current s)), Ledger.ensure_loaded s).
Proof. unfold computeContractSizeUsd. rewrite getBalanceSnapshot_eq. reflexivity. Qed.

Lemma addTrade_returns (e : env) (t : trade) (s : store) :
  Ledger.addTrade e t s
  = Returned
      (if Ledger.refused t then s
       else {| currentLedger := Some (Ledger.push_trade e t (Ledger.current s));
               disk := if write_ok e
                       then Some (Ledger.json_ledger (Ledger.push_trade e t (Ledger.current s)))
                       else disk s |}).
Proof.
  unfold Ledger.addTrade. destruct (Ledger.refused t); [reflexivity |].
  apply LedgerFacts.updateLedger_returns.
Qed.

(** *** C4: the stop loss alone closes nothing *)

(** C4, as the code has it.  With a trade open, the probability-flip
    condition false, at least half a minute left and the market identifier
    unchanged (no rollover), the tick returns the state it was given: the
    trade stays OPEN and the ledger is untouched, whatever the
    mark-to-market loss is. *)
Theorem stop_loss_alone_keeps_open (cfg : config) (e : env) (sg : signals) (n : nat)
  (st : tstate) (t : trade) :
  openTrade st = Some t ->
  opposingMoreLikely cfg sg t = false ->
  JsNum.lt (timeLeftMin sg) 0.5 = false ->
  rolledOver sg t = false ->
  processSignals cfg e sg n st = Returned st.
Proof.
  intros Hopen Hflip Htime Hroll. unfold processSignals.
  destruct (negb (enabled cfg)); [reflexivity |].
  destruct (_ && _ && _); [reflexivity |].
  destruct (resolve_side cfg sg) as [[sd |] inferred]; [| reflexivity].
  destruct (Js.is_null _); [reflexivity |].
  rewrite Hopen. simpl. rewrite !andb_false_r. simpl.
  unfold exit_block. rewrite Hroll.
  unfold exit_decision. rewrite Hflip. simpl.
  rewrite andb_false_r. simpl. rewrite Htime. reflexivity.
Qed.

(** *** What closing a trade records *)

Lemma merge_closed_fields (e : env) (t old : trade) (px : float) (reason : string) :
  let r := merge old (closed e t (JNum px) reason) in
  t_status r = Some CLOSED
  /\ t_exitReason r = Some reason
  /\ t_exitPrice r = JNum px
  /\ t_pnl r = JNum (JsNum.toFixed2 (shares_of t * px - Js.to_number (t_contractSize t))).
Proof. repeat split. Qed.

Lemma merge_id (old patch : trade) :
  t_id old = t_id patch -> t_id (merge old patch) = t_id patch.
Proof. intros H. simpl. rewrite H. destruct (t_id patch); reflexivity. Qed.

Lemma findIndex_Some (tradeId : option string) (ts : list trade) (i : nat) (x : trade) :
  Ledger.findIndex tradeId ts = Some (i, x) ->
  ts !! i = Some x /\ t_id x = tradeId
  /\ (forall j y, ts !! j = Some y -> j < i -> t_id y <> tradeId).
Proof. unfold Ledger.findIndex. intros H. apply list_find_Some in H. exact H. Qed.

(** Writing through the shared object at the index the update is about to
    find leaves that index the first one under the identifier. *)
Lemma findIndex_insert_same (tradeId : option string) (ts : list trade) (i : nat)
  (old c : trade) :
  Ledger.findIndex tradeId ts = Some (i, old) ->
  t_id c = tradeId ->
  Ledger.findIndex tradeId (<[i := c]> ts) = Some (i, c).
Proof.
  intros Hf Hc. apply findIndex_Some in Hf as (Hi & Hid & Hmin).
  unfold Ledger.findIndex. apply list_find_Some. repeat split.
  - apply list_lookup_insert_eq. eapply lookup_lt_Some. exact Hi.
  - exact Hc.
  - intros j y Hj Hlt. rewrite list_lookup_insert_ne in Hj by lia.
    eapply Hmin; eassumption.
Qed.

Lemma close_records (e : env) (t : trade) (px : float) (reason : string)
  (st : tstate) (i : nat) :
  recorded_at st t i ->
  length (trades (ledger_after_close e t (JNum px) reason st)) = length (ledger_trades st)
  /\ exists r,
       trades (ledger_after_close e t (JNum px) reason st) !! i = Some r
       /\ t_status r = Some CLOSED
       /\ t_exitReason r = Some reason
       /\ t_exitPrice r = JNum px
       /\ t_pnl r = JNum (JsNum.toFixed2 (shares_of t * px - Js.to_number (t_contractSize t))).
Proof.
  intros (Hopen & (old & Hfind) & Hshared).
  unfold ledger_after_close, ledger_trades in *.
  set (c := closed e t (JNum px) reason).
  assert (Hlt : i < length (trades (Ledger.current (ledgerStore st)))).
  { apply findIndex_Some in Hfind as (Hi & _). eapply lookup_lt_Some. exact Hi. }
  assert (Hplain :
    let l' := Ledger.patch_trade (t_id t) c (Ledger.current (ledgerStore st)) in
    length (trades l') = length (trades (Ledger.current (ledgerStore st)))
    /\ trades l' !! i = Some (merge old c)).
  { unfold Ledger.patch_trade. rewrite Hfind. simpl. split.
    - apply length_insert.
    - apply list_lookup_insert_eq. exact Hlt. }
  assert (Hfields := merge_closed_fields e t old px reason).
  destruct Hshared as [Hs | Hs]; rewrite Hs; simpl.
  - destruct Hplain as [Hlen Hi]. split; [exact Hlen |].
    exists (merge old c). split; [exact Hi | exact Hfields].
  - unfold write_shared, Ledger.current in *.
    destruct (currentLedger (ledgerStore st)) as [l |] eqn:Hcache.
    + simpl. unfold Ledger.patch_trade. simpl.
      rewrite (findIndex_insert_same (t_id t) (trades l) i old c Hfind eq_refl). simpl.
      rewrite !length_insert. split; [reflexivity |].
      exists (merge c c). split.
      * apply list_lookup_insert_eq. rewrite length_insert. exact Hlt.
      * apply (merge_closed_fields e t c px reason).
    + rewrite Hcache. destruct Hplain as [Hlen Hi]. split; [exact Hlen |].
      exists (merge old c). split; [exact Hi | exact Hfields].
Qed.

(** *** C3: rollover *)

(** C3, as the code has it.  With a trade open whose market slug is set and
    differs from the tick's, on a tick that has a side (recommended, or
    inferred in loose mode) with a price: when the held side has a current
    price, the trade is closed at that price with reason "Market Rollover",
    the trader is FLAT and the ledger has as many trades as before (nothing
    is reopened in the tick); when the held side has no price, the tick
    ends with the state unchanged.  The model probabilities play no part. *)
Theorem rollover_closes (cfg : config) (e : env) (sg : signals) (n : nat)
  (st : tstate) (t : trade) (sd : side) (inferred : bool) :
  enabled cfg = true ->
  openTrade st = Some t ->
  rolledOver sg t = true ->
  resolve_side cfg sg = (Some sd, inferred) ->
  Js.is_null (price_of sg (Some sd)) = false ->
  (price_of sg (t_side t) = JNull -> processSignals cfg e sg n st = Returned st)
  /\ (forall px i,
        price_of sg (t_side t) = JNum px ->
        recorded_at st t i ->
        exists st' r,
          processSignals cfg e sg n st = Returned st'
          /\ openTrade st' = None
          /\ length (ledger_trades st') = length (ledger_trades st)
          /\ ledger_trades st' !! i = Some r
          /\ t_status r = Some CLOSED
          /\ t_exitReason r = Some "Market Rollover"
          /\ t_exitPrice r = JNum px
          /\ t_pnl r = JNum (JsNum.toFixed2
                               (shares_of t * px - Js.to_number (t_contractSize t)))).
Proof.
  intros Hen Hopen Hroll Hside Hpx.
  rewrite (processSignals_open cfg e sg n st t sd inferred Hen Hopen Hside Hpx).
  unfold exit_block. rewrite Hroll. split.
  - intros ->. reflexivity.
  - intros px i -> Hrec. simpl. rewrite closeTrade_returns.
    destruct (close_records e t px "Market Rollover" st i Hrec) as (Hlen & r & Hr & Hfields).
    eexists. exists r. split; [reflexivity |]. split; [reflexivity |].
    split; [exact Hlen |]. split; [exact Hr | exact Hfields].
Qed.

(** *** C5: the probability-flip exit *)

Lemma ledger_trades_with_store (st : tstate) (s : store) :
  ledger_trades (with_store st (Ledger.ensure_loaded s)) = trades (Ledger.current s).
Proof. unfold ledger_trades. simpl. rewrite LedgerFacts.current_ensure_loaded. reflexivity. Qed.

(** The flip entry always returns; it appends at most one trade, so every
    recorded trade keeps its index, and the trader's open trade is either
    unchanged or the new "Flip" trade. *)
Lemma flip_entry_returns (cfg : config) (e : env) (sg : signals) (t : trade) (st : tstate) :
  exists st',
    flip_entry cfg e sg t st = Returned st'
    /\ (forall i r, ledger_trades st !! i = Some r -> ledger_trades st' !! i = Some r)
    /\ (openTrade st' = openTrade st
        \/ exists f, openTrade st' = Some f /\ t_entryReason f = Some "Flip").
Proof.
  unfold flip_entry.
  destruct (_ && _ && _); [| exists st; repeat split; auto].
  rewrite computeContractSizeUsd_eq.
  destruct (noSize _).
  { eexists. split; [reflexivity |]. split; [| left; reflexivity].
    intros i r Hi. rewrite ledger_trades_with_store. exact Hi. }
  destruct (flip_shares_for _ _) as [shares |].
  2:{ eexists. split; [reflexivity |]. split; [| left; reflexivity].
      intros i r Hi. rewrite ledger_trades_with_store. exact Hi. }
  rewrite addTrade_returns. unfold mbind, outcome_bind, obind.
  rewrite getBalanceSnapshot_eq.
  eexists. split; [reflexivity |]. split.
  - intros i r Hi. unfold ledger_trades in *. simpl.
    rewrite LedgerFacts.current_ensure_loaded.
    destruct (Ledger.refused _).
    + rewrite LedgerFacts.current_ensure_loaded. exact Hi.
    + simpl. rewrite LedgerFacts.current_ensure_loaded.
      apply lookup_app_l_Some. exact Hi.
  - right. eexists. split; reflexivity.
Qed.

(** C5, as the code has it.  With a trade open on [held], when the
    opposing side's model probability is at least [exitFlipMinProb] and at
    least the held side's plus [exitFlipMargin], on a tick without rollover
    that has a side with a price and a quote [px] for the held side, the
    trade is closed: its ledger record has status CLOSED, reason
    "Probability Flip", exit price [px] and
    pnl [Number((shares * px - notional).toFixed(2))], the profit rounded to
    cents.  The trader ends FLAT, or holding the new "Flip" trade. *)
Theorem probability_flip_closes (cfg : config) (e : env) (sg : signals) (n : nat)
  (st : tstate) (t : trade) (i : nat) (held : side) (up down : float)
  (sd : side) (inferred : bool) (px : float) :
  enabled cfg = true ->
  recorded_at st t i ->
  t_side t = Some held ->
  modelUp sg = JNum up ->
  modelDown sg = JNum down ->
  let opposing := match held with UP => down | DOWN => up end in
  let own := match held with UP => up | DOWN => down end in
  JsNum.ge opposing (Js.opt_or (exitFlipMinProb cfg) 0.55) = true ->
  JsNum.ge opposing (own + Js.opt_or (exitFlipMargin cfg) 0.03) = true ->
  rolledOver sg t = false ->
  resolve_side cfg sg = (Some sd, inferred) ->
  Js.is_null (price_of sg (Some sd)) = false ->
  price_of sg (Some held) = JNum px ->
  exists st' r,
    processSignals cfg e sg n st = Returned st'
    /\ ledger_trades st' !! i = Some r
    /\ t_status r = Some CLOSED
    /\ t_exitReason r = Some "Probability Flip"
    /\ t_exitPrice r = JNum px
    /\ t_pnl r = JNum (JsNum.toFixed2 (shares_of t * px - Js.to_number (t_contractSize t)))
    /\ (openTrade st' = None
        \/ exists f, openTrade st' = Some f /\ t_entryReason f = Some "Flip").
Proof.
  intros Hen Hrec Hheld Hup Hdown opposing own Hmin Hmargin Hroll Hside Hsdpx Hpx.
  assert (Hopen : openTrade st = Some t) by apply Hrec.
  rewrite (processSignals_open cfg e sg n st t sd inferred Hen Hopen Hside Hsdpx).
  assert (Hopp : opposingMoreLikely cfg sg t = true).
  { unfold opposingMoreLikely. rewrite Hup, Hdown, Hheld.
    subst opposing own. destruct held; rewrite Hmin, Hmargin; reflexivity. }
  unfold exit_block, exit_decision. rewrite Hroll, Hopp, Hheld, Hpx. simpl.
  rewrite closeTrade_returns.
  destruct (close_records e t px "Probability Flip" st i Hrec) as (Hlen & r & Hr & Hfields).
  match goal with
  | |- context [if ?b then true else false] => destruct b
  end; simpl.
  - match goal with
    | |- context [flip_entry cfg e sg t ?st1] =>
        destruct (flip_entry_returns cfg e sg t st1) as (st' & Hret & Hkeep & Hot)
    end.
    exists st', r. split; [exact Hret |]. split; [apply Hkeep; exact Hr |].
    destruct Hfields as (H1 & H2 & H3 & H4). repeat (split; [assumption |]).
    destruct Hot as [Hot | Hot]; [left; rewrite Hot; reflexivity | right; exact Hot].
  - eexists. exists r. split; [reflexivity |]. split; [exact Hr |].
    destruct Hfields as (H1 & H2 & H3 & H4). repeat (split; [assumption |]).
    left. reflexivity.
Qed.

(** *** The scenarios, run *)

Lemma stop_loss_alone_keeps_open_witness :
  stopLossHit Scenarios.cfg_default Scenarios.signals_loss
    (Scenarios.trade_up Scenarios.id_a OPEN) = true
  /\ processSignals Scenarios.cfg_default Scenarios.env_ok Scenarios.signals_loss 30
       (Scenarios.holding (Scenarios.trade_up Scenarios.id_a OPEN))
     = Returned (Scenarios.holding (Scenarios.trade_up Scenarios.id_a OPEN)).
Proof.
  split; [reflexivity |].
  apply (stop_loss_alone_keeps_open _ _ _ _ _ (Scenarios.trade_up Scenarios.id_a OPEN));
    reflexivity.
Defined.

(** C4 as stated fails: the loss tick of the next market closes the trade
    although the flip condition is false and ten minutes are left. *)
Lemma rollover_closes_without_flip :
  opposingMoreLikely Scenarios.cfg_default Scenarios.signals_loss_rolled
    (Scenarios.trade_up Scenarios.id_a OPEN) = false
  /\ JsNum.lt (timeLeftMin Scenarios.signals_loss_rolled) 0.5 = false
  /\ exists st',
       processSignals Scenarios.cfg_default Scenarios.env_ok Scenarios.signals_loss_rolled 30
         (Scenarios.holding (Scenarios.trade_up Scenarios.id_a OPEN)) = Returned st'
       /\ openTrade st' = None
       /\ (fun r => (t_status r, t_exitReason r)) <$> ledger_trades st'
          = [(Some CLOSED, Some "Market Rollover")].
Proof.
  split; [reflexivity |]. split; [reflexivity |].
  eexists. split; [reflexivity |]. split; reflexivity.
Qed.

Lemma holding_recorded (t : trade) : recorded_at (Scenarios.holding t) t 0.
Proof.
  split; [reflexivity |]. split; [| left; reflexivity].
  exists t. unfold Ledger.findIndex, ledger_trades. simpl.
  rewrite decide_True by reflexivity. reflexivity.
Qed.

Lemma rollover_closes_witness :
  exists st' r,
    processSignals Scenarios.cfg_default Scenarios.env_ok Scenarios.signals_c 30
      (Scenarios.holding (Scenarios.trade_up Scenarios.id_a OPEN)) = Returned st'
    /\ openTrade st' = None
    /\ length (ledger_trades st') = 1%nat
    /\ ledger_trades st' !! 0%nat = Some r
    /\ t_status r = Some CLOSED
    /\ t_exitReason r = Some "Market Rollover"
    /\ t_exitPrice r = JNum 0.30
    /\ t_pnl r = JNum 50.
Proof.
  exact (proj2 (rollover_closes Scenarios.cfg_default Scenarios.env_ok Scenarios.signals_c 30
                  (Scenarios.holding (Scenarios.trade_up Scenarios.id_a OPEN))
                  (Scenarios.trade_up Scenarios.id_a OPEN) UP false
                  eq_refl eq_refl eq_refl eq_refl eq_refl)
               0.30 0%nat eq_refl
               (holding_recorded (Scenarios.trade_up Scenarios.id_a OPEN))).
Defined.

(** C3 as stated fails: on the next market's tick without a quote for the
    held side the trade is not closed. *)
Lemma rollover_without_quote_stays_open :
  rolledOver Scenarios.signals_c_no_quote (Scenarios.trade_up Scenarios.id_a OPEN) = true
  /\ processSignals Scenarios.cfg_default Scenarios.env_ok Scenarios.signals_c_no_quote 30
       (Scenarios.holding (Scenarios.trade_up Scenarios.id_a OPEN))
     = Returned (Scenarios.holding (Scenarios.trade_up Scenarios.id_a OPEN))
  /\ is_open (Scenarios.trade_up Scenarios.id_a OPEN) = true.
Proof. repeat split. Qed.

Lemma probability_flip_closes_witness :
  exists st' r,
    processSignals (Scenarios.cfg_with "loose" 0.55) Scenarios.env_ok Scenarios.signals_b 30
      (Scenarios.holding (Scenarios.trade_up Scenarios.id_a OPEN)) = Returned st'
    /\ ledger_trades st' !! 0%nat = Some r
    /\ t_status r = Some CLOSED
    /\ t_exitReason r = Some "Probability Flip"
    /\ t_exitPrice r = JNum 0.15
    /\ t_pnl r = JNum (-25)
    /\ (openTrade st' = None
        \/ exists f, openTrade st' = Some f /\ t_entryReason f = Some "Flip").
Proof.
  exact (probability_flip_closes (Scenarios.cfg_with "loose" 0.55) Scenarios.env_ok
           Scenarios.signals_b 30
           (Scenarios.holding (Scenarios.trade_up Scenarios.id_a OPEN))
           (Scenarios.trade_up Scenarios.id_a OPEN) 0 UP 0.40 0.65 DOWN false 0.15
           eq_refl (holding_recorded _) eq_refl eq_refl eq_refl eq_refl eq_refl
           eq_refl eq_refl eq_refl eq_refl).
Defined.

(** C5 as stated fails: the recorded pnl is not [shares * exitPrice -
    notional] but that amount rounded to cents. *)
Lemma flip_pnl_is_rounded :
  exists st' r,
    processSignals Scenarios.cfg_default Scenarios.env_ok Scenarios.signals_flip_half 30
      (Scenarios.holding Scenarios.trade_thirds) = Returned st'
    /\ ledger_trades st' !! 0%nat = Some r
    /\ t_exitReason r = Some "Probability Flip"
    /\ t_pnl r = JNum 66.67
    /\ shares_of Scenarios.trade_thirds * 0.5
       - Js.to_number (t_contractSize Scenarios.trade_thirds) = 66.666666666666686
    /\ JsNum.seq 66.67 66.666666666666686 = false.
Proof.
  eexists. eexists. split; [vm_compute; reflexivity |]. repeat split.
Qed.

(** C7, on the code: six seconds before the end, with UP held and quoted
    but no quote for the recommended DOWN, the tick returns before the exit
    rules, and the trade stays OPEN (in the earlier revision too); with a
    recommendation that names UP, the same quotes close it ("End of
    Candle"). *)
Lemma missing_rec_price_blocks_exit :
  JsNum.lt (timeLeftMin Scenarios.signals_end_no_down_quote) 0.5 = true
  /\ price_of Scenarios.signals_end_no_down_quote (Some UP) = JNum 0.5
  /\ processSignals Scenarios.cfg_default Scenarios.env_ok
       Scenarios.signals_end_no_down_quote 30
       (Scenarios.holding (Scenarios.trade_up Scenarios.id_a OPEN))
     = Returned (Scenarios.holding (Scenarios.trade_up Scenarios.id_a OPEN))
  /\ LegacyTrader.processSignals Scenarios.cfg_default Scenarios.env_ok
       Scenarios.signals_end_no_down_quote 30
       (Scenarios.holding (Scenarios.trade_up Scenarios.id_a OPEN))
     = Returned (Scenarios.holding (Scenarios.trade_up Scenarios.id_a OPEN))
  /\ exists st',
       processSignals Scenarios.cfg_default Scenarios.env_ok Scenarios.signals_end 30
         (Scenarios.holding (Scenarios.trade_up Scenarios.id_a OPEN)) = Returned st'
       /\ openTrade st' = None
       /\ (fun r => (t_status r, t_exitReason r)) <$> ledger_trades st'
          = [(Some CLOSED, Some "End of Candle")].
Proof.
  repeat split. eexists. repeat split.
Qed.

(** *** C2: entries in loose mode *)

(** The tests an entry has passed make the ledger accept the trade. *)
Lemma entry_trade_accepted (cfg : config) (e : env) (slug : string) (sd : side)
  (px shares size : float) (ph : option phase) (inferred : bool) :
  priceOutOfBounds cfg (JNum px) = false ->
  shares_for size (JNum px) = Some shares ->
  Ledger.refused (entry_trade e slug sd (JNum px) shares size ph inferred) = false.
Proof.
  unfold priceOutOfBounds, shares_for, Ledger.refused, Ledger.badEp, Ledger.badSh. simpl.
  intros Hb Hs.
  destruct (JsNum.isFinite px); [| discriminate]. simpl.
  destruct (JsNum.gt px 0) eqn:Hgt; [| discriminate].
  destruct (negb (JsNum.isFinite (size / px)) || JsNum.le (size / px) 0) eqn:Hsh;
    [discriminate |].
  injection Hs as <-. rewrite Hsh.
  unfold JsNum.le. rewrite (FloatFacts.lt0_not_le0 px Hgt). reflexivity.
Qed.

Lemma newTrade_entry_trade (e : env) (slug : string) (sd : side) (px : jsval)
  (shares size : float) (ph : option phase) (inferred : bool) :
  Ledger.newTrade e (entry_trade e slug sd px shares size ph inferred)
  = entry_trade e slug sd px shares size ph inferred.
Proof. reflexivity. Qed.

(** C2.  In loose mode, with no trade open and every other entry gate
    passed (warm-up, populated indicators, time, liquidity and spread,
    volume, price bounds, a positive size and share count) and the phase's
    probability and edge thresholds met, the tick opens a trade on the
    resolved side and appends it to the ledger, whatever the
    recommendation's action is.  When the recommendation names no side, the
    side is the one with the larger model probability (UP on a tie) and the
    trade carries [sideInferred = true]. *)
Theorem loose_gating_enters (cfg : config) (e : env) (sg : signals) (n : nat)
  (st : tstate) (r : recommendation) (sd : side) (inferred : bool)
  (px shares : float) :
  enabled cfg = true ->
  strictRec cfg = false ->
  openTrade st = None ->
  sig_rec sg = Some r ->
  resolve_side cfg sg = (Some sd, inferred) ->
  price_of sg (Some sd) = JNum px ->
  canEnter cfg n = true ->
  indicatorsPopulated sg = true ->
  isTooLateToEnter cfg sg = false ->
  isLowLiquidity cfg sg = false ->
  isLowVolume cfg sg = false ->
  meetsThresholds cfg sg r sd = true ->
  priceOutOfBounds cfg (JNum px) = false ->
  noSize (size_of_balance cfg (balance_of cfg (Ledger.current (ledgerStore st)))) = false ->
  shares_for (size_of_balance cfg (balance_of cfg (Ledger.current (ledgerStore st))))
    (JNum px) = Some shares ->
  exists st' opened,
    processSignals cfg e sg n st = Returned st'
    /\ openTrade st' = Some opened
    /\ ledger_trades st' = (ledger_trades st ++ [opened])%list
    /\ t_status opened = Some OPEN
    /\ t_side opened = Some sd
    /\ t_shares opened = JNum shares
    /\ t_sideInferred opened = Some inferred
    /\ (rec_side r = None ->
        inferred = true
        /\ forall u d, modelUp sg = JNum u -> modelDown sg = JNum d ->
                       sd = if JsNum.ge u d then UP else DOWN).
Proof.
  intros Hen Hloose Hflat Hrec Hside Hpx Hwarm Hind Hlate Hliq Hvol Hmeets Hbounds
    Hsize Hshares.
  unfold processSignals, wantsEnter.
  rewrite Hen, Hflat, Hloose, Hside, Hpx, Hwarm, Hind, Hlate, Hliq, Hvol. simpl.
  rewrite orb_true_r. simpl.
  unfold entry_block. rewrite Hrec, Hmeets, Hbounds, computeContractSizeUsd_eq, Hsize, Hshares.
  rewrite addTrade_returns, (entry_trade_accepted cfg _ _ _ _ _ _ _ _ Hbounds Hshares).
  unfold mbind, outcome_bind, obind. rewrite getBalanceSnapshot_eq.
  eexists. eexists. split; [reflexivity |]. split; [reflexivity |].
  split.
  { unfold ledger_trades. simpl.
    rewrite !LedgerFacts.current_ensure_loaded. reflexivity. }
  repeat (split; [reflexivity |]).
  intros Hnone. unfold resolve_side in Hside. rewrite Hrec, Hnone, Hloose in Hside.
  simpl in Hside.
  destruct (modelUp sg) as [| | u']; try discriminate.
  destruct (modelDown sg) as [| | d']; try discriminate.
  injection Hside as Hsd <-. split; [reflexivity |].
  intros u d [= ->] [= ->]. symmetry. exact Hsd.
Qed.

(** Scenario D, the test of [src/test/trader-entry.test.js]. *)
Lemma loose_gating_enters_witness :
  exists st' opened,
    processSignals Scenarios.cfg_test Scenarios.env_ok Scenarios.signals_test 1
      (fresh_trader Scenarios.store_empty) = Returned st'
    /\ openTrade st' = Some opened
    /\ ledger_trades st' = (ledger_trades (fresh_trader Scenarios.store_empty) ++ [opened])%list
    /\ t_status opened = Some OPEN
    /\ t_side opened = Some UP
    /\ t_shares opened = JNum 10000
    /\ t_sideInferred opened = Some true
    /\ (rec_side {| rec_action := Some "NO_TRADE"; rec_side := None;
                    rec_phase := Some EARLY; rec_edge := JNum 0.2 |} = None ->
        true = true
        /\ forall u d, modelUp Scenarios.signals_test = JNum u ->
                       modelDown Scenarios.signals_test = JNum d ->
                       UP = if JsNum.ge u d then UP else DOWN).
Proof.
  exact (loose_gating_enters Scenarios.cfg_test Scenarios.env_ok Scenarios.signals_test 1
           (fresh_trader Scenarios.store_empty) _ UP true 0.01 10000
           eq_refl eq_refl eq_refl eq_refl eq_refl eq_refl eq_refl eq_refl eq_refl
           eq_refl eq_refl eq_refl eq_refl eq_refl eq_refl).
Defined.

(** *** C1: position sizing *)

(** With a positive finite [stakePct], a size that is not refused is the
    capped stake, rounded down to cents. *)
Lemma size_of_balance_dynamic (cfg : config) (p balance : float) :
  stakePct cfg = JNum p ->
  JsNum.isFinite p = true ->
  JsNum.gt p 0 = true ->
  noSize (size_of_balance cfg balance) = false ->
  size_of_balance cfg balance
  = Spec.floor_cents
      (Spec.capped_stake balance p (Js.opt_or (minTradeUsd cfg) 0)
         (Js.opt_or (maxTradeUsd cfg) infinity)).
Proof.
  intros Hp Hfin Hpos. unfold size_of_balance.
  destruct (negb (JsNum.isFinite balance) || JsNum.le balance 0).
  - intros H. discriminate H.
  - intros _. rewrite Hp. simpl. rewrite Hfin, Hpos. reflexivity.
Qed.

(** What the entry block has done when it changed the open trade. *)
Lemma entry_block_opened (cfg : config) (e : env) (sg : signals) (sd : side)
  (inferred : bool) (px : jsval) (st st' : tstate) :
  entry_block cfg e sg sd inferred px st = Returned st' ->
  openTrade st' <> openTrade st ->
  exists r ep shares,
    sig_rec sg = Some r
    /\ px = JNum ep
    /\ noSize (size_of_balance cfg (balance_of cfg (Ledger.current (ledgerStore st)))) = false
    /\ shares = size_of_balance cfg (balance_of cfg (Ledger.current (ledgerStore st))) / ep
    /\ openTrade st'
       = Some (entry_trade e (marketSlug_of sg) sd px shares
                 (size_of_balance cfg (balance_of cfg (Ledger.current (ledgerStore st))))
                 (rec_phase r) inferred).
Proof.
  unfold entry_block. destruct (sig_rec sg) as [r |]; [| discriminate].
  destruct (meetsThresholds cfg sg r sd); [| intros [= <-] H; congruence].
  destruct (priceOutOfBounds cfg px) eqn:Hb; [intros [= <-] H; congruence |].
  rewrite computeContractSizeUsd_eq.
  destruct (noSize _) eqn:Hsize; [intros [= <-] H; simpl in H; congruence |].
  destruct (shares_for _ px) as [shares |] eqn:Hsh; [| intros [= <-] H; simpl in H; congruence].
  rewrite addTrade_returns. unfold mbind, outcome_bind, obind.
  rewrite getBalanceSnapshot_eq. intros [= <-] _. simpl.
  destruct px as [| | ep]; try discriminate Hb.
  exists r, ep, shares. repeat split; try assumption.
  unfold shares_for in Hsh. simpl in Hsh.
  destruct (JsNum.gt ep 0); [| discriminate].
  destruct (negb _ || _); [discriminate |]. injection Hsh as <-. reflexivity.
Qed.

(** What the flip entry has done when it changed the open trade. *)
Lemma flip_entry_opened (cfg : config) (e : env) (sg : signals) (t0 : trade)
  (st st' : tstate) :
  flip_entry cfg e sg t0 st = Returned st' ->
  openTrade st' <> openTrade st ->
  exists newSide ep shares ph,
    noSize (size_of_balance cfg (balance_of cfg (Ledger.current (ledgerStore st)))) = false
    /\ shares = size_of_balance cfg (balance_of cfg (Ledger.current (ledgerStore st))) / ep
    /\ openTrade st'
       = Some (flip_trade e (marketSlug_of sg) newSide (JNum ep) shares
                 (size_of_balance cfg (balance_of cfg (Ledger.current (ledgerStore st)))) ph).
Proof.
  unfold flip_entry.
  set (newSide := if bool_decide (t_side t0 = Some UP) then DOWN else UP).
  destruct (_ && _ && _) eqn:Hcond; [| intros [= <-] H; congruence].
  apply andb_prop in Hcond as [Hcond _]. apply andb_prop in Hcond as [Hb _].
  rewrite computeContractSizeUsd_eq.
  destruct (noSize _) eqn:Hsize; [intros [= <-] H; simpl in H; congruence |].
  destruct (flip_shares_for _ _) as [shares |] eqn:Hsh;
    [| intros [= <-] H; simpl in H; congruence].
  rewrite addTrade_returns. unfold mbind, outcome_bind, obind.
  rewrite getBalanceSnapshot_eq. intros [= <-] _. simpl.
  destruct (price_of sg (Some newSide)) as [| | ep]; try discriminate Hb.
  exists newSide, ep, shares. eexists. repeat split; try assumption.
  unfold flip_shares_for in Hsh. simpl in Hsh.
  destruct (JsNum.gt ep 0); [| discriminate].
  destruct (_ && _); [| discriminate]. injection Hsh as <-. reflexivity.
Qed.

(** The summary that [addTrade] and [updateTrade] store is recomputed from
    the trades, and then the realized PnL is the sum of [pnl] over the
    CLOSED trades: an OPEN trade contributes nothing. *)
Lemma realized_of_recalculated (l : ledger) :
  ledger_summary l = Some (Ledger.recalculateSummary (trades l))
  \/ ledger_summary l = None ->
  realized_of l = Ledger.sum_pnl (trades l).
Proof. intros [H | H]; unfold realized_of; rewrite H; reflexivity. Qed.

(** A tick that may flip closes with the reason "Probability Flip". *)
Lemma exit_decision_flip (cfg : config) (e : env) (sg : signals) (n : nat)
  (st : tstate) (t : trade) (shouldExit : bool) (exitReason : string) :
  exit_decision cfg e sg n st t = (shouldExit, exitReason, true) ->
  exitReason = "Probability Flip".
Proof.
  unfold exit_decision.
  destruct (opposingMoreLikely cfg sg t); simpl.
  - destruct (_ && _ && _ && _); intros H; injection H as _ <-; reflexivity.
  - rewrite andb_false_r. simpl.
    destruct (JsNum.lt (timeLeftMin sg) 0.5); intros H; discriminate H.
Qed.

(** C1, as the code has it.  Every trade a tick opens, by an entry from
    FLAT or by a flip right after a close, has (with [stakePct] a positive
    finite number) the notional
    [floor(min(clamp(balance * stakePct, minTradeUsd, maxTradeUsd), balance) * 100) / 100],
    the capped stake rounded down to cents, and the shares
    [notional / entryPrice].  The [balance] is the starting balance plus the
    realized PnL of the ledger at that moment: for an entry from FLAT, the
    ledger the tick started with; for a flip, the ledger after the tick has
    closed the held trade at the quote of its side with reason
    "Probability Flip", so that the PnL of that very close is counted. *)
Theorem entry_notional_and_shares (cfg : config) (e : env) (sg : signals) (n : nat)
  (st st' : tstate) (t : trade) (p : float) :
  stakePct cfg = JNum p ->
  JsNum.isFinite p = true ->
  JsNum.gt p 0 = true ->
  processSignals cfg e sg n st = Returned st' ->
  openTrade st' = Some t ->
  openTrade st' <> openTrade st ->
  exists (before : tstate) (ep : float),
    match openTrade st with
    | None => before = st
    | Some held =>
        closeTrade e held (price_of sg (t_side held)) "Probability Flip" st
        = Returned before
    end
    /\ let balance := Js.opt_or (startingBalance cfg) 1000
                      + realized_of (Ledger.current (ledgerStore before)) in
       let notional :=
         Spec.floor_cents
           (Spec.capped_stake balance p (Js.opt_or (minTradeUsd cfg) 0)
              (Js.opt_or (maxTradeUsd cfg) infinity)) in
       t_contractSize t = JNum notional
       /\ t_entryPrice t = JNum ep
       /\ t_shares t = JNum (notional / ep)
       /\ t_status t = Some OPEN.
Proof.
  intros Hp Hfin Hpos Hrun Hnew Hchanged.
  unfold processSignals in Hrun.
  destruct (negb (enabled cfg)); [returned Hrun; congruence |].
  destruct (_ && _ && _); [returned Hrun; congruence |].
  destruct (resolve_side cfg sg) as [[sd |] inferred]; [| returned Hrun; congruence].
  destruct (Js.is_null _); [returned Hrun; congruence |].
  destruct (_ && _) eqn:Hgate.
  - (* entry from FLAT *)
    assert (Hflat : openTrade st = None).
    { destruct (openTrade st) eqn:Ho; [| reflexivity].
      rewrite !andb_true_iff in Hgate.
      destruct Hgate as [[[[[_ Hn] _] _] _] _]. discriminate Hn. }
    destruct (entry_block_opened _ _ _ _ _ _ _ _ Hrun Hchanged)
      as (r & ep & shares & Hrec & Hpx & Hsize & Hshares & Hopened).
    exists st, ep. rewrite Hflat. split; [reflexivity |].
    rewrite Hnew in Hopened. injection Hopened as ->.
    pose proof (size_of_balance_dynamic cfg p _ Hp Hfin Hpos Hsize) as Hdyn.
    simpl in Hpx. subst shares. cbv zeta.
    cbn [entry_trade t_contractSize t_entryPrice t_shares t_status].
    split; [exact (f_equal JNum Hdyn) |]. split; [exact Hpx |].
    split; [exact (f_equal (fun x => JVal (JNum (x / ep))) Hdyn) | reflexivity].
  - clear Hgate.
    destruct (openTrade st) as [t0 |] eqn:Hopen;
      [| unfold mret, outcome_ret in Hrun; injection Hrun as <-; congruence].
    unfold exit_block in Hrun.
    destruct (rolledOver sg t0).
    { destruct (negb (Js.is_null (price_of sg (t_side t0)))).
      - rewrite closeTrade_returns in Hrun. returned Hrun. discriminate Hnew.
      - returned Hrun. congruence. }
    destruct (exit_decision cfg e sg n st t0) as [[shouldExit exitReason] shouldFlip]
      eqn:Hdecision.
    destruct shouldExit; [| returned Hrun; congruence].
    destruct (negb (Js.is_null (price_of sg (t_side t0)))); [| returned Hrun; congruence].
    pose proof (closeTrade_returns e t0 (price_of sg (t_side t0)) exitReason st) as Hclose.
    rewrite Hclose in Hrun. unfold mbind, outcome_bind, obind in Hrun.
    destruct shouldFlip; [| returned Hrun; discriminate Hnew].
    pose proof (exit_decision_flip _ _ _ _ _ _ _ _ Hdecision) as ->.
    match type of Hrun with
    | flip_entry cfg e sg t0 ?st1 = _ =>
        assert (Hch : openTrade st' <> openTrade st1) by (rewrite Hnew; discriminate);
        destruct (flip_entry_opened _ _ _ _ _ _ Hrun Hch)
          as (newSide & ep & shares & ph & Hsize & Hshares & Hopened);
        exists st1, ep
    end.
    split; [exact Hclose |].
    rewrite Hnew in Hopened. injection Hopened as ->.
    pose proof (size_of_balance_dynamic cfg p _ Hp Hfin Hpos Hsize) as Hdyn.
    subst shares. cbv zeta.
    cbn [flip_trade t_contractSize t_entryPrice t_shares t_status].
    split; [exact (f_equal JNum Hdyn) |]. split; [reflexivity |].
    split; [exact (f_equal (fun x => JVal (JNum (x / ep))) Hdyn) | reflexivity].
Qed.

(** Scenario A: balance $1000, stake 10 percent, entry at 0.20 from FLAT:
    $100 buy 500 shares.  Then scenario B's tick flips: the 500 shares are
    sold at 0.15, a realized loss of $25, and the DOWN trade that the same
    tick opens is sized on the balance of $975: $97.50, not $100. *)
Lemma entry_notional_and_shares_witness :
  (processSignals Scenarios.cfg_default Scenarios.env_ok Scenarios.signals_a 30
     (fresh_trader Scenarios.store_empty) = Returned Scenarios.after_a
   /\ balance_of Scenarios.cfg_default (Ledger.current Scenarios.store_empty) = 1000
   /\ t_contractSize Scenarios.opened_a = JNum 100
   /\ t_shares Scenarios.opened_a = JNum 500
   /\ exists (before : tstate) (ep : float),
        before = fresh_trader Scenarios.store_empty
        /\ let balance := Js.opt_or (startingBalance Scenarios.cfg_default) 1000
                          + realized_of (Ledger.current (ledgerStore before)) in
           let notional :=
             Spec.floor_cents
               (Spec.capped_stake balance 0.10
                  (Js.opt_or (minTradeUsd Scenarios.cfg_default) 0)
                  (Js.opt_or (maxTradeUsd Scenarios.cfg_default) infinity)) in
           t_contractSize Scenarios.opened_a = JNum notional
           /\ t_entryPrice Scenarios.opened_a = JNum ep
           /\ t_shares Scenarios.opened_a = JNum (notional / ep)
           /\ t_status Scenarios.opened_a = Some OPEN)
  /\ (processSignals Scenarios.cfg_default Scenarios.env_later Scenarios.signals_b 30
        Scenarios.after_a = Returned Scenarios.after_a_then_b
      /\ openTrade Scenarios.after_a_then_b = Some Scenarios.flipped_b
      /\ realized_of (Ledger.current (ledgerStore Scenarios.after_a)) = 0
      /\ closeTrade Scenarios.env_later Scenarios.opened_a (JNum 0.15) "Probability Flip"
           Scenarios.after_a = Returned Scenarios.closed_a_at_b
      /\ realized_of (Ledger.current (ledgerStore Scenarios.closed_a_at_b)) = -25
      /\ t_contractSize Scenarios.flipped_b = JNum 97.5
      /\ exists (before : tstate) (ep : float),
           closeTrade Scenarios.env_later Scenarios.opened_a (JNum 0.15) "Probability Flip"
             Scenarios.after_a = Returned before
           /\ let balance := Js.opt_or (startingBalance Scenarios.cfg_default) 1000
                             + realized_of (Ledger.current (ledgerStore before)) in
              let notional :=
                Spec.floor_cents
                  (Spec.capped_stake balance 0.10
                     (Js.opt_or (minTradeUsd Scenarios.cfg_default) 0)
                     (Js.opt_or (maxTradeUsd Scenarios.cfg_default) infinity)) in
              t_contractSize Scenarios.flipped_b = JNum notional
              /\ t_entryPrice Scenarios.flipped_b = JNum ep
              /\ t_shares Scenarios.flipped_b = JNum (notional / ep)
              /\ t_status Scenarios.flipped_b = Some OPEN).
Proof.
  split.
  - split; [reflexivity |]. split; [reflexivity |].
    split; [reflexivity |]. split; [reflexivity |].
    apply (entry_notional_and_shares Scenarios.cfg_default Scenarios.env_ok
             Scenarios.signals_a 30 (fresh_trader Scenarios.store_empty)
             Scenarios.after_a Scenarios.opened_a 0.10);
      try reflexivity.
    discriminate.
  - split; [reflexivity |]. split; [reflexivity |]. split; [reflexivity |].
    split; [reflexivity |]. split; [reflexivity |]. split; [reflexivity |].
    apply (entry_notional_and_shares Scenarios.cfg_default Scenarios.env_later
             Scenarios.signals_b 30 Scenarios.after_a
             Scenarios.after_a_then_b Scenarios.flipped_b 0.10);
      try reflexivity.
    discriminate.
Defined.

(** C1 as stated fails: with five cents of realized profit the balance is
    $1000.05 and the capped stake $100.005, but the trade is opened with a
    notional of $100. *)
Lemma entry_notional_is_floored :
  exists st' t,
    processSignals Scenarios.cfg_default Scenarios.env_ok Scenarios.signals_a 30
      Scenarios.flat_with_profit = Returned st'
    /\ openTrade st' = Some t
    /\ t_contractSize t = JNum 100
    /\ balance_of Scenarios.cfg_default
         (Ledger.current (ledgerStore Scenarios.flat_with_profit)) = 1000.05
    /\ Spec.capped_stake 1000.05 0.10 25 250 = 100.005
    /\ JsNum.seq 100 100.005 = false.
Proof.
  eexists. eexists. split; [reflexivity |]. repeat split.
Qed.

End TraderFacts.

(** ** At most one OPEN trade *)

Module InvariantFacts.

Import Trader.
Local Open Scope nat_scope.

(** *** Counting OPEN trades *)

Lemma open_count_cons (x : trade) (l : list trade) :
  Ledger.open_count (x :: l)
  = (if is_open x then 1 else 0) + Ledger.open_count l.
Proof. unfold Ledger.open_count. simpl. destruct (is_open x); reflexivity. Qed.

Lemma open_count_app (l1 l2 : list trade) :
  Ledger.open_count (l1 ++ l2) = Ledger.open_count l1 + Ledger.open_count l2.
Proof.
  unfold Ledger.open_count. rewrite List.filter_app, length_app. reflexivity.
Qed.

Lemma open_count_zero_iff (l : list trade) :
  Ledger.open_count l = 0 <-> (forall x, x ∈ l -> is_open x = false).
Proof.
  induction l as [| a l IH].
  - split; [intros _ x Hx; inversion Hx | reflexivity].
  - rewrite open_count_cons. split.
    + intros H x Hx. destruct (is_open a) eqn:Ha; [discriminate |].
      apply elem_of_cons in Hx as [-> | Hx]; [exact Ha |].
      apply IH; [exact H | exact Hx].
    + intros H. rewrite (H a) by (left). simpl. apply IH.
      intros x Hx. apply H. right. exact Hx.
Qed.

(** With at most one OPEN trade in a list, two OPEN members are the same. *)
Lemma open_unique (l : list trade) (x y : trade) :
  Ledger.open_count l <= 1 ->
  x ∈ l -> y ∈ l -> is_open x = true -> is_open y = true -> x = y.
Proof.
  induction l as [| a l IH]; intros Hle Hx Hy Hox Hoy; [inversion Hx |].
  rewrite open_count_cons in Hle.
  apply elem_of_cons in Hx as [-> | Hx]; apply elem_of_cons in Hy as [-> | Hy].
  - reflexivity.
  - rewrite Hox in Hle.
    assert (H0 : Ledger.open_count l = 0) by lia.
    rewrite (proj1 (open_count_zero_iff l) H0 y Hy) in Hoy. discriminate.
  - rewrite Hoy in Hle.
    assert (H0 : Ledger.open_count l = 0) by lia.
    rewrite (proj1 (open_count_zero_iff l) H0 x Hx) in Hox. discriminate.
  - apply IH; try assumption. lia.
Qed.

(** Distinct identifiers, and every OPEN trade under one identifier: at most
    one trade is OPEN. *)
Lemma open_count_le1 (l : list trade) (a : option string) :
  NoDup (ids l) ->
  (forall x, x ∈ l -> is_open x = true -> t_id x = a) ->
  Ledger.open_count l <= 1.
Proof.
  induction l as [| x l IH]; intros Hnd Hall; [unfold Ledger.open_count; simpl; lia |].
  unfold ids in Hnd. rewrite fmap_cons in Hnd. apply NoDup_cons in Hnd as [Hx Hnd].
  rewrite open_count_cons. destruct (is_open x) eqn:Hox.
  - assert (H0 : Ledger.open_count l = 0).
    { apply open_count_zero_iff. intros y Hy.
      destruct (is_open y) eqn:Hoy; [| reflexivity].
      exfalso. apply Hx.
      rewrite (Hall x (list_elem_of_here _ _) Hox).
      rewrite <- (Hall y (list_elem_of_further _ _ _ Hy) Hoy).
      apply list_elem_of_fmap_2. exact Hy. }
    lia.
  - simpl. apply IH; [exact Hnd |].
    intros y Hy. apply Hall. right. exact Hy.
Qed.

Lemma open_count_json (l : list trade) :
  Ledger.open_count (Ledger.json_trade <$> l) = Ledger.open_count l.
Proof.
  induction l as [| x l IH]; [reflexivity |].
  rewrite fmap_cons, !open_count_cons, IH. reflexivity.
Qed.

(** *** Identifiers under the ledger's two updates *)

Lemma ids_insert_same (l : list trade) (i : nat) (x y : trade) :
  l !! i = Some x -> t_id y = t_id x -> ids (<[i := y]> l) = ids l.
Proof.
  intros Hi Hid. unfold ids. rewrite list_fmap_insert, Hid.
  apply list_insert_id. rewrite list_lookup_fmap, Hi. reflexivity.
Qed.

Lemma elem_of_insert_inv (l : list trade) (i : nat) (c y : trade) :
  y ∈ <[i := c]> l -> y = c \/ y ∈ l.
Proof.
  intros Hy. apply list_elem_of_lookup in Hy as [j Hj].
  apply list_lookup_insert_Some in Hj as [(_ & -> & _) | (_ & Hj)].
  - left. reflexivity.
  - right. apply list_elem_of_lookup. exists j. exact Hj.
Qed.

(** *** Closing the one OPEN trade *)

(** A closing patch under the identifier that every OPEN trade carries
    leaves the identifiers as they were and no trade OPEN. *)
Lemma patch_closes_all (l : ledger) (tradeId : option string) (c : trade) :
  NoDup (ids (trades l)) ->
  (forall y, y ∈ trades l -> is_open y = true -> t_id y = tradeId) ->
  t_id c = tradeId ->
  t_status c = Some CLOSED ->
  ids (trades (Ledger.patch_trade tradeId c l)) = ids (trades l)
  /\ Ledger.open_count (trades (Ledger.patch_trade tradeId c l)) = 0.
Proof.
  intros Hnd Hopen Hid Hst. unfold Ledger.patch_trade.
  destruct (Ledger.findIndex tradeId (trades l)) as [[j old] |] eqn:Hf; simpl.
  - apply TraderFacts.findIndex_Some in Hf as (Hj & Hold & _).
    assert (Hmid : t_id (merge old c) = t_id old).
    { rewrite TraderFacts.merge_id; congruence. }
    split; [exact (ids_insert_same _ _ _ _ Hj Hmid) |].
    apply open_count_zero_iff. intros y Hy.
    destruct (is_open y) eqn:Hoy; [| reflexivity]. exfalso.
    apply list_elem_of_lookup in Hy as [m Hm].
    apply list_lookup_insert_Some in Hm as [(_ & <- & _) | (Hne & Hm)].
    + unfold is_open in Hoy. simpl in Hoy. rewrite Hst in Hoy. discriminate.
    + apply Hne.
      assert (Hy : t_id y = tradeId).
      { apply Hopen; [| exact Hoy]. apply list_elem_of_lookup. exists m. exact Hm. }
      eapply (NoDup_lookup (ids (trades l))); [exact Hnd | |].
      * unfold ids. rewrite list_lookup_fmap, Hj. simpl. rewrite Hold. reflexivity.
      * unfold ids. rewrite list_lookup_fmap, Hm. simpl. rewrite Hy. reflexivity.
  - split; [reflexivity |].
    apply open_count_zero_iff. intros y Hy.
    destruct (is_open y) eqn:Hoy; [| reflexivity]. exfalso.
    unfold Ledger.findIndex in Hf. apply list_find_None in Hf.
    rewrite Forall_forall in Hf. apply (Hf y Hy). apply Hopen; assumption.
Qed.

(** The write through a shared open trade: same identifiers, and no trade
    becomes OPEN. *)
Lemma write_shared_keeps (st : tstate) (t c : trade) :
  coherent st ->
  openTrade st = Some t ->
  t_id c = t_id t ->
  t_status c = Some CLOSED ->
  let ts1 := trades (Ledger.current (write_shared (sharedAt st) c (ledgerStore st))) in
  ids ts1 = ids (ledger_trades st)
  /\ (forall y, y ∈ ts1 -> is_open y = true -> y ∈ ledger_trades st)
  /\ disk (write_shared (sharedAt st) c (ledgerStore st)) = disk (ledgerStore st).
Proof.
  intros Hcoh Hopen Hid Hst. unfold write_shared, ledger_trades.
  destruct (sharedAt st) as [k |] eqn:Hk; [| repeat split; auto].
  destruct (currentLedger (ledgerStore st)) as [l |] eqn:Hcache; [| repeat split; auto].
  pose proof (coh_shared st Hcoh t k Hopen Hk) as Hslot.
  unfold ledger_trades, Ledger.current in Hslot. rewrite Hcache in Hslot.
  destruct (trades l !! k) as [x |] eqn:Hx; [| discriminate]. injection Hslot as Hxid.
  simpl. unfold Ledger.current. simpl. rewrite Hcache. split; [| split; [| reflexivity]].
  - apply (ids_insert_same _ _ x); [exact Hx | congruence].
  - intros y Hy Hoy. apply elem_of_insert_inv in Hy as [-> | Hy]; [| exact Hy].
    unfold is_open in Hoy. rewrite Hst in Hoy. discriminate.
Qed.

(** *** The trader's steps keep the state coherent *)

Lemma coherent_close (e : env) (t : trade) (px : jsval) (reason : string)
  (st st' : tstate) :
  coherent st ->
  openTrade st = Some t ->
  closeTrade e t px reason st = Returned st' ->
  coherent st' /\ openTrade st' = None /\ ids (ledger_trades st') = ids (ledger_trades st).
Proof.
  intros Hcoh Hopen Hrun. rewrite TraderFacts.closeTrade_returns in Hrun.
  destruct (write_shared_keeps st t (closed e t px reason) Hcoh Hopen eq_refl eq_refl)
    as (Hids1 & Hopen1 & _).
  destruct (patch_closes_all
              (Ledger.current (write_shared (sharedAt st) (closed e t px reason)
                                 (ledgerStore st)))
              (t_id t) (closed e t px reason)) as [Hids2 Hzero]; try reflexivity.
  { rewrite Hids1. apply (coh_ids st Hcoh). }
  { intros y Hy Hoy. apply (coh_open st Hcoh t y Hopen); [apply Hopen1 |]; assumption. }
  fold (ledger_after_close e t px reason st) in Hids2, Hzero.
  remember (ledger_after_close e t px reason st) as l' eqn:Hl'. clear Hl'.
  injection Hrun as <-.
  split; [| split; [reflexivity |]].
  - constructor; unfold ledger_trades, Ledger.current;
      cbn [ledgerStore currentLedger disk openTrade sharedAt].
    + rewrite Hids2, Hids1. apply (coh_ids st Hcoh).
    + intros _. exact Hzero.
    + intros t1 x [=].
    + intros t1 k [=].
    + intros d Hd. destruct (write_ok e).
      * injection Hd as <-. simpl. rewrite open_count_json, Hzero. lia.
      * apply (coh_disk st Hcoh d Hd).
  - unfold ledger_trades at 1. unfold Ledger.current at 1.
    cbn [ledgerStore currentLedger]. rewrite Hids2, Hids1. reflexivity.
Qed.

Lemma coherent_loaded (st : tstate) :
  coherent st -> coherent (with_store st (Ledger.ensure_loaded (ledgerStore st))).
Proof.
  intros [H1 H2 H3 H4 H5].
  constructor; unfold ledger_trades in *; simpl;
    rewrite ?LedgerFacts.current_ensure_loaded, ?LedgerFacts.disk_ensure_loaded; assumption.
Qed.

(** After an entry: the new trade is the only OPEN one, under a fresh
    identifier; if the ledger refused it, the ledger is as before. *)
Lemma coherent_opened (st : tstate) (e : env) (opened : trade) (x : float)
  (s2 : store) :
  coherent st ->
  openTrade st = None ->
  Some (fresh_id e) ∉ ids (ledger_trades st) ->
  t_id opened = Some (fresh_id e) ->
  Ledger.addTrade e opened (Ledger.ensure_loaded (ledgerStore st)) = Returned s2 ->
  coherent {| openTrade := Some opened; sharedAt := None; lastFlipAtMs := x;
              ledgerStore := Ledger.ensure_loaded s2 |}.
Proof.
  intros Hcoh Hflat Hfresh Hid Hadd.
  rewrite TraderFacts.addTrade_returns in Hadd. injection Hadd as <-.
  pose proof (coh_flat st Hcoh Hflat) as Hzero.
  pose proof (proj1 (open_count_zero_iff _) Hzero) as Hnone.
  unfold ledger_trades in *.
  destruct (Ledger.refused opened).
  - constructor; unfold ledger_trades; simpl;
      rewrite ?LedgerFacts.current_ensure_loaded, ?LedgerFacts.disk_ensure_loaded.
    + apply (coh_ids st Hcoh).
    + intros [=].
    + intros t1 y [= <-] Hy Hoy. rewrite (Hnone y Hy) in Hoy. discriminate.
    + intros t1 k _ [=].
    + apply (coh_disk st Hcoh).
  - assert (Hnew : t_id (Ledger.newTrade e opened) = Some (fresh_id e)).
    { simpl. rewrite Hid. reflexivity. }
    assert (Hids : NoDup (ids (trades (Ledger.current (ledgerStore st))
                               ++ [Ledger.newTrade e opened]))).
    { unfold ids. rewrite fmap_app. apply NoDup_app. split; [apply (coh_ids st Hcoh) |].
      split; [| apply NoDup_singleton].
      intros a Ha Hin. apply list_elem_of_singleton in Hin. simpl in Hin.
      rewrite Hid in Hin. simpl in Hin. subst a. exact (Hfresh Ha). }
    assert (Hle : Ledger.open_count (trades (Ledger.current (ledgerStore st))
                                     ++ [Ledger.newTrade e opened]) <= 1).
    { rewrite open_count_app, Hzero, open_count_cons.
      destruct (is_open _); unfold Ledger.open_count; simpl; lia. }
    constructor; unfold ledger_trades; simpl;
      rewrite ?LedgerFacts.current_ensure_loaded; simpl;
      rewrite ?LedgerFacts.current_ensure_loaded.
    + exact Hids.
    + intros [=].
    + intros t1 y [= <-] Hy Hoy. apply elem_of_app in Hy as [Hy | Hy].
      * rewrite (Hnone y Hy) in Hoy. discriminate.
      * apply list_elem_of_singleton in Hy. subst y. rewrite Hnew, Hid. reflexivity.
    + intros t1 k _ [=].
    + intros d Hd. destruct (write_ok e).
      * injection Hd as <-. simpl. rewrite open_count_json. exact Hle.
      * rewrite LedgerFacts.disk_ensure_loaded in Hd. apply (coh_disk st Hcoh d Hd).
Qed.

Lemma coherent_entry_block (cfg : config) (e : env) (sg : signals) (sd : side)
  (inferred : bool) (px : jsval) (st st' : tstate) :
  coherent st ->
  openTrade st = None ->
  Some (fresh_id e) ∉ ids (ledger_trades st) ->
  entry_block cfg e sg sd inferred px st = Returned st' ->
  coherent st'.
Proof.
  intros Hcoh Hflat Hfresh Hrun. unfold entry_block in Hrun.
  destruct (sig_rec sg) as [r |]; [| discriminate].
  destruct (meetsThresholds cfg sg r sd); [| returned Hrun; exact Hcoh].
  destruct (priceOutOfBounds cfg px); [returned Hrun; exact Hcoh |].
  rewrite TraderFacts.computeContractSizeUsd_eq in Hrun.
  destruct (noSize _); [returned Hrun; apply coherent_loaded; exact Hcoh |].
  destruct (shares_for _ px) as [shares |]; [| returned Hrun; apply coherent_loaded; exact Hcoh].
  match type of Hrun with
  | context [Ledger.addTrade e ?o ?s] => destruct (Ledger.addTrade e o s) as [s2 | err] eqn:Hadd
  end; [| rewrite TraderFacts.addTrade_returns in Hadd; discriminate].
  unfold mbind, outcome_bind, obind in Hrun.
  rewrite TraderFacts.getBalanceSnapshot_eq in Hrun. returned Hrun.
  eapply coherent_opened; try eassumption. reflexivity.
Qed.

Lemma coherent_flip_entry (cfg : config) (e : env) (sg : signals) (t0 : trade)
  (st st' : tstate) :
  coherent st ->
  openTrade st = None ->
  Some (fresh_id e) ∉ ids (ledger_trades st) ->
  flip_entry cfg e sg t0 st = Returned st' ->
  coherent st'.
Proof.
  intros Hcoh Hflat Hfresh Hrun. unfold flip_entry in Hrun.
  destruct (_ && _ && _); [| returned Hrun; exact Hcoh].
  rewrite TraderFacts.computeContractSizeUsd_eq in Hrun.
  destruct (noSize _); [returned Hrun; apply coherent_loaded; exact Hcoh |].
  destruct (flip_shares_for _ _) as [shares |];
    [| returned Hrun; apply coherent_loaded; exact Hcoh].
  match type of Hrun with
  | context [Ledger.addTrade e ?o ?s] => destruct (Ledger.addTrade e o s) as [s2 | err] eqn:Hadd
  end; [| rewrite TraderFacts.addTrade_returns in Hadd; discriminate].
  unfold mbind, outcome_bind, obind in Hrun.
  rewrite TraderFacts.getBalanceSnapshot_eq in Hrun. returned Hrun.
  eapply coherent_opened; try eassumption. reflexivity.
Qed.

Lemma coherent_exit_block (cfg : config) (e : env) (sg : signals) (n : nat)
  (t : trade) (st st' : tstate) :
  coherent st ->
  openTrade st = Some t ->
  Some (fresh_id e) ∉ ids (ledger_trades st) ->
  exit_block cfg e sg n t st = Returned st' ->
  coherent st'.
Proof.
  intros Hcoh Hopen Hfresh Hrun. unfold exit_block in Hrun.
  destruct (rolledOver sg t).
  { destruct (negb (Js.is_null (price_of sg (t_side t)))); [| returned Hrun; exact Hcoh].
    apply (coherent_close _ _ _ _ _ _ Hcoh Hopen Hrun). }
  destruct (exit_decision cfg e sg n st t) as [[shouldExit exitReason] shouldFlip].
  destruct shouldExit; [| returned Hrun; exact Hcoh].
  destruct (negb (Js.is_null (price_of sg (t_side t)))); [| returned Hrun; exact Hcoh].
  destruct (closeTrade e t (price_of sg (t_side t)) exitReason st) as [st1 | err] eqn:Hclose;
    [| discriminate].
  destruct (coherent_close _ _ _ _ _ _ Hcoh Hopen Hclose) as (Hcoh1 & Hflat1 & Hids1).
  unfold mbind, outcome_bind, obind in Hrun.
  destruct shouldFlip; [| returned Hrun; exact Hcoh1].
  apply (coherent_flip_entry cfg e sg t st1 st' Hcoh1 Hflat1); [| exact Hrun].
  rewrite Hids1. exact Hfresh.
Qed.

(** One tick keeps the state coherent. *)
Lemma coherent_processSignals (cfg : config) (e : env) (sg : signals) (n : nat)
  (st st' : tstate) :
  coherent st ->
  Some (fresh_id e) ∉ ids (ledger_trades st) ->
  processSignals cfg e sg n st = Returned st' ->
  coherent st'.
Proof.
  intros Hcoh Hfresh Hrun. unfold processSignals in Hrun.
  destruct (negb (enabled cfg)); [returned Hrun; exact Hcoh |].
  destruct (_ && _ && _); [returned Hrun; exact Hcoh |].
  destruct (resolve_side cfg sg) as [[sd |] inferred]; [| returned Hrun; exact Hcoh].
  destruct (Js.is_null _); [returned Hrun; exact Hcoh |].
  destruct (openTrade st) as [t |] eqn:Hopen.
  - simpl in Hrun. rewrite !andb_false_r in Hrun. simpl in Hrun.
    apply (coherent_exit_block cfg e sg n t st st' Hcoh Hopen Hfresh Hrun).
  - destruct (_ && _).
    + apply (coherent_entry_block cfg e sg sd inferred _ st st' Hcoh Hopen Hfresh Hrun).
    + returned Hrun. exact Hcoh.
Qed.

(** [initialize] on a well-formed ledger returns a coherent state. *)
Lemma coherent_initialize (e : env) (s : store) (st : tstate) :
  well_formed_store s ->
  initialize e (fresh_trader s) = Returned st ->
  coherent st.
Proof.
  intros [Hids Hle Hdisk] Hrun. unfold initialize, Ledger.getOpenTrade in Hrun.
  simpl in Hrun. rewrite LedgerFacts.current_ensure_loaded in Hrun.
  destruct (list_find _ _) as [[i t] |] eqn:Hfind.
  - apply list_find_Some in Hfind as (Hi & Hot & _).
    assert (Hin : t ∈ trades (Ledger.current s)).
    { apply list_elem_of_lookup. exists i. exact Hi. }
    assert (Hone : forall y, y ∈ trades (Ledger.current s) -> is_open y = true ->
                             t_id y = t_id t).
    { intros y Hy Hoy. rewrite (open_unique _ y t Hle Hy Hin Hoy Hot). reflexivity. }
    destruct (badPrice t || badShares t).
    + unfold Ledger.updateTrade in Hrun.
      rewrite LedgerFacts.updateLedger_returns in Hrun. returned Hrun.
      rewrite LedgerFacts.current_ensure_loaded, LedgerFacts.disk_ensure_loaded.
      destruct (patch_closes_all (Ledger.current s) (t_id t) (forced e t) Hids Hone
                  eq_refl eq_refl) as [Hids2 Hzero].
      remember (Ledger.patch_trade (t_id t) (forced e t) (Ledger.current s)) as l'.
      constructor; unfold ledger_trades, Ledger.current;
        cbn [ledgerStore currentLedger disk openTrade sharedAt].
      * rewrite Hids2. exact Hids.
      * intros _. exact Hzero.
      * intros t1 x [=].
      * intros t1 k [=].
      * intros d Hd. destruct (write_ok e).
        -- injection Hd as <-. simpl. rewrite open_count_json, Hzero. lia.
        -- apply (Hdisk d Hd).
    + destruct (t_id t) as [tradeId |] eqn:Htid; [| discriminate].
      returned Hrun.
      constructor; unfold ledger_trades; cbn [ledgerStore openTrade sharedAt];
        rewrite ?LedgerFacts.current_ensure_loaded, ?LedgerFacts.disk_ensure_loaded.
      * exact Hids.
      * intros [=].
      * intros t1 y [= <-]. rewrite Htid. apply Hone.
      * intros t1 k [= <-] [= <-]. rewrite Hi. reflexivity.
      * exact Hdisk.
  - returned Hrun. apply list_find_None in Hfind. rewrite Forall_forall in Hfind.
    constructor; unfold ledger_trades; cbn [ledgerStore openTrade sharedAt];
      rewrite ?LedgerFacts.current_ensure_loaded, ?LedgerFacts.disk_ensure_loaded.
    * exact Hids.
    * intros _. apply open_count_zero_iff. intros y Hy.
      destruct (is_open y) eqn:Hoy; [| reflexivity]. exfalso. exact (Hfind y Hy Hoy).
    * intros t1 y [=].
    * intros t1 k [=].
    * exact Hdisk.
Qed.

Lemma reachable_coherent (cfg : config) (st : tstate) :
  reachable cfg st -> coherent st.
Proof.
  induction 1 as [e s st Hwf Hinit | e sg n st st' Hreach IH Hfresh Hrun].
  - exact (coherent_initialize e s st Hwf Hinit).
  - exact (coherent_processSignals cfg e sg n st st' IH Hfresh Hrun).
Qed.

(** C6, as the code has it.  From a ledger with distinct trade identifiers
    and at most one OPEN trade, after [initialize] and any number of ticks,
    each drawing an identifier no trade carries yet, the cached ledger and
    the ledger file hold at most one OPEN trade.  (The ledger's own
    [addTrade] does not keep the property: the trader does, by entering
    only when it holds no open trade.) *)
Theorem at_most_one_open (cfg : config) (st : tstate) :
  reachable cfg st ->
  Ledger.open_count (ledger_trades st) <= 1
  /\ (forall d, disk (ledgerStore st) = Some d -> Ledger.open_count (trades d) <= 1).
Proof.
  intros Hreach. pose proof (reachable_coherent cfg st Hreach) as Hcoh. split.
  - destruct (openTrade st) as [t |] eqn:Hopen.
    + apply (open_count_le1 _ (t_id t)); [apply (coh_ids st Hcoh) |].
      intros x Hx Hox. apply (coh_open st Hcoh t x Hopen Hx Hox).
    + rewrite (coh_flat st Hcoh Hopen). lia.
  - apply (coh_disk st Hcoh).
Qed.

Lemma well_formed_empty : well_formed_store Scenarios.store_empty.
Proof.
  constructor.
  - apply NoDup_nil_2.
  - unfold Ledger.open_count. simpl. lia.
  - intros d [=].
Qed.

Lemma reachable_after_a_then_b :
  reachable Scenarios.cfg_default Scenarios.after_a_then_b.
Proof.
  apply (reach_tick Scenarios.cfg_default Scenarios.env_later Scenarios.signals_b 30
           Scenarios.after_a).
  - apply (reach_tick Scenarios.cfg_default Scenarios.env_ok Scenarios.signals_a 30
             Scenarios.initialized).
    + apply (reach_initialize Scenarios.cfg_default Scenarios.env_ok Scenarios.store_empty).
      * exact well_formed_empty.
      * reflexivity.
    + apply not_elem_of_nil.
    + reflexivity.
  - unfold ids, ledger_trades. simpl. intros H.
    apply list_elem_of_singleton in H. discriminate H.
  - reflexivity.
Qed.

(** Initialize on an empty ledger, scenario A's entry, then scenario B's
    flip: one trade CLOSED, one OPEN. *)
Lemma at_most_one_open_witness :
  (t_status <$> ledger_trades Scenarios.after_a_then_b) = [Some CLOSED; Some OPEN]
  /\ Ledger.open_count (ledger_trades Scenarios.after_a_then_b) <= 1
  /\ (forall d, disk (ledgerStore Scenarios.after_a_then_b) = Some d ->
                Ledger.open_count (trades d) <= 1).
Proof.
  split; [reflexivity |].
  exact (at_most_one_open Scenarios.cfg_default Scenarios.after_a_then_b
           reachable_after_a_then_b).
Defined.

(** C6 as stated fails for the ledger's append: appending a valid OPEN
    trade to a ledger that holds one OPEN trade stores a second one, in the
    cache and in the file. *)
Lemma addTrade_allows_second_open :
  Ledger.open_count (trades (Ledger.current (Scenarios.store_of
                                               [Scenarios.trade_up Scenarios.id_a OPEN]))) = 1
  /\ exists s' d,
       Ledger.addTrade Scenarios.env_ok (Scenarios.trade_up "1770076800000k3x9q2" OPEN)
         (Scenarios.store_of [Scenarios.trade_up Scenarios.id_a OPEN]) = Returned s'
       /\ Ledger.open_count (trades (Ledger.current s')) = 2
       /\ disk s' = Some d
       /\ Ledger.open_count (trades d) = 2.
Proof.
  split; [reflexivity |]. eexists. eexists. repeat split.
Qed.

(** *** The runs do return *)

(** [initialize] returns unless the open trade it adopts has no [id]: its
    last statement logs [this.openTrade.id.substring(0, 8)]. *)
Lemma initialize_returns (e : env) (st : tstate) :
  (forall i t, fst (Ledger.getOpenTrade (ledgerStore st)) = Some (i, t) ->
               badPrice t || badShares t = false -> t_id t <> None) ->
  exists st', initialize e st = Returned st'.
Proof.
  intros Hid. unfold initialize.
  destruct (Ledger.getOpenTrade (ledgerStore st)) as [[[i t] |] s0].
  - destruct (badPrice t || badShares t) eqn:Hbad.
    + unfold Ledger.updateTrade. rewrite LedgerFacts.updateLedger_returns.
      eexists. reflexivity.
    + specialize (Hid i t eq_refl Hbad).
      destruct (t_id t); [eexists; reflexivity | congruence].
  - eexists. reflexivity.
Qed.

(** A ledger whose OPEN trade is valid but carries no [id]: the trade passes
    the sanity test, and the log line throws. *)
Lemma initialize_throws_without_id :
  badPrice Scenarios.trade_no_id || badShares Scenarios.trade_no_id = false
  /\ exists err,
       initialize Scenarios.env_ok
         (fresh_trader (Scenarios.store_of [Scenarios.trade_no_id])) = Thrown err.
Proof. split; [reflexivity |]. eexists. reflexivity. Qed.

(** The sanity test of [initialize] reads the shares through
    [Number(t.shares)]: a string or a boolean that converts to a positive
    finite number passes, one that does not fails. *)
Lemma badShares_converts :
  badShares (Scenarios.trade_with_shares (JStr "5")) = false
  /\ badShares (Scenarios.trade_with_shares (JBool true)) = false
  /\ badShares (Scenarios.trade_with_shares (JStr "five")) = true
  /\ badShares (Scenarios.trade_with_shares (JBool false)) = true
  /\ badShares (Scenarios.trade_with_shares JNull) = false.
Proof. repeat split. Qed.

(** A tick returns whenever the signals carry a recommendation object; the
    only throw is the destructuring of a missing one in the entry block. *)
Lemma processSignals_returns (cfg : config) (e : env) (sg : signals) (n : nat)
  (st : tstate) (r : recommendation) :
  sig_rec sg = Some r ->
  exists st', processSignals cfg e sg n st = Returned st'.
Proof.
  intros Hrec. unfold processSignals.
  destruct (negb (enabled cfg)); [eexists; reflexivity |].
  destruct (_ && _ && _); [eexists; reflexivity |].
  destruct (resolve_side cfg sg) as [[sd |] inferred]; [| eexists; reflexivity].
  destruct (Js.is_null _); [eexists; reflexivity |].
  destruct (_ && _).
  - unfold entry_block. rewrite Hrec.
    destruct (meetsThresholds cfg sg r sd); [| eexists; reflexivity].
    destruct (priceOutOfBounds cfg _); [eexists; reflexivity |].
    rewrite TraderFacts.computeContractSizeUsd_eq.
    destruct (noSize _); [eexists; reflexivity |].
    destruct (shares_for _ _); [| eexists; reflexivity].
    rewrite TraderFacts.addTrade_returns. unfold mbind, outcome_bind, obind.
    rewrite TraderFacts.getBalanceSnapshot_eq. eexists. reflexivity.
  - destruct (openTrade st) as [t |]; [| eexists; reflexivity].
    unfold exit_block.
    destruct (rolledOver sg t).
    { destruct (negb _); [| eexists; reflexivity].
      rewrite TraderFacts.closeTrade_returns. eexists. reflexivity. }
    destruct (exit_decision cfg e sg n st t) as [[shouldExit exitReason] shouldFlip].
    destruct shouldExit; [| eexists; reflexivity].
    destruct (negb _); [| eexists; reflexivity].
    rewrite TraderFacts.closeTrade_returns. unfold mbind, outcome_bind, obind.
    destruct shouldFlip; [| eexists; reflexivity].
    match goal with
    | |- context [flip_entry cfg e sg t ?st1] =>
        destruct (TraderFacts.flip_entry_returns cfg e sg t st1) as (st' & Hret & _)
    end.
    exists st'. exact Hret.
Qed.

End InvariantFacts.

(** ** Further facts about the two revisions *)

Module RevisionFacts.

Local Open Scope float_scope.

(** The "Stop Loss" rule of rev. 2 (l. 340-343) never decides an exit: it
    asks for the flip condition, under which the flip rule before it has
    already set [shouldExit]. *)
Lemma exit_reason_is_never_stop_loss (cfg : config) (e : env) (sg : signals)
  (n : nat) (st : tstate) (t : trade) :
  let reason := snd (fst (Trader.exit_decision cfg e sg n st t)) in
  reason = "" \/ reason = "Probability Flip" \/ reason = "End of Candle".
Proof.
  unfold Trader.exit_decision.
  destruct (Trader.opposingMoreLikely cfg sg t); simpl.
  - right. left. reflexivity.
  - rewrite andb_false_r. simpl.
    destruct (JsNum.lt (timeLeftMin sg) 0.5); simpl; auto.
Qed.

(** [initialize] force-closes an invalid open trade with a pnl of 0 and
    the reason "Invalid Entry (sanity check)" (rev. 2, l. 27-38). *)
Lemma initialize_force_closes_invalid :
  exists st',
    Trader.initialize Scenarios.env_ok (fresh_trader Scenarios.store_corrupt)
    = Returned st'
    /\ openTrade st' = None
    /\ (fun r => (t_status r, t_pnl r, t_exitReason r)) <$> ledger_trades st'
       = [(Some CLOSED, JNum 0, Some "Invalid Entry (sanity check)")].
Proof. eexists. repeat split. Qed.

(** X22.  In the earlier revision the warm-up test returns before the exit
    block, under a comment that says exits are still allowed (l. 74-77):
    while there are fewer candles than [minCandlesForEntry], no tick
    changes anything, so an open trade is not closed, not even at the end
    of the window or on a probability flip. *)
Lemma legacy_warmup_blocks_exit (cfg : config) (e : env) (sg : signals) (n : nat)
  (st : tstate) :
  Trader.canEnter cfg n = false ->
  LegacyTrader.processSignals cfg e sg n st = Returned st.
Proof.
  intros Hwarm. unfold LegacyTrader.processSignals.
  destruct (negb (enabled cfg)); [reflexivity |].
  destruct (sig_rec sg) as [[action [sd |] ph edge] |]; try reflexivity.
  destruct (Js.is_null _); [reflexivity |].
  rewrite Hwarm. reflexivity.
Qed.

(** The earlier revision sizes every entry at [CONFIG.contractSize]: on
    scenario A's tick it also buys $100, 500 shares. *)
Lemma legacy_entry_is_fixed_size :
  exists st' t,
    LegacyTrader.processSignals Scenarios.cfg_default Scenarios.env_ok Scenarios.signals_a 30
      Scenarios.flat_with_profit = Returned st'
    /\ openTrade st' = Some t
    /\ t_contractSize t = JNum 100
    /\ t_shares t = JNum 500.
Proof. eexists. eexists. repeat split. Qed.

(** X23.  In the earlier revision a trade stays open whenever the flip
    condition is false and half a minute or more is left: it has neither
    stop loss nor rollover, so neither a loss nor a change of the market
    identifier closes the trade. *)
Lemma legacy_keeps_open (cfg : config) (e : env) (sg : signals) (n : nat)
  (st : tstate) (t : trade) :
  openTrade st = Some t ->
  Trader.opposingMoreLikely cfg sg t = false ->
  JsNum.lt (timeLeftMin sg) 0.5 = false ->
  LegacyTrader.processSignals cfg e sg n st = Returned st.
Proof.
  intros Hopen Hflip Htime. unfold LegacyTrader.processSignals.
  destruct (negb (enabled cfg)); [reflexivity |].
  destruct (sig_rec sg) as [[action [sd |] ph edge] |]; try reflexivity.
  destruct (Js.is_null _); [reflexivity |].
  destruct (negb (Trader.canEnter cfg n)); [reflexivity |].
  rewrite Hopen. simpl.
  unfold LegacyTrader.exit_decision. rewrite Hflip. simpl. rewrite Htime. reflexivity.
Qed.

End RevisionFacts.

(** ** More facts about binary64 values *)

Module FloatMore.

Local Open Scope float_scope.

Lemma SFcompare_finite_refl (s : bool) (m : positive) (e : Z) :
  SFcompare (S754_finite s m e) (S754_finite s m e) = Some Eq.
Proof.
  simpl. destruct s; rewrite Z.compare_refl, ?Pos.compare_refl, ?Pos.compare_cont_refl;
    reflexivity.
Qed.

(** [Number.isFinite] read off the value's decomposition. *)
Lemma is_finite_SF (x : float) :
  is_finite x
  = match Prim2SF x with
    | S754_zero _ | S754_finite _ _ _ => true
    | _ => false
    end.
Proof.
  unfold is_finite, is_nan, is_infinity.
  rewrite !FloatAxioms.eqb_spec, FloatAxioms.abs_spec.
  destruct (Prim2SF x) as [s | s | | s m e]; try reflexivity.
  - destruct s; reflexivity.
  - unfold SFeqb. rewrite SFcompare_finite_refl. destruct s; reflexivity.
Qed.

(** A quotient is finite only if the dividend is. *)
Lemma div_finite_dividend (a b : float) :
  is_finite (a / b) = true -> is_finite a = true.
Proof.
  rewrite !is_finite_SF, FloatAxioms.div_spec.
  destruct (Prim2SF a) as [s | s | | s m e]; try reflexivity;
    destruct (Prim2SF b) as [s' | s' | | s' m' e']; simpl; intros H; try discriminate H.
Qed.

Lemma is_zero_SF (x : float) :
  PrimFloat.is_zero x = match Prim2SF x with S754_zero _ => true | _ => false end.
Proof.
  unfold PrimFloat.is_zero, zero. rewrite FloatAxioms.eqb_spec, FloatFacts.Prim2SF_zero.
  destruct (Prim2SF x) as [s | s | | s m e]; try reflexivity; destruct s; reflexivity.
Qed.

Lemma gt0_not_zero (x : float) : (0 <? x) = true -> PrimFloat.is_zero x = false.
Proof.
  rewrite is_zero_SF, FloatAxioms.ltb_spec, FloatFacts.Prim2SF_zero.
  destruct (Prim2SF x) as [s | s | | s m e]; try reflexivity; destruct s; discriminate.
Qed.

Lemma not_le0_not_zero (x : float) : (x <=? 0) = false -> PrimFloat.is_zero x = false.
Proof.
  rewrite is_zero_SF, FloatAxioms.leb_spec, FloatFacts.Prim2SF_zero.
  destruct (Prim2SF x) as [s | s | | s m e]; try reflexivity; destruct s; discriminate.
Qed.

Lemma truthy_not_zero (x : float) : JsNum.truthy x = true -> PrimFloat.is_zero x = false.
Proof.
  unfold JsNum.truthy. destruct (PrimFloat.is_zero x); [| reflexivity].
  rewrite orb_true_r. discriminate.
Qed.

End FloatMore.

(** ** The ledger's operations *)

Module LedgerLaws.

Import Ledger.
Local Open Scope nat_scope.

Lemma filter_split_length {A : Type} (p : A -> bool) (l : list A) :
  length (List.filter p l) + length (List.filter (fun x => negb (p x)) l) = length l.
Proof.
  induction l as [| a l IH]; [reflexivity |].
  simpl. destruct (p a); simpl; lia.
Qed.

Lemma closed_open_le (ts : list trade) :
  length (List.filter is_closed ts) + open_count ts <= length ts.
Proof.
  unfold open_count. induction ts as [| t ts IH]; [reflexivity |].
  simpl. unfold is_closed at 1, is_open at 1.
  destruct (t_status t) as [[|] |]; simpl; lia.
Qed.

Lemma wins_losses_closed (ts : list trade) :
  count_wins ts + count_losses ts = length (List.filter is_closed ts).
Proof.
  unfold count_wins, count_losses. rewrite filter_split_length.
  unfold closed_pnls. apply length_fmap.
Qed.

(** X1.  [recalculateSummary] counts every trade in [totalTrades] and every
    CLOSED trade exactly once, as a win or as a loss; trades that are not
    CLOSED are in neither count.  With no CLOSED trade the summary shows a
    total PnL of 0 and a win rate of 0. *)
Theorem summary_counts_closed_once (ts : list trade) :
  totalTrades (recalculateSummary ts) = length ts
  /\ wins (recalculateSummary ts) + losses (recalculateSummary ts)
     = length (List.filter is_closed ts)
  /\ wins (recalculateSummary ts) + losses (recalculateSummary ts) + open_count ts
     <= length ts
  /\ (List.filter is_closed ts = [] ->
      wins (recalculateSummary ts) = 0 /\ losses (recalculateSummary ts) = 0
      /\ totalPnL (recalculateSummary ts) = JNum 0
      /\ winRate (recalculateSummary ts) = 0%float).
Proof.
  split; [reflexivity |]. split; [apply wins_losses_closed |]. split.
  - simpl. rewrite wins_losses_closed. apply closed_open_le.
  - intros Hnone. unfold recalculateSummary, count_wins, count_losses, sum_pnl, closed_pnls.
    rewrite Hnone. repeat split.
Qed.

(** The record [addTrade] stores is closed only if the trade given is. *)
Lemma is_closed_newTrade (e : env) (t : trade) :
  is_closed (newTrade e t) = is_closed t.
Proof. unfold is_closed. simpl. destruct (t_status t) as [[|] |]; reflexivity. Qed.

Lemma closed_pnls_app_open (ts : list trade) (t : trade) :
  is_closed t = false -> closed_pnls (ts ++ [t]) = closed_pnls ts.
Proof.
  intros H. unfold closed_pnls. rewrite List.filter_app. simpl. rewrite H.
  rewrite app_nil_r. reflexivity.
Qed.

(** A trade that is not CLOSED, appended, changes only [totalTrades]. *)
Lemma summary_app_open (ts : list trade) (t : trade) :
  is_closed t = false ->
  recalculateSummary (ts ++ [t])
  = {| totalTrades := S (length ts);
       wins := wins (recalculateSummary ts);
       losses := losses (recalculateSummary ts);
       totalPnL := totalPnL (recalculateSummary ts);
       winRate := winRate (recalculateSummary ts) |}.
Proof.
  intros H. unfold recalculateSummary, count_wins, count_losses, sum_pnl.
  rewrite (closed_pnls_app_open ts t H), length_app. simpl.
  replace (length ts + 1) with (S (length ts)) by lia. reflexivity.
Qed.

(** X2.  An accepted trade is appended at the end of the ledger and every
    earlier trade keeps its place.  The stored record keeps the caller's
    identifier, timestamp and status and fills in only those that are
    missing (a fresh identifier, the current time, OPEN), and a [pnl] that
    is not a number is stored as 0.  The summary is recomputed, and the file
    holds the new ledger when the write succeeds and is left as it was
    when it fails. *)
Theorem addTrade_appends_one (e : env) (t : trade) (s : store) :
  refused t = false ->
  exists s' r,
    addTrade e t s = Returned s'
    /\ trades (current s') = (trades (current s) ++ [r])%list
    /\ t_id r = Some (Js.opt_or (t_id t) (fresh_id e))
    /\ t_timestamp r = Some (Js.opt_or (t_timestamp t) (now_iso e))
    /\ t_status r = Some (Js.opt_or (t_status t) OPEN)
    /\ t_pnl r = (if Js.is_number (t_pnl t) then t_pnl t else JNum 0)
    /\ (t_marketSlug r, t_side r, t_entryPrice r, t_shares r, t_contractSize r)
       = (t_marketSlug t, t_side t, t_entryPrice t, t_shares t, t_contractSize t)
    /\ summary_fresh s'
    /\ disk s' = (if write_ok e then Some (json_ledger (current s')) else disk s).
Proof.
  intros Hok. rewrite TraderFacts.addTrade_returns, Hok.
  eexists. exists (newTrade e t). split; [reflexivity |].
  unfold summary_fresh, current. simpl. repeat split.
Qed.

Lemma addTrade_appends_one_witness :
  exists s' r,
    addTrade Scenarios.env_ok Scenarios.trade_bare Scenarios.store_empty = Returned s'
    /\ trades (current s') = (trades (current Scenarios.store_empty) ++ [r])%list
    /\ t_id r = Some "1770076800000k3x9q2"
    /\ t_timestamp r = Some "2026-02-03T00:00:00.000Z"
    /\ t_status r = Some OPEN
    /\ t_pnl r = JNum 0
    /\ (t_marketSlug r, t_side r, t_entryPrice r, t_shares r, t_contractSize r)
       = (Some Scenarios.market_a, Some DOWN, JNum 0.5%float, JVal JUndef, JNum 100%float)
    /\ summary_fresh s'
    /\ disk s' = Some (json_ledger (current s')).
Proof.
  exact (addTrade_appends_one Scenarios.env_ok Scenarios.trade_bare Scenarios.store_empty
           eq_refl).
Defined.

Lemma findIndex_None (tradeId : option string) (ts : list trade) :
  (forall t, t ∈ ts -> t_id t <> tradeId) -> findIndex tradeId ts = None.
Proof.
  intros H. unfold findIndex. apply list_find_None. apply Forall_forall. exact H.
Qed.

(** X3.  [updateTrade] with an identifier that no trade carries changes
    neither the trades nor the summary; the ledger file is still rewritten
    from the cache. *)
Theorem updateTrade_unknown_id (e : env) (tradeId : option string) (updateData : trade)
  (s : store) :
  (forall t, t ∈ trades (current s) -> t_id t <> tradeId) ->
  exists s',
    updateTrade e tradeId updateData s = Returned s'
    /\ current s' = current s
    /\ disk s' = (if write_ok e then Some (json_ledger (current s)) else disk s).
Proof.
  intros Hnone. unfold updateTrade. rewrite LedgerFacts.updateLedger_returns.
  unfold patch_trade. rewrite (findIndex_None _ _ Hnone).
  eexists. repeat split.
Qed.

Lemma updateTrade_unknown_id_witness :
  exists s',
    updateTrade Scenarios.env_ok (Some "no-such-trade")
      (Scenarios.trade_up Scenarios.id_a CLOSED)
      (Scenarios.store_of [Scenarios.trade_up Scenarios.id_a OPEN]) = Returned s'
    /\ current s' = current (Scenarios.store_of [Scenarios.trade_up Scenarios.id_a OPEN])
    /\ disk s'
       = Some (json_ledger
                 (current (Scenarios.store_of [Scenarios.trade_up Scenarios.id_a OPEN]))).
Proof.
  apply (updateTrade_unknown_id Scenarios.env_ok (Some "no-such-trade")).
  intros t Ht. simpl in Ht. apply list_elem_of_singleton in Ht. subst t. discriminate.
Defined.

Lemma findIndex_first (tradeId : option string) (ts : list trade) (i : nat) (old : trade) :
  ts !! i = Some old ->
  t_id old = tradeId ->
  (forall j y, ts !! j = Some y -> j < i -> t_id y <> tradeId) ->
  findIndex tradeId ts = Some (i, old).
Proof.
  intros Hi Hid Hmin. unfold findIndex. apply list_find_Some. repeat split; assumption.
Qed.

(** X4.  [updateTrade] rewrites the first trade that carries the
    identifier, and only that one: the ledger keeps its length, every other
    index keeps its trade, and at the index found every field the update
    carries replaces the old one while the others stay.  The summary is
    recomputed from the new trades. *)
Theorem updateTrade_patches_first_match (e : env) (tradeId : option string)
  (updateData old : trade) (s : store) (i : nat) :
  trades (current s) !! i = Some old ->
  t_id old = tradeId ->
  (forall j y, trades (current s) !! j = Some y -> j < i -> t_id y <> tradeId) ->
  exists s',
    updateTrade e tradeId updateData s = Returned s'
    /\ length (trades (current s')) = length (trades (current s))
    /\ trades (current s') !! i = Some (merge old updateData)
    /\ (forall j, j <> i -> trades (current s') !! j = trades (current s) !! j)
    /\ summary_fresh s'
    /\ (t_status updateData = None -> t_status (merge old updateData) = t_status old)
    /\ (forall st, t_status updateData = Some st ->
                   t_status (merge old updateData) = Some st).
Proof.
  intros Hi Hid Hmin. unfold updateTrade. rewrite LedgerFacts.updateLedger_returns.
  unfold patch_trade. rewrite (findIndex_first _ _ _ _ Hi Hid Hmin).
  eexists. split; [reflexivity |].
  unfold summary_fresh, current. cbn [currentLedger trades ledger_summary].
  fold (current s). split; [apply length_insert |]. split.
  { apply list_lookup_insert_eq. eapply lookup_lt_Some. exact Hi. }
  split.
  { intros j Hj. apply list_lookup_insert_ne. congruence. }
  split; [reflexivity |]. split.
  - intros H. simpl. rewrite H. reflexivity.
  - intros st H. simpl. rewrite H. reflexivity.
Qed.

Lemma updateTrade_patches_first_match_witness :
  exists s',
    updateTrade Scenarios.env_ok (Some Scenarios.id_a) Scenarios.patch_exit
      (Scenarios.store_of [Scenarios.trade_closed "1770070000000aaaaaa" 5;
                           Scenarios.trade_up Scenarios.id_a OPEN]) = Returned s'
    /\ length (trades (current s')) = 2
    /\ trades (current s') !! 1
       = Some (merge (Scenarios.trade_up Scenarios.id_a OPEN) Scenarios.patch_exit)
    /\ (forall j, j <> 1 ->
          trades (current s') !! j
          = [Scenarios.trade_closed "1770070000000aaaaaa" 5;
             Scenarios.trade_up Scenarios.id_a OPEN] !! j)
    /\ summary_fresh s'
    /\ (t_status Scenarios.patch_exit = None ->
        t_status (merge (Scenarios.trade_up Scenarios.id_a OPEN) Scenarios.patch_exit)
        = Some OPEN)
    /\ (forall st, t_status Scenarios.patch_exit = Some st ->
          t_status (merge (Scenarios.trade_up Scenarios.id_a OPEN) Scenarios.patch_exit)
          = Some st).
Proof.
  apply (updateTrade_patches_first_match Scenarios.env_ok (Some Scenarios.id_a)
           Scenarios.patch_exit (Scenarios.trade_up Scenarios.id_a OPEN)
           (Scenarios.store_of [Scenarios.trade_closed "1770070000000aaaaaa" 5;
                                Scenarios.trade_up Scenarios.id_a OPEN]) 1).
  - reflexivity.
  - reflexivity.
  - intros j y Hj Hlt. destruct j as [| j]; [| lia].
    simpl in Hj. injection Hj as <-. discriminate.
Defined.

(** X5.  The first [initializeLedger] of a process loads the ledger file
    (the default structure when there is none), keeps its trades,
    recomputes the summary and saves; every later call returns the cached
    ledger without touching anything. *)
Theorem initializeLedger_loads_once (e e' : env) (s : store) :
  currentLedger s = None ->
  exists s',
    initializeLedger e s = Returned s'
    /\ trades (current s') = trades (loadLedger s)
    /\ summary_fresh s'
    /\ disk s' = (if write_ok e then Some (json_ledger (current s')) else disk s)
    /\ initializeLedger e' s' = Returned s'.
Proof.
  intros Hnone. unfold initializeLedger at 1. rewrite Hnone.
  rewrite LedgerFacts.saveLedger_returns.
  destruct (write_ok e); eexists; repeat split.
Qed.

Lemma initializeLedger_loads_once_witness :
  exists s',
    initializeLedger Scenarios.env_ok Scenarios.store_corrupt = Returned s'
    /\ trades (current s') = [Scenarios.trade_corrupt]
    /\ summary_fresh s'
    /\ disk s' = Some (json_ledger (current s'))
    /\ initializeLedger Scenarios.env_later s' = Returned s'.
Proof.
  exact (initializeLedger_loads_once Scenarios.env_ok Scenarios.env_later
           Scenarios.store_corrupt eq_refl).
Defined.

(** X6.  [getOpenTrade] answers with the first trade whose status is OPEN
    and with nothing exactly when the ledger holds no OPEN trade; apart
    from loading the ledger it changes neither the cache nor the file. *)
Theorem getOpenTrade_is_first_open (s : store) :
  current (snd (getOpenTrade s)) = current s
  /\ disk (snd (getOpenTrade s)) = disk s
  /\ (fst (getOpenTrade s) = None <-> open_count (trades (current s)) = 0)
  /\ (forall i t, fst (getOpenTrade s) = Some (i, t) ->
        trades (current s) !! i = Some t
        /\ is_open t = true
        /\ forall j y, trades (current s) !! j = Some y -> j < i -> is_open y = false).
Proof.
  unfold getOpenTrade.
  cbn [fst snd]. rewrite LedgerFacts.current_ensure_loaded, LedgerFacts.disk_ensure_loaded.
  split; [reflexivity |]. split; [reflexivity |]. split.
  - rewrite InvariantFacts.open_count_zero_iff. split.
    + intros Hf x Hx. apply list_find_None in Hf. rewrite Forall_forall in Hf.
      destruct (is_open x) eqn:Hox; [| reflexivity]. exfalso. exact (Hf x Hx Hox).
    + intros Hall. apply list_find_None. apply Forall_forall.
      intros x Hx Hox. rewrite (Hall x Hx) in Hox. discriminate.
  - intros i t Hf. apply list_find_Some in Hf as (Hi & Hot & Hmin).
    split; [exact Hi |]. split; [exact Hot |].
    intros j y Hj Hlt. destruct (is_open y) eqn:Hoy; [| reflexivity].
    exfalso. exact (Hmin j y Hj Hlt Hoy).
Qed.

(** The two updates of the ledger keep a fresh summary fresh. *)
Lemma addTrade_fresh (e : env) (t : trade) (s s' : store) :
  summary_fresh s -> addTrade e t s = Returned s' -> summary_fresh s'.
Proof.
  intros Hf Hrun. rewrite TraderFacts.addTrade_returns in Hrun. injection Hrun as <-.
  destruct (refused t); [exact Hf | reflexivity].
Qed.

Lemma patch_fresh (tradeId : option string) (d : trade) (l : ledger) :
  ledger_summary l = Some (recalculateSummary (trades l)) ->
  ledger_summary (patch_trade tradeId d l)
  = Some (recalculateSummary (trades (patch_trade tradeId d l))).
Proof.
  intros Hf. unfold patch_trade.
  destruct (findIndex tradeId (trades l)) as [[i old] |]; [reflexivity | exact Hf].
Qed.

Lemma updateTrade_fresh (e : env) (tradeId : option string) (d : trade) (s s' : store) :
  summary_fresh s -> updateTrade e tradeId d s = Returned s' -> summary_fresh s'.
Proof.
  intros Hf Hrun. unfold updateTrade in Hrun.
  rewrite LedgerFacts.updateLedger_returns in Hrun. injection Hrun as <-.
  unfold summary_fresh, current. cbn [currentLedger]. apply patch_fresh. exact Hf.
Qed.

Lemma ensure_loaded_fresh (s : store) :
  summary_fresh s -> summary_fresh (ensure_loaded s).
Proof. unfold summary_fresh. rewrite LedgerFacts.current_ensure_loaded. auto. Qed.

End LedgerLaws.

(** ** The shape of a tick *)

Module TickShape.

Import Trader.
Local Open Scope float_scope.

(** A price read for a side is a number or [null]. *)
Lemma price_of_cases (sg : signals) (sd : option side) :
  price_of sg sd = JNull \/ exists px, price_of sg sd = JNum px.
Proof.
  unfold price_of. destruct (polyPrices sg) as [p |]; [| left; reflexivity].
  destruct sd as [[|] |]; [| | left; reflexivity].
  - destruct (price_UP p); simpl; eauto.
  - destruct (price_DOWN p); simpl; eauto.
Qed.

Lemma store_after_add_loaded (e : env) (t : trade) (s : store) :
  store_after_add e t (Ledger.ensure_loaded s) = store_after_add e t s.
Proof.
  unfold store_after_add.
  rewrite LedgerFacts.current_ensure_loaded, LedgerFacts.disk_ensure_loaded. reflexivity.
Qed.

(** The three exit rules, in the order of the code. *)
Lemma exit_decision_eq (cfg : config) (e : env) (sg : signals) (n : nat) (st : tstate)
  (t : trade) :
  exit_decision cfg e sg n st t
  = if opposingMoreLikely cfg sg t then (true, "Probability Flip", may_flip cfg e sg n st)
    else if JsNum.lt (timeLeftMin sg) 0.5 then (true, "End of Candle", false)
    else (false, "", false).
Proof.
  unfold exit_decision, may_flip.
  destruct (opposingMoreLikely cfg sg t); simpl.
  - destruct (_ && _ && _ && _); reflexivity.
  - rewrite andb_false_r. simpl.
    destruct (JsNum.lt (timeLeftMin sg) 0.5); reflexivity.
Qed.

(** What the entry block returns: the state it was given, that state with
    the ledger loaded, or the state after the entry was recorded. *)
Lemma entry_block_result (cfg : config) (e : env) (sg : signals) (sd : side)
  (inferred : bool) (px : jsval) (st st' : tstate) :
  entry_block cfg e sg sd inferred px st = Returned st' ->
  st' = st
  \/ st' = with_store st (Ledger.ensure_loaded (ledgerStore st))
  \/ exists r ep shares,
       let size := size_of_balance cfg (balance_of cfg (Ledger.current (ledgerStore st))) in
       let opened := entry_trade e (marketSlug_of sg) sd (JNum ep) shares size
                       (rec_phase r) inferred in
       sig_rec sg = Some r
       /\ px = JNum ep
       /\ meetsThresholds cfg sg r sd = true
       /\ priceOutOfBounds cfg (JNum ep) = false
       /\ noSize size = false
       /\ shares_for size (JNum ep) = Some shares
       /\ st' = after_open e opened (lastFlipAtMs st) st.
Proof.
  unfold entry_block. destruct (sig_rec sg) as [r |]; [| discriminate].
  destruct (meetsThresholds cfg sg r sd) eqn:Hmeets; [| intros [= <-]; auto].
  destruct (priceOutOfBounds cfg px) eqn:Hb; [intros [= <-]; auto |].
  rewrite TraderFacts.computeContractSizeUsd_eq.
  destruct (noSize _) eqn:Hsize; [intros [= <-]; auto |].
  destruct (shares_for _ px) as [shares |] eqn:Hsh; [| intros [= <-]; auto].
  destruct px as [| | ep]; try discriminate Hb.
  rewrite TraderFacts.addTrade_returns,
    (TraderFacts.entry_trade_accepted cfg _ _ _ _ _ _ _ _ Hb Hsh).
  unfold mbind, outcome_bind, obind. rewrite TraderFacts.getBalanceSnapshot_eq.
  intros [= <-]. right. right. exists r, ep, shares. cbv zeta.
  repeat (split; [first [reflexivity | assumption] |]).
  unfold after_open. f_equal.
  rewrite <- (store_after_add_loaded e _ (ledgerStore st)). reflexivity.
Qed.

(** The trade a flip builds passes the ledger's sanity test. *)
Lemma flip_trade_accepted (cfg : config) (e : env) (slug : string) (sd : side)
  (px shares size : float) (ph : option phase) :
  priceInBounds cfg (JNum px) = true ->
  flip_shares_for size (JNum px) = Some shares ->
  Ledger.refused (flip_trade e slug sd (JNum px) shares size ph) = false.
Proof.
  unfold priceInBounds, flip_shares_for, Ledger.refused, Ledger.badEp, Ledger.badSh. simpl.
  intros Hb Hs.
  destruct (JsNum.isFinite px); [| discriminate]. simpl.
  destruct (JsNum.gt px 0) eqn:Hgt; [| discriminate].
  destruct (JsNum.isFinite (size / px)) eqn:Hfin; [| discriminate].
  destruct (JsNum.gt (size / px) 0) eqn:Hpos; [| discriminate].
  injection Hs as <-. rewrite Hfin. simpl.
  unfold JsNum.le. rewrite (FloatFacts.lt0_not_le0 px Hgt).
  rewrite (FloatFacts.lt0_not_le0 (size / px) Hpos). reflexivity.
Qed.

(** What the flip entry returns, likewise. *)
Lemma flip_entry_result (cfg : config) (e : env) (sg : signals) (t0 : trade)
  (st st' : tstate) :
  flip_entry cfg e sg t0 st = Returned st' ->
  st' = st
  \/ st' = with_store st (Ledger.ensure_loaded (ledgerStore st))
  \/ exists ep shares,
       let size := size_of_balance cfg (balance_of cfg (Ledger.current (ledgerStore st))) in
       let flipped := flip_trade e (marketSlug_of sg) (other_side (t_side t0)) (JNum ep)
                        shares size
                        (match sig_rec sg with Some r => rec_phase r | None => None end) in
       price_of sg (Some (other_side (t_side t0))) = JNum ep
       /\ priceInBounds cfg (JNum ep) = true
       /\ isLowLiquidity cfg sg = false
       /\ isLowVolume cfg sg = false
       /\ noSize size = false
       /\ flip_shares_for size (JNum ep) = Some shares
       /\ st' = after_open e flipped (now_ms e) st.
Proof.
  unfold flip_entry. fold (other_side (t_side t0)).
  destruct (_ && _ && _) eqn:Hcond; [| intros [= <-]; auto].
  apply andb_prop in Hcond as [Hcond Hvol]. apply andb_prop in Hcond as [Hb Hliq].
  apply negb_true_iff in Hvol, Hliq.
  rewrite TraderFacts.computeContractSizeUsd_eq.
  destruct (noSize _) eqn:Hsize; [intros [= <-]; auto |].
  destruct (flip_shares_for _ _) as [shares |] eqn:Hsh; [| intros [= <-]; auto].
  destruct (price_of sg (Some (other_side (t_side t0)))) as [| | ep] eqn:Hpx;
    try discriminate Hb.
  rewrite TraderFacts.addTrade_returns, (flip_trade_accepted cfg _ _ _ _ _ _ _ Hb Hsh).
  unfold mbind, outcome_bind, obind. rewrite TraderFacts.getBalanceSnapshot_eq.
  intros [= <-]. right. right. exists ep, shares. cbv zeta.
  repeat (split; [first [reflexivity | assumption] |]).
  unfold after_open. f_equal.
  rewrite <- (store_after_add_loaded e _ (ledgerStore st)). reflexivity.
Qed.

(** What the exit block returns: the state it was given, or the state after
    the close, or what the flip entry makes of that. *)
Lemma exit_block_result (cfg : config) (e : env) (sg : signals) (n : nat) (t : trade)
  (st st' : tstate) :
  exit_block cfg e sg n t st = Returned st' ->
  st' = st
  \/ exists px reason,
       price_of sg (t_side t) = JNum px
       /\ ((rolledOver sg t = true /\ reason = "Market Rollover"
            /\ st' = after_close e t (JNum px) reason st)
           \/ (rolledOver sg t = false /\ opposingMoreLikely cfg sg t = false
               /\ JsNum.lt (timeLeftMin sg) 0.5 = true /\ reason = "End of Candle"
               /\ st' = after_close e t (JNum px) reason st)
           \/ (rolledOver sg t = false /\ opposingMoreLikely cfg sg t = true
               /\ reason = "Probability Flip"
               /\ if may_flip cfg e sg n st
                  then flip_entry cfg e sg t (after_close e t (JNum px) reason st)
                       = Returned st'
                  else st' = after_close e t (JNum px) reason st)).
Proof.
  unfold exit_block. rewrite exit_decision_eq.
  destruct (price_of_cases sg (t_side t)) as [Hpx | [px Hpx]]; rewrite Hpx; simpl.
  { destruct (rolledOver sg t); [intros [= <-]; auto |].
    destruct (opposingMoreLikely cfg sg t); [intros [= <-]; auto |].
    destruct (JsNum.lt (timeLeftMin sg) 0.5); intros [= <-]; auto. }
  destruct (rolledOver sg t).
  { rewrite TraderFacts.closeTrade_returns. intros [= <-].
    right. exists px, "Market Rollover". split; [reflexivity |]. left. auto. }
  destruct (opposingMoreLikely cfg sg t).
  - rewrite TraderFacts.closeTrade_returns. unfold mbind, outcome_bind, obind.
    fold (after_close e t (JNum px) "Probability Flip" st).
    intros Hrun. right. exists px, "Probability Flip". split; [reflexivity |].
    right. right. repeat (split; [reflexivity |]).
    destruct (may_flip cfg e sg n st); [exact Hrun |].
    unfold mret, outcome_ret in Hrun. injection Hrun as <-. reflexivity.
  - destruct (JsNum.lt (timeLeftMin sg) 0.5); [| intros [= <-]; auto].
    rewrite TraderFacts.closeTrade_returns. intros [= <-].
    right. exists px, "End of Candle". split; [reflexivity |]. right. left. auto.
Qed.

(** A tick of a flat trader: nothing, or the entry block behind its gate. *)
Lemma processSignals_flat (cfg : config) (e : env) (sg : signals) (n : nat)
  (st : tstate) :
  openTrade st = None ->
  processSignals cfg e sg n st = Returned st
  \/ exists sd inferred px,
       enabled cfg = true
       /\ (strictRec cfg = true -> action_of sg = "ENTER")
       /\ resolve_side cfg sg = (Some sd, inferred)
       /\ price_of sg (Some sd) = JNum px
       /\ entry_gate cfg sg n = true
       /\ processSignals cfg e sg n st = entry_block cfg e sg sd inferred (JNum px) st.
Proof.
  intros Hflat. unfold processSignals. rewrite Hflat. simpl.
  destruct (enabled cfg); [| left; reflexivity]. simpl.
  destruct (strictRec cfg && negb (String.eqb (action_of sg) "ENTER")) eqn:Hstrict;
    [left; reflexivity |].
  destruct (resolve_side cfg sg) as [[sd |] inferred]; [| left; reflexivity].
  destruct (price_of_cases sg (Some sd)) as [Hpx | [px Hpx]]; rewrite Hpx; simpl;
    [left; reflexivity |].
  rewrite andb_true_r.
  match goal with
  | |- context [if ?b then entry_block _ _ _ _ _ _ _ else _] =>
      change b with (entry_gate cfg sg n)
  end.
  destruct (entry_gate cfg sg n) eqn:Hgate; [| left; reflexivity].
  right. exists sd, inferred, px. split; [reflexivity |]. split.
  { intros Hs. rewrite Hs in Hstrict. simpl in Hstrict.
    apply negb_false_iff in Hstrict. apply String.eqb_eq. exact Hstrict. }
  split; [reflexivity |]. split; [exact Hpx |]. split; reflexivity.
Qed.

(** A tick of a trader that holds a trade: nothing, or the exit block. *)
Lemma processSignals_holding (cfg : config) (e : env) (sg : signals) (n : nat)
  (st : tstate) (t : trade) :
  openTrade st = Some t ->
  processSignals cfg e sg n st = Returned st
  \/ (enabled cfg = true
      /\ (exists sd inferred px,
            resolve_side cfg sg = (Some sd, inferred) /\ price_of sg (Some sd) = JNum px)
      /\ processSignals cfg e sg n st = exit_block cfg e sg n t st).
Proof.
  intros Hopen. unfold processSignals. rewrite Hopen. simpl.
  destruct (enabled cfg); [| left; reflexivity]. simpl.
  destruct (resolve_side cfg sg) as [[sd |] inferred]; [| left; reflexivity].
  destruct (price_of_cases sg (Some sd)) as [Hpx | [px Hpx]]; rewrite Hpx; simpl;
    [left; reflexivity |].
  rewrite !andb_false_r. simpl. right.
  split; [reflexivity |]. split; [| reflexivity]. exists sd, inferred, px.
  split; [reflexivity | exact Hpx].
Qed.

End TickShape.

(** ** What a tick of the trader does and never does *)

Module TraderLaws.

Import Trader.
Local Open Scope float_scope.

(** X7.  A flat trader does nothing on a tick that fails one of the entry
    gates: during the warm-up, with indicators that are not populated, in
    the final minutes of the window, on a market with a wide spread or low
    liquidity, on low volume, or in strict mode without an ENTER
    recommendation.  The state and the ledger are returned as they were. *)
Theorem blocked_entry_changes_nothing (cfg : config) (e : env) (sg : signals) (n : nat)
  (st : tstate) :
  openTrade st = None ->
  canEnter cfg n = false
  \/ indicatorsPopulated sg = false
  \/ isTooLateToEnter cfg sg = true
  \/ isLowLiquidity cfg sg = true
  \/ isLowVolume cfg sg = true
  \/ (strictRec cfg = true /\ action_of sg <> "ENTER") ->
  processSignals cfg e sg n st = Returned st.
Proof.
  intros Hflat Hblocked.
  destruct (TickShape.processSignals_flat cfg e sg n st Hflat)
    as [Hsame | (sd & inferred & px & _ & Hstrict & _ & _ & Hgate & _)]; [exact Hsame |].
  exfalso. unfold entry_gate in Hgate.
  repeat (apply andb_prop in Hgate as [Hgate ?]).
  destruct Hblocked as [H' | [H' | [H' | [H' | [H' | [H' Hact]]]]]];
    try (rewrite H' in *; discriminate).
  exact (Hact (Hstrict H')).
Qed.

Lemma blocked_entry_changes_nothing_witness :
  isTooLateToEnter Scenarios.cfg_default Scenarios.signals_a_late = true
  /\ processSignals Scenarios.cfg_default Scenarios.env_ok Scenarios.signals_a_late 30
       (fresh_trader Scenarios.store_empty)
     = Returned (fresh_trader Scenarios.store_empty).
Proof.
  split; [reflexivity |].
  apply (blocked_entry_changes_nothing Scenarios.cfg_default Scenarios.env_ok
           Scenarios.signals_a_late 30 (fresh_trader Scenarios.store_empty) eq_refl).
  right. right. left. reflexivity.
Defined.

(** X8.  Whenever a tick of a flat trader ends with a trade open, that
    trade passed every gate: the warm-up is over, the indicators are
    populated, the window is not in its final minutes, liquidity, spread
    and volume are acceptable, the model probability and the edge meet the
    thresholds of the recommendation's phase, and the entry price is the
    current quote of the trade's side, a finite number within
    [minPolyPrice, maxPolyPrice].  The trade is OPEN on the tick's market,
    the ledger accepted it, and it is the one record the tick appended. *)
Theorem entry_passed_every_gate (cfg : config) (e : env) (sg : signals) (n : nat)
  (st st' : tstate) (t : trade) :
  openTrade st = None ->
  processSignals cfg e sg n st = Returned st' ->
  openTrade st' = Some t ->
  exists r sd ep,
    sig_rec sg = Some r
    /\ canEnter cfg n = true
    /\ indicatorsPopulated sg = true
    /\ isTooLateToEnter cfg sg = false
    /\ isLowLiquidity cfg sg = false
    /\ isLowVolume cfg sg = false
    /\ meetsThresholds cfg sg r sd = true
    /\ fst (resolve_side cfg sg) = Some sd
    /\ price_of sg (Some sd) = JNum ep
    /\ priceOutOfBounds cfg (JNum ep) = false
    /\ t_side t = Some sd
    /\ t_entryPrice t = JNum ep
    /\ t_status t = Some OPEN
    /\ t_marketSlug t = Some (marketSlug_of sg)
    /\ Ledger.refused t = false
    /\ ledger_trades st' = (ledger_trades st ++ [t])%list.
Proof.
  intros Hflat Hrun Hnew.
  destruct (TickShape.processSignals_flat cfg e sg n st Hflat)
    as [Hsame | (sd & inferred & px & _ & _ & Hside & Hpx & Hgate & Heq)].
  { rewrite Hsame in Hrun. injection Hrun as <-. congruence. }
  rewrite Heq in Hrun.
  destruct (TickShape.entry_block_result _ _ _ _ _ _ _ _ Hrun)
    as [-> | [-> | (r & ep & shares & Hrec & Hep & Hmeets & Hb & Hsize & Hsh & ->)]];
    [congruence | simpl in Hnew; congruence |].
  injection Hep as <-. simpl in Hnew. injection Hnew as <-.
  unfold entry_gate in Hgate.
  apply andb_prop in Hgate as [Hgate Hvol]. apply andb_prop in Hgate as [Hgate Hliq].
  apply andb_prop in Hgate as [Hgate Hlate]. apply andb_prop in Hgate as [Hgate _].
  apply andb_prop in Hgate as [Hwarm Hind].
  apply negb_true_iff in Hvol, Hliq, Hlate.
  exists r, sd, px. rewrite Hside.
  repeat (split; [first [reflexivity | assumption] |]).
  split; [exact (TraderFacts.entry_trade_accepted cfg _ _ _ _ _ _ _ _ Hb Hsh) |].
  reflexivity.
Qed.

Lemma entry_passed_every_gate_witness :
  exists r sd ep,
    sig_rec Scenarios.signals_a = Some r
    /\ canEnter Scenarios.cfg_default 30 = true
    /\ indicatorsPopulated Scenarios.signals_a = true
    /\ isTooLateToEnter Scenarios.cfg_default Scenarios.signals_a = false
    /\ isLowLiquidity Scenarios.cfg_default Scenarios.signals_a = false
    /\ isLowVolume Scenarios.cfg_default Scenarios.signals_a = false
    /\ meetsThresholds Scenarios.cfg_default Scenarios.signals_a r sd = true
    /\ fst (resolve_side Scenarios.cfg_default Scenarios.signals_a) = Some sd
    /\ price_of Scenarios.signals_a (Some sd) = JNum ep
    /\ priceOutOfBounds Scenarios.cfg_default (JNum ep) = false
    /\ t_side Scenarios.opened_a = Some sd
    /\ t_entryPrice Scenarios.opened_a = JNum ep
    /\ t_status Scenarios.opened_a = Some OPEN
    /\ t_marketSlug Scenarios.opened_a = Some (marketSlug_of Scenarios.signals_a)
    /\ Ledger.refused Scenarios.opened_a = false
    /\ ledger_trades Scenarios.after_a
       = (ledger_trades (fresh_trader Scenarios.store_empty) ++ [Scenarios.opened_a])%list.
Proof.
  exact (entry_passed_every_gate Scenarios.cfg_default Scenarios.env_ok Scenarios.signals_a
           30 (fresh_trader Scenarios.store_empty) Scenarios.after_a Scenarios.opened_a
           eq_refl eq_refl eq_refl).
Defined.

(** In strict mode the side of a tick is the recommendation's. *)
Lemma resolve_side_strict (cfg : config) (sg : signals) (sd : side) (inferred : bool) :
  strictRec cfg = true ->
  resolve_side cfg sg = (Some sd, inferred) ->
  inferred = false /\ exists r, sig_rec sg = Some r /\ rec_side r = Some sd.
Proof.
  intros Hs. unfold resolve_side. rewrite Hs. simpl.
  destruct (sig_rec sg) as [r |]; [| discriminate].
  destruct (rec_side r) as [sd' |] eqn:Hr; [| discriminate].
  intros [= -> <-]. split; [reflexivity |]. exists r. auto.
Qed.

(** X9.  In strict mode every entry follows the recommendation: when a tick
    of a flat trader ends with a trade open, the recommendation's action
    is ENTER, the trade is on the side the recommendation names, and it is
    marked [sideInferred = false]. *)
Theorem strict_entry_follows_recommendation (cfg : config) (e : env) (sg : signals)
  (n : nat) (st st' : tstate) (t : trade) :
  strictRec cfg = true ->
  openTrade st = None ->
  processSignals cfg e sg n st = Returned st' ->
  openTrade st' = Some t ->
  exists r,
    sig_rec sg = Some r
    /\ rec_action r = Some "ENTER"
    /\ rec_side r = t_side t
    /\ t_sideInferred t = Some false.
Proof.
  intros Hstrict Hflat Hrun Hnew.
  destruct (TickShape.processSignals_flat cfg e sg n st Hflat)
    as [Hsame | (sd & inferred & px & _ & Hact & Hside & Hpx & Hgate & Heq)].
  { rewrite Hsame in Hrun. injection Hrun as <-. congruence. }
  rewrite Heq in Hrun.
  destruct (TickShape.entry_block_result _ _ _ _ _ _ _ _ Hrun)
    as [-> | [-> | (r & ep & shares & Hrec & Hep & Hmeets & Hb & Hsize & Hsh & ->)]];
    [congruence | simpl in Hnew; congruence |].
  simpl in Hnew. injection Hnew as <-.
  destruct (resolve_side_strict cfg sg sd inferred Hstrict Hside) as (-> & r' & Hr' & Hsd).
  rewrite Hrec in Hr'. injection Hr' as <-.
  exists r. split; [exact Hrec |]. split; [| split; [exact Hsd | reflexivity]].
  specialize (Hact Hstrict). unfold action_of in Hact. rewrite Hrec in Hact.
  unfold Js.str_or in Hact. destruct (rec_action r) as [a |]; [| discriminate].
  destruct (String.eqb a ""); [discriminate | congruence].
Qed.

Lemma strict_entry_follows_recommendation_witness :
  exists r,
    sig_rec Scenarios.signals_a = Some r
    /\ rec_action r = Some "ENTER"
    /\ rec_side r = t_side Scenarios.opened_a
    /\ t_sideInferred Scenarios.opened_a = Some false.
Proof.
  exact (strict_entry_follows_recommendation (Scenarios.cfg_with "strict" 0.58)
           Scenarios.env_ok Scenarios.signals_a 30 (fresh_trader Scenarios.store_empty)
           Scenarios.after_a Scenarios.opened_a eq_refl eq_refl eq_refl eq_refl).
Defined.

(** X10.  The end-of-candle exit.  With a trade open, no rollover and the
    flip condition false, a tick with less than half a minute left (that
    has a side with a price, and a quote [px] for the held side) closes the
    trade at [px] with reason "End of Candle" and the rounded profit, and
    leaves the trader flat: nothing is reopened, and the ledger keeps its
    length.  The warm-up plays no part: the trade is closed whatever the
    number of candles is. *)
Theorem end_of_candle_closes (cfg : config) (e : env) (sg : signals) (n : nat)
  (st : tstate) (t : trade) (i : nat) (sd : side) (inferred : bool) (px : float) :
  enabled cfg = true ->
  recorded_at st t i ->
  rolledOver sg t = false ->
  opposingMoreLikely cfg sg t = false ->
  JsNum.lt (timeLeftMin sg) 0.5 = true ->
  resolve_side cfg sg = (Some sd, inferred) ->
  Js.is_null (price_of sg (Some sd)) = false ->
  price_of sg (t_side t) = JNum px ->
  exists st' r,
    processSignals cfg e sg n st = Returned st'
    /\ openTrade st' = None
    /\ length (ledger_trades st') = length (ledger_trades st)
    /\ ledger_trades st' !! i = Some r
    /\ t_status r = Some CLOSED
    /\ t_exitReason r = Some "End of Candle"
    /\ t_exitPrice r = JNum px
    /\ t_pnl r = JNum (JsNum.toFixed2 (shares_of t * px - Js.to_number (t_contractSize t))).
Proof.
  intros Hen Hrec Hroll Hopp Htime Hside Hsdpx Hpx.
  assert (Hopen : openTrade st = Some t) by apply Hrec.
  rewrite (TraderFacts.processSignals_open cfg e sg n st t sd inferred Hen Hopen Hside Hsdpx).
  unfold exit_block. rewrite Hroll, TickShape.exit_decision_eq, Hopp, Htime, Hpx. simpl.
  rewrite TraderFacts.closeTrade_returns.
  destruct (TraderFacts.close_records e t px "End of Candle" st i Hrec)
    as (Hlen & r & Hr & Hfields).
  eexists. exists r. split; [reflexivity |]. split; [reflexivity |].
  split; [exact Hlen |]. split; [exact Hr | exact Hfields].
Qed.

Lemma end_of_candle_closes_witness :
  exists st' r,
    processSignals Scenarios.cfg_default Scenarios.env_ok Scenarios.signals_last_seconds 3
      (Scenarios.holding (Scenarios.trade_up Scenarios.id_a OPEN)) = Returned st'
    /\ openTrade st' = None
    /\ length (ledger_trades st') = 1%nat
    /\ ledger_trades st' !! 0%nat = Some r
    /\ t_status r = Some CLOSED
    /\ t_exitReason r = Some "End of Candle"
    /\ t_exitPrice r = JNum 0.5
    /\ t_pnl r = JNum 150.
Proof.
  exact (end_of_candle_closes Scenarios.cfg_default Scenarios.env_ok
           Scenarios.signals_last_seconds 3
           (Scenarios.holding (Scenarios.trade_up Scenarios.id_a OPEN))
           (Scenarios.trade_up Scenarios.id_a OPEN) 0 UP false 0.5
           eq_refl (TraderFacts.holding_recorded _) eq_refl eq_refl eq_refl eq_refl
           eq_refl eq_refl).
Defined.

(** X11.  A tick that starts with a trade open and ends with another one
    open has flipped: the flip condition held without rollover, flipping is
    enabled, the warm-up is over, the window is not in its final minutes,
    the cooldown since the last flip has passed, and liquidity, spread and
    volume are acceptable.  The old trade was closed with reason
    "Probability Flip"; the new trade is OPEN on the opposite side, marked
    with entry reason "Flip" and appended to the ledger, and the time of
    the last flip is now. *)
Theorem reopening_is_a_flip (cfg : config) (e : env) (sg : signals) (n : nat)
  (st st' : tstate) (t f : trade) :
  openTrade st = Some t ->
  processSignals cfg e sg n st = Returned st' ->
  openTrade st' = Some f ->
  st' <> st ->
  rolledOver sg t = false
  /\ opposingMoreLikely cfg sg t = true
  /\ Js.opt_or (flipOnProbabilityFlip cfg) true = true
  /\ canEnter cfg n = true
  /\ isTooLateToEnter cfg sg = false
  /\ JsNum.ge (now_ms e - lastFlipAtMs st) (Js.opt_or (flipCooldownSeconds cfg) 60 * 1000)
     = true
  /\ isLowLiquidity cfg sg = false
  /\ isLowVolume cfg sg = false
  /\ t_side f = Some (other_side (t_side t))
  /\ t_entryReason f = Some "Flip"
  /\ t_status f = Some OPEN
  /\ lastFlipAtMs st' = now_ms e
  /\ exists px,
       price_of sg (t_side t) = JNum px
       /\ ledger_trades st'
          = (trades (ledger_after_close e t (JNum px) "Probability Flip" st) ++ [f])%list.
Proof.
  intros Hopen Hrun Hnew Hchanged.
  destruct (TickShape.processSignals_holding cfg e sg n st t Hopen)
    as [Hsame | (_ & _ & Heq)].
  { rewrite Hsame in Hrun. injection Hrun as <-. congruence. }
  rewrite Heq in Hrun.
  destruct (TickShape.exit_block_result _ _ _ _ _ _ _ Hrun)
    as [-> | (px & reason & Hpx & [(_ & _ & ->) | [(_ & _ & _ & _ & ->) |
          (Hroll & Hopp & -> & Hflip)]])];
    [congruence | discriminate Hnew | discriminate Hnew |].
  destruct (may_flip cfg e sg n st) eqn:Hmay; [| subst st'; discriminate Hnew].
  destruct (TickShape.flip_entry_result _ _ _ _ _ _ Hflip)
    as [-> | [-> | (ep & shares & _ & _ & Hliq & Hvol & _ & _ & ->)]];
    [discriminate Hnew | discriminate Hnew |].
  simpl in Hnew. injection Hnew as <-.
  unfold may_flip in Hmay.
  apply andb_prop in Hmay as [Hmay Hcool]. apply andb_prop in Hmay as [Hmay Hlate].
  apply andb_prop in Hmay as [Hen Hwarm]. apply negb_true_iff in Hlate.
  repeat (split; [first [reflexivity | assumption] |]).
  exists px. split; [exact Hpx | reflexivity].
Qed.

Lemma reopening_is_a_flip_witness :
  exists f,
    openTrade Scenarios.after_a_then_b = Some f
    /\ rolledOver Scenarios.signals_b Scenarios.opened_a = false
    /\ opposingMoreLikely Scenarios.cfg_default Scenarios.signals_b Scenarios.opened_a = true
    /\ Js.opt_or (flipOnProbabilityFlip Scenarios.cfg_default) true = true
    /\ canEnter Scenarios.cfg_default 30 = true
    /\ isTooLateToEnter Scenarios.cfg_default Scenarios.signals_b = false
    /\ JsNum.ge (now_ms Scenarios.env_later - lastFlipAtMs Scenarios.after_a)
         (Js.opt_or (flipCooldownSeconds Scenarios.cfg_default) 60 * 1000) = true
    /\ isLowLiquidity Scenarios.cfg_default Scenarios.signals_b = false
    /\ isLowVolume Scenarios.cfg_default Scenarios.signals_b = false
    /\ t_side f = Some (other_side (t_side Scenarios.opened_a))
    /\ t_entryReason f = Some "Flip"
    /\ t_status f = Some OPEN
    /\ lastFlipAtMs Scenarios.after_a_then_b = now_ms Scenarios.env_later
    /\ exists px,
         price_of Scenarios.signals_b (t_side Scenarios.opened_a) = JNum px
         /\ ledger_trades Scenarios.after_a_then_b
            = (trades (ledger_after_close Scenarios.env_later Scenarios.opened_a (JNum px)
                         "Probability Flip" Scenarios.after_a) ++ [f])%list.
Proof.
  eexists. split; [reflexivity |].
  apply (reopening_is_a_flip Scenarios.cfg_default Scenarios.env_later Scenarios.signals_b 30
           Scenarios.after_a Scenarios.after_a_then_b Scenarios.opened_a);
    [reflexivity | reflexivity | reflexivity |].
  intros H. apply (f_equal (fun s => length (ledger_trades s))) in H.
  vm_compute in H. discriminate H.
Defined.

(** The trades of the ledger after a close: those before it, or records
    that are CLOSED with the reason given. *)
Lemma after_close_elems (e : env) (t : trade) (px : jsval) (reason : string)
  (st : tstate) (r : trade) :
  r ∈ trades (ledger_after_close e t px reason st) ->
  r ∈ ledger_trades st \/ (t_status r = Some CLOSED /\ t_exitReason r = Some reason).
Proof.
  unfold ledger_after_close, ledger_trades.
  set (c := closed e t px reason).
  assert (Hshared : forall y,
    y ∈ trades (Ledger.current (write_shared (sharedAt st) c (ledgerStore st))) ->
    y ∈ trades (Ledger.current (ledgerStore st))
    \/ (t_status y = Some CLOSED /\ t_exitReason y = Some reason)).
  { intros y. unfold write_shared.
    destruct (sharedAt st) as [k |]; [| auto].
    destruct (currentLedger (ledgerStore st)) as [l |] eqn:Hc; [| auto].
    unfold Ledger.current. simpl. rewrite Hc. intros Hy.
    apply InvariantFacts.elem_of_insert_inv in Hy as [-> | Hy]; [right | left]; auto. }
  unfold Ledger.patch_trade.
  destruct (Ledger.findIndex _ _) as [[i old] |]; [| apply Hshared].
  simpl. intros Hr.
  apply InvariantFacts.elem_of_insert_inv in Hr as [-> | Hr]; [| apply Hshared; exact Hr].
  right. split; reflexivity.
Qed.

(** X12.  Whatever a tick does, every record of the ledger after it is a
    record the ledger held before, or the OPEN trade the tick has just
    opened (which has no exit reason), or a record the tick has closed:
    CLOSED with reason "Market Rollover", "Probability Flip" or "End of
    Candle".  No tick records the reason "Stop Loss". *)
Theorem tick_records_known_exit_reasons (cfg : config) (e : env) (sg : signals) (n : nat)
  (st st' : tstate) (r : trade) :
  processSignals cfg e sg n st = Returned st' ->
  r ∈ ledger_trades st' ->
  r ∈ ledger_trades st
  \/ (openTrade st' = Some r /\ t_status r = Some OPEN /\ t_exitReason r = None)
  \/ (t_status r = Some CLOSED
      /\ (t_exitReason r = Some "Market Rollover"
          \/ t_exitReason r = Some "Probability Flip"
          \/ t_exitReason r = Some "End of Candle")).
Proof.
  intros Hrun Hr.
  assert (Hloaded : forall s0 : tstate,
    r ∈ ledger_trades (with_store s0 (Ledger.ensure_loaded (ledgerStore s0))) ->
    r ∈ ledger_trades s0).
  { intros s0. rewrite TraderFacts.ledger_trades_with_store. auto. }
  destruct (openTrade st) as [t |] eqn:Hopen.
  - destruct (TickShape.processSignals_holding cfg e sg n st t Hopen)
      as [Hsame | (_ & _ & Heq)].
    { rewrite Hsame in Hrun. injection Hrun as <-. auto. }
    rewrite Heq in Hrun.
    destruct (TickShape.exit_block_result _ _ _ _ _ _ _ Hrun)
      as [-> | (px & reason & Hpx & Hcases)]; [auto |].
    assert (Hclosed : r ∈ trades (ledger_after_close e t (JNum px) reason st) ->
      reason = "Market Rollover" \/ reason = "Probability Flip" \/ reason = "End of Candle" ->
      r ∈ ledger_trades st
      \/ (openTrade st' = Some r /\ t_status r = Some OPEN /\ t_exitReason r = None)
      \/ (t_status r = Some CLOSED
          /\ (t_exitReason r = Some "Market Rollover"
              \/ t_exitReason r = Some "Probability Flip"
              \/ t_exitReason r = Some "End of Candle"))).
    { intros Hin Hreason.
      destruct (after_close_elems e t (JNum px) reason st r Hin) as [Hold | [Hst Hre]];
        [auto |].
      right. right. split; [exact Hst |]. rewrite Hre.
      destruct Hreason as [-> | [-> | ->]]; auto. }
    destruct Hcases as [(_ & -> & ->) | [(_ & _ & _ & -> & ->) | (_ & _ & -> & Hflip)]].
    + apply Hclosed; [exact Hr | auto].
    + apply Hclosed; [exact Hr | auto].
    + destruct (may_flip cfg e sg n st); [| subst st'; apply Hclosed; [exact Hr | auto]].
      destruct (TickShape.flip_entry_result _ _ _ _ _ _ Hflip)
        as [-> | [-> | (ep & shares & _ & _ & _ & _ & _ & _ & ->)]].
      * apply Hclosed; [exact Hr | auto].
      * apply Hloaded in Hr. apply Hclosed; [exact Hr | auto].
      * unfold ledger_trades, after_open, store_after_add, Ledger.current in Hr.
        cbn [ledgerStore currentLedger Ledger.push_trade trades after_close] in Hr.
        apply elem_of_app in Hr as [Hr | Hr].
        -- destruct (after_close_elems e t (JNum px) "Probability Flip" st r Hr)
             as [Hold | [Hst Hre]]; [auto |].
           right. right. split; [exact Hst |]. rewrite Hre. auto.
        -- apply list_elem_of_singleton in Hr. subst r.
           right. left. repeat split.
  - destruct (TickShape.processSignals_flat cfg e sg n st Hopen)
      as [Hsame | (sd & inferred & px & _ & _ & _ & _ & _ & Heq)].
    { rewrite Hsame in Hrun. injection Hrun as <-. auto. }
    rewrite Heq in Hrun.
    destruct (TickShape.entry_block_result _ _ _ _ _ _ _ _ Hrun)
      as [-> | [-> | (r0 & ep & shares & _ & _ & _ & _ & _ & _ & ->)]];
      [auto | auto |].
    unfold ledger_trades, after_open, store_after_add, Ledger.current in Hr.
    cbn [ledgerStore currentLedger Ledger.push_trade trades] in Hr.
    apply elem_of_app in Hr as [Hr | Hr]; [left; exact Hr |].
    apply list_elem_of_singleton in Hr. subst r.
    right. left. repeat split.
Qed.

Lemma tick_records_known_exit_reasons_witness :
  Scenarios.opened_a ∈ ledger_trades Scenarios.after_a
  /\ (Scenarios.opened_a ∈ ledger_trades (fresh_trader Scenarios.store_empty)
      \/ (openTrade Scenarios.after_a = Some Scenarios.opened_a
          /\ t_status Scenarios.opened_a = Some OPEN
          /\ t_exitReason Scenarios.opened_a = None)
      \/ (t_status Scenarios.opened_a = Some CLOSED
          /\ (t_exitReason Scenarios.opened_a = Some "Market Rollover"
              \/ t_exitReason Scenarios.opened_a = Some "Probability Flip"
              \/ t_exitReason Scenarios.opened_a = Some "End of Candle"))).
Proof.
  assert (Hin : Scenarios.opened_a ∈ ledger_trades Scenarios.after_a).
  { apply list_elem_of_singleton. reflexivity. }
  split; [exact Hin |].
  exact (tick_records_known_exit_reasons Scenarios.cfg_default Scenarios.env_ok
           Scenarios.signals_a 30 (fresh_trader Scenarios.store_empty) Scenarios.after_a
           Scenarios.opened_a eq_refl Hin).
Defined.

Lemma exit_block_returns (cfg : config) (e : env) (sg : signals) (n : nat) (t : trade)
  (st : tstate) :
  exists st', exit_block cfg e sg n t st = Returned st'.
Proof.
  unfold exit_block.
  destruct (rolledOver sg t).
  { destruct (negb _); [| eexists; reflexivity].
    rewrite TraderFacts.closeTrade_returns. eexists. reflexivity. }
  destruct (exit_decision cfg e sg n st t) as [[shouldExit exitReason] shouldFlip].
  destruct shouldExit; [| eexists; reflexivity].
  destruct (negb _); [| eexists; reflexivity].
  rewrite TraderFacts.closeTrade_returns. unfold mbind, outcome_bind, obind.
  destruct shouldFlip; [| eexists; reflexivity].
  match goal with
  | |- context [flip_entry cfg e sg t ?st1] =>
      destruct (TraderFacts.flip_entry_returns cfg e sg t st1) as (st' & Hret & _)
  end.
  exists st'. exact Hret.
Qed.

(** X13.  A tick throws in exactly one situation: the signals carry no
    recommendation object while a flat trader in loose mode has a side
    with a price and passes the entry gate, so that the entry block
    destructures the missing recommendation.  In every other case it
    returns; in particular a failing ledger write never makes a tick
    throw, and a tick with a trade open never throws. *)
Theorem tick_throws_only_without_recommendation (cfg : config) (e : env) (sg : signals)
  (n : nat) (st : tstate) :
  (exists err, processSignals cfg e sg n st = Thrown err)
  <-> (enabled cfg = true
       /\ sig_rec sg = None
       /\ openTrade st = None
       /\ strictRec cfg = false
       /\ (exists sd, fst (resolve_side cfg sg) = Some sd
                      /\ Js.is_null (price_of sg (Some sd)) = false)
       /\ entry_gate cfg sg n = true).
Proof.
  split.
  - intros [err Hrun].
    destruct (openTrade st) as [t |] eqn:Hopen.
    { exfalso.
      destruct (TickShape.processSignals_holding cfg e sg n st t Hopen)
        as [Hsame | (_ & _ & Heq)]; [congruence |].
      destruct (exit_block_returns cfg e sg n t st) as [st' Hret]. congruence. }
    destruct (TickShape.processSignals_flat cfg e sg n st Hopen)
      as [Hsame | (sd & inferred & px & Hen & Hstrict & Hside & Hpx & Hgate & Heq)];
      [congruence |].
    assert (Hrec : sig_rec sg = None).
    { destruct (sig_rec sg) as [r |] eqn:Hrec; [| reflexivity]. exfalso.
      destruct (InvariantFacts.processSignals_returns cfg e sg n st r Hrec) as [st' Hret].
      congruence. }
    split; [exact Hen |]. split; [exact Hrec |]. split; [reflexivity |]. split.
    { destruct (strictRec cfg); [| reflexivity].
      specialize (Hstrict eq_refl). unfold action_of in Hstrict. rewrite Hrec in Hstrict.
      discriminate Hstrict. }
    split; [| exact Hgate].
    exists sd. rewrite Hside, Hpx. split; reflexivity.
  - intros (Hen & Hrec & Hflat & Hloose & (sd & Hside & Hpx) & Hgate).
    unfold processSignals. rewrite Hen, Hflat, Hloose. simpl.
    destruct (resolve_side cfg sg) as [side inferred]. simpl in Hside. subst side.
    rewrite Hpx, andb_true_r.
    match goal with
    | |- context [if ?b then entry_block _ _ _ _ _ _ _ else _] =>
        change b with (entry_gate cfg sg n)
    end.
    rewrite Hgate. unfold entry_block. rewrite Hrec. eexists. reflexivity.
Qed.

(** X28.  Without a balance there is no entry: when the starting balance
    plus the realized PnL is zero, negative or not finite,
    [computeContractSizeUsd] is 0 and a tick of a flat trader opens nothing
    and appends nothing to the ledger, whatever the signals are. *)
Theorem no_balance_no_entry (cfg : config) (e : env) (sg : signals) (n : nat)
  (st st' : tstate) :
  openTrade st = None ->
  JsNum.isFinite (balance_of cfg (Ledger.current (ledgerStore st))) = false
  \/ JsNum.le (balance_of cfg (Ledger.current (ledgerStore st))) 0 = true ->
  processSignals cfg e sg n st = Returned st' ->
  fst (computeContractSizeUsd cfg (ledgerStore st)) = 0
  /\ openTrade st' = None
  /\ ledger_trades st' = ledger_trades st.
Proof.
  intros Hflat Hbal Hrun.
  assert (Hsize : size_of_balance cfg (balance_of cfg (Ledger.current (ledgerStore st))) = 0).
  { unfold size_of_balance. destruct Hbal as [-> | ->]; [reflexivity |].
    rewrite orb_true_r. reflexivity. }
  split; [rewrite TraderFacts.computeContractSizeUsd_eq; exact Hsize |].
  destruct (TickShape.processSignals_flat cfg e sg n st Hflat)
    as [Hsame | (sd & inferred & px & _ & _ & _ & _ & _ & Heq)].
  { rewrite Hsame in Hrun. injection Hrun as <-. auto. }
  rewrite Heq in Hrun.
  destruct (TickShape.entry_block_result _ _ _ _ _ _ _ _ Hrun)
    as [-> | [-> | (r0 & ep & shares & _ & _ & _ & _ & Hno & _ & _)]].
  - auto.
  - split; [exact Hflat |]. apply TraderFacts.ledger_trades_with_store.
  - rewrite Hsize in Hno. discriminate Hno.
Qed.

Lemma no_balance_no_entry_witness :
  balance_of Scenarios.cfg_default (Ledger.current (ledgerStore Scenarios.flat_wiped_out)) = 0
  /\ entry_gate Scenarios.cfg_default Scenarios.signals_a 30 = true
  /\ exists st',
       processSignals Scenarios.cfg_default Scenarios.env_ok Scenarios.signals_a 30
         Scenarios.flat_wiped_out = Returned st'
       /\ fst (computeContractSizeUsd Scenarios.cfg_default
                 (ledgerStore Scenarios.flat_wiped_out)) = 0
       /\ openTrade st' = None
       /\ ledger_trades st' = ledger_trades Scenarios.flat_wiped_out.
Proof.
  split; [reflexivity |]. split; [reflexivity |].
  eexists. split; [reflexivity |].
  apply (no_balance_no_entry Scenarios.cfg_default Scenarios.env_ok Scenarios.signals_a 30
           Scenarios.flat_wiped_out);
    [reflexivity | right; reflexivity | reflexivity].
Defined.

End TraderLaws.

(** ** Start-up, restart and what the runs preserve *)

Module RunLaws.

Import Trader.
Local Open Scope float_scope.

(** With distinct identifiers, a trade's index is the first one under its
    identifier. *)
Lemma findIndex_NoDup (ts : list trade) (i : nat) (t : trade) :
  NoDup (ids ts) -> ts !! i = Some t -> Ledger.findIndex (t_id t) ts = Some (i, t).
Proof.
  intros Hnd Hi. apply LedgerLaws.findIndex_first; [exact Hi | reflexivity |].
  intros j y Hj Hlt Hid.
  assert (j = i); [| lia].
  eapply (NoDup_lookup (ids ts)); [exact Hnd | |]; unfold ids; rewrite list_lookup_fmap.
  - rewrite Hj. simpl. rewrite Hid. reflexivity.
  - rewrite Hi. reflexivity.
Qed.

Lemma getOpenTrade_Some (s : store) (i : nat) (t : trade) :
  fst (Ledger.getOpenTrade s) = Some (i, t) ->
  trades (Ledger.current s) !! i = Some t /\ is_open t = true.
Proof.
  unfold Ledger.getOpenTrade. cbn [fst]. rewrite LedgerFacts.current_ensure_loaded.
  intros Hf. apply list_find_Some in Hf as (Hi & Hot & _). auto.
Qed.

(** X14.  [initialize] closes an invalid open trade.  When the ledger's
    first OPEN trade has an entry price that is not a positive finite
    number, or shares that are set and do not convert ([Number(t.shares)])
    to a positive finite number, the trader
    starts flat and the record is rewritten in place: CLOSED, [pnl] 0, exit
    reason "Invalid Entry (sanity check)", exit time now; its identifier
    and entry price stay, and so does every other trade. *)
Theorem initialize_closes_invalid_open_trade (e : env) (s : store) (i : nat) (t : trade) :
  NoDup (ids (trades (Ledger.current s))) ->
  fst (Ledger.getOpenTrade s) = Some (i, t) ->
  badPrice t || badShares t = true ->
  exists st' r,
    initialize e (fresh_trader s) = Returned st'
    /\ openTrade st' = None
    /\ length (ledger_trades st') = length (trades (Ledger.current s))
    /\ ledger_trades st' !! i = Some r
    /\ t_status r = Some CLOSED
    /\ t_pnl r = JNum 0
    /\ t_exitReason r = Some "Invalid Entry (sanity check)"
    /\ t_exitTime r = Some (now_iso e)
    /\ t_id r = t_id t
    /\ t_entryPrice r = t_entryPrice t
    /\ (forall j, j <> i -> ledger_trades st' !! j = trades (Ledger.current s) !! j).
Proof.
  intros Hnd Hfound Hbad.
  destruct (getOpenTrade_Some s i t Hfound) as [Hi _].
  unfold initialize. cbn [ledgerStore fresh_trader].
  destruct (Ledger.getOpenTrade s) as [found s0] eqn:Hget.
  assert (Hs0 : s0 = Ledger.ensure_loaded s).
  { unfold Ledger.getOpenTrade in Hget. injection Hget as _ <-. reflexivity. }
  simpl in Hfound. subst found s0. rewrite Hbad.
  unfold Ledger.updateTrade. rewrite LedgerFacts.updateLedger_returns.
  rewrite LedgerFacts.current_ensure_loaded.
  unfold mbind, outcome_bind, obind, mret, outcome_ret.
  eexists. exists (merge t (forced e t)). split; [reflexivity |].
  unfold ledger_trades, Ledger.current.
  cbn [ledgerStore currentLedger openTrade]. fold (Ledger.current s).
  unfold Ledger.patch_trade. rewrite (findIndex_NoDup _ _ _ Hnd Hi).
  cbn [trades].
  split; [reflexivity |]. split; [apply length_insert |]. split.
  { apply list_lookup_insert_eq. eapply lookup_lt_Some. exact Hi. }
  repeat (split; [reflexivity |]). split.
  { simpl. destruct (t_id t); reflexivity. }
  split.
  { simpl. destruct (t_entryPrice t); reflexivity. }
  intros j Hj. apply list_lookup_insert_ne. congruence.
Qed.

Lemma initialize_closes_invalid_open_trade_witness :
  exists st' r,
    initialize Scenarios.env_ok (fresh_trader Scenarios.store_corrupt) = Returned st'
    /\ openTrade st' = None
    /\ length (ledger_trades st') = 1%nat
    /\ ledger_trades st' !! 0%nat = Some r
    /\ t_status r = Some CLOSED
    /\ t_pnl r = JNum 0
    /\ t_exitReason r = Some "Invalid Entry (sanity check)"
    /\ t_exitTime r = Some (now_iso Scenarios.env_ok)
    /\ t_id r = t_id Scenarios.trade_corrupt
    /\ t_entryPrice r = t_entryPrice Scenarios.trade_corrupt
    /\ (forall j, j <> 0%nat ->
          ledger_trades st' !! j = [Scenarios.trade_corrupt] !! j).
Proof.
  apply (initialize_closes_invalid_open_trade Scenarios.env_ok Scenarios.store_corrupt 0
           Scenarios.trade_corrupt).
  - apply NoDup_singleton.
  - reflexivity.
  - reflexivity.
Defined.

(** A number that is finite and not [<= 0] is [> 0]. *)
Lemma finite_not_le0_gt0 (x : float) :
  JsNum.isFinite x = true -> JsNum.le x 0 = false -> JsNum.gt x 0 = true.
Proof.
  unfold JsNum.isFinite, JsNum.le, JsNum.gt. intros Hfin Hle.
  destruct (0 <? x) eqn:Hlt; [reflexivity |].
  rewrite (FloatFacts.not_lt0_le0 x (FloatFacts.finite_not_nan x Hfin) Hlt) in Hle.
  discriminate.
Qed.

(** What [initialize] has done when the trader holds a trade after it. *)
Lemma initialize_holding (e : env) (s : store) (st' : tstate) (t : trade) :
  initialize e (fresh_trader s) = Returned st' ->
  openTrade st' = Some t ->
  exists i,
    fst (Ledger.getOpenTrade s) = Some (i, t)
    /\ badPrice t || badShares t = false
    /\ st' = {| openTrade := Some t; sharedAt := Some i; lastFlipAtMs := 0;
                ledgerStore := Ledger.ensure_loaded s |}.
Proof.
  unfold initialize. cbn [ledgerStore fresh_trader lastFlipAtMs].
  destruct (Ledger.getOpenTrade s) as [found s0] eqn:Hget.
  assert (Hs0 : s0 = Ledger.ensure_loaded s).
  { unfold Ledger.getOpenTrade in Hget. injection Hget as _ <-. reflexivity. }
  destruct found as [[i t0] |]; [| intros [= <-]; discriminate].
  destruct (badPrice t0 || badShares t0) eqn:Hbad.
  { unfold Ledger.updateTrade. rewrite LedgerFacts.updateLedger_returns.
    intros [= <-]. discriminate. }
  destruct (t_id t0); [| discriminate].
  intros [= <-] [= <-]. exists i. subst s0. auto.
Qed.

(** X15.  [initialize] never leaves the trader holding an invalid trade.
    When the trader holds a trade after [initialize], that trade is the
    ledger's first OPEN record, its entry price is a positive finite number
    and its shares are unset or convert ([Number(t.shares)]) to a positive
    finite number; the ledger was loaded and not written. *)
Theorem initialize_adopts_only_valid (e : env) (s : store) (st' : tstate) (t : trade) :
  initialize e (fresh_trader s) = Returned st' ->
  openTrade st' = Some t ->
  Spec.positive_finite (t_entryPrice t) = true
  /\ (Spec.is_set (t_shares t) = false
      \/ Spec.positive_finite (JNum (Js.to_number (t_shares t))) = true)
  /\ is_open t = true
  /\ (exists i, fst (Ledger.getOpenTrade s) = Some (i, t)
                /\ sharedAt st' = Some i /\ ledger_trades st' !! i = Some t)
  /\ ledgerStore st' = Ledger.ensure_loaded s.
Proof.
  intros Hrun Hnew.
  destruct (initialize_holding e s st' t Hrun Hnew) as (i & Hfst & Hbad & ->).
  apply orb_false_elim in Hbad as [Hp Hs].
  destruct (getOpenTrade_Some s i t Hfst) as [Hi Hot].
  split.
  { unfold badPrice in Hp. destruct (t_entryPrice t) as [| | ep]; try discriminate Hp.
    simpl in Hp. apply orb_false_elim in Hp as [Hfin Hle].
    apply negb_false_iff in Hfin. simpl.
    rewrite Hfin, (finite_not_le0_gt0 ep Hfin Hle). reflexivity. }
  split.
  { unfold badShares in Hs. unfold Spec.is_set.
    destruct (negb (Js.is_nullish (t_shares t))); [| left; reflexivity].
    right. simpl in Hs. apply orb_false_elim in Hs as [Hfin Hle].
    apply negb_false_iff in Hfin. simpl.
    rewrite Hfin, (finite_not_le0_gt0 _ Hfin Hle). reflexivity. }
  split; [exact Hot |]. split; [| reflexivity].
  exists i. split; [exact Hfst |]. split; [reflexivity |].
  unfold ledger_trades. cbn [ledgerStore].
  rewrite LedgerFacts.current_ensure_loaded. exact Hi.
Qed.

Lemma initialize_adopts_only_valid_witness :
  Spec.positive_finite (t_entryPrice (Scenarios.trade_up Scenarios.id_a OPEN)) = true
  /\ (Spec.is_set (t_shares (Scenarios.trade_up Scenarios.id_a OPEN)) = false
      \/ Spec.positive_finite
           (JNum (Js.to_number (t_shares (Scenarios.trade_up Scenarios.id_a OPEN)))) = true)
  /\ is_open (Scenarios.trade_up Scenarios.id_a OPEN) = true
  /\ (exists i,
        fst (Ledger.getOpenTrade
               (restart (Scenarios.store_of [Scenarios.trade_up Scenarios.id_a OPEN])))
        = Some (i, Scenarios.trade_up Scenarios.id_a OPEN)
        /\ sharedAt (Scenarios.adopted (Scenarios.trade_up Scenarios.id_a OPEN)) = Some i
        /\ ledger_trades (Scenarios.adopted (Scenarios.trade_up Scenarios.id_a OPEN)) !! i
           = Some (Scenarios.trade_up Scenarios.id_a OPEN))
  /\ ledgerStore (Scenarios.adopted (Scenarios.trade_up Scenarios.id_a OPEN))
     = Ledger.ensure_loaded
         (restart (Scenarios.store_of [Scenarios.trade_up Scenarios.id_a OPEN])).
Proof.
  exact (initialize_adopts_only_valid Scenarios.env_later
           (restart (Scenarios.store_of [Scenarios.trade_up Scenarios.id_a OPEN]))
           (Scenarios.adopted (Scenarios.trade_up Scenarios.id_a OPEN))
           (Scenarios.trade_up Scenarios.id_a OPEN) eq_refl eq_refl).
Defined.

(** X16.  Recording a trade that is not CLOSED leaves the balance that
    sizes entries as it was (over a ledger whose summary is the recomputed
    one, or absent): the balance counts realized PnL only, and an open
    position contributes nothing to it. *)
Theorem open_trade_keeps_balance (cfg : config) (e : env) (t : trade) (s s' : store) :
  is_closed t = false ->
  ledger_summary (Ledger.current s) = Some (Ledger.recalculateSummary (trades (Ledger.current s)))
  \/ ledger_summary (Ledger.current s) = None ->
  Ledger.addTrade e t s = Returned s' ->
  balance_of cfg (Ledger.current s') = balance_of cfg (Ledger.current s).
Proof.
  intros Hopen Hsum Hrun. rewrite TraderFacts.addTrade_returns in Hrun.
  injection Hrun as <-. destruct (Ledger.refused t); [reflexivity |].
  unfold balance_of. f_equal.
  rewrite (TraderFacts.realized_of_recalculated (Ledger.current s) Hsum).
  unfold Ledger.current at 1. cbn [currentLedger].
  rewrite (TraderFacts.realized_of_recalculated
             (Ledger.push_trade e t (Ledger.current s)) (or_introl eq_refl)).
  unfold Ledger.push_trade, Ledger.sum_pnl. cbn [trades].
  rewrite LedgerLaws.closed_pnls_app_open
    by (rewrite LedgerLaws.is_closed_newTrade; exact Hopen).
  reflexivity.
Qed.

Lemma open_trade_keeps_balance_witness :
  exists s',
    Ledger.addTrade Scenarios.env_ok (Scenarios.trade_up Scenarios.id_a OPEN)
      (Scenarios.store_of [Scenarios.trade_closed "1770070000000aaaaaa" 5]) = Returned s'
    /\ balance_of Scenarios.cfg_default (Ledger.current s') = 1005
    /\ balance_of Scenarios.cfg_default (Ledger.current s')
       = balance_of Scenarios.cfg_default
           (Ledger.current (Scenarios.store_of [Scenarios.trade_closed "1770070000000aaaaaa" 5])).
Proof.
  eexists. split; [reflexivity |]. split; [reflexivity |].
  apply (open_trade_keeps_balance Scenarios.cfg_default Scenarios.env_ok
           (Scenarios.trade_up Scenarios.id_a OPEN)
           (Scenarios.store_of [Scenarios.trade_closed "1770070000000aaaaaa" 5]));
    [reflexivity | left; reflexivity | reflexivity].
Defined.

(** *** The trader and the ledger agree on the open position *)

Lemma held_after_open (e : env) (t : trade) (x : float) (st : tstate) :
  Ledger.newTrade e t = t -> is_open t = true -> held_is_recorded (after_open e t x st).
Proof.
  intros Hnew Hot t' [= <-].
  exists (length (ledger_trades st)), t.
  unfold ledger_trades, after_open, store_after_add, Ledger.current.
  cbn [ledgerStore currentLedger Ledger.push_trade trades]. rewrite Hnew.
  split; [| split; [reflexivity | exact Hot]].
  rewrite lookup_app_r by reflexivity. rewrite Nat.sub_diag. reflexivity.
Qed.

Lemma held_flat (st : tstate) : openTrade st = None -> held_is_recorded st.
Proof. intros H t Ht. congruence. Qed.

Lemma held_processSignals (cfg : config) (e : env) (sg : signals) (n : nat)
  (st st' : tstate) :
  held_is_recorded st ->
  processSignals cfg e sg n st = Returned st' ->
  held_is_recorded st'.
Proof.
  intros Hheld Hrun.
  destruct (openTrade st) as [t |] eqn:Hopen.
  - destruct (TickShape.processSignals_holding cfg e sg n st t Hopen)
      as [Hsame | (_ & _ & Heq)].
    { rewrite Hsame in Hrun. injection Hrun as <-. exact Hheld. }
    rewrite Heq in Hrun.
    destruct (TickShape.exit_block_result _ _ _ _ _ _ _ Hrun)
      as [-> | (px & reason & Hpx & [(_ & _ & ->) | [(_ & _ & _ & _ & ->) |
            (_ & _ & -> & Hflip)]])];
      [exact Hheld | apply held_flat; reflexivity | apply held_flat; reflexivity |].
    destruct (may_flip cfg e sg n st); [| subst st'; apply held_flat; reflexivity].
    destruct (TickShape.flip_entry_result _ _ _ _ _ _ Hflip)
      as [-> | [-> | (ep & shares & _ & _ & _ & _ & _ & _ & ->)]];
      [apply held_flat; reflexivity | apply held_flat; reflexivity |].
    apply held_after_open; reflexivity.
  - destruct (TickShape.processSignals_flat cfg e sg n st Hopen)
      as [Hsame | (sd & inferred & px & _ & _ & _ & _ & _ & Heq)].
    { rewrite Hsame in Hrun. injection Hrun as <-. exact Hheld. }
    rewrite Heq in Hrun.
    destruct (TickShape.entry_block_result _ _ _ _ _ _ _ _ Hrun)
      as [-> | [-> | (r0 & ep & shares & _ & _ & _ & _ & _ & _ & ->)]];
      [exact Hheld | apply held_flat; exact Hopen |].
    apply held_after_open; reflexivity.
Qed.

Lemma held_initialize (e : env) (s : store) (st : tstate) :
  initialize e (fresh_trader s) = Returned st -> held_is_recorded st.
Proof.
  intros Hrun t Ht.
  destruct (initialize_holding e s st t Hrun Ht) as (i & Hfst & _ & ->).
  destruct (getOpenTrade_Some s i t Hfst) as [Hi Hot].
  exists i, t. unfold ledger_trades. cbn [ledgerStore].
  rewrite LedgerFacts.current_ensure_loaded. auto.
Qed.

Lemma reachable_held (cfg : config) (st : tstate) :
  reachable cfg st -> held_is_recorded st.
Proof.
  induction 1 as [e s st Hwf Hinit | e sg n st st' Hreach IH Hfresh Hrun].
  - exact (held_initialize e s st Hinit).
  - exact (held_processSignals cfg e sg n st st' IH Hrun).
Qed.

(** X17.  In every state the trader reaches (from a ledger with distinct
    identifiers and at most one OPEN trade, through [initialize] and any
    number of ticks) the trader and the ledger agree on the position: the
    trader is flat exactly when the ledger holds no OPEN trade, and when it
    holds a trade the ledger has exactly one OPEN record, which carries
    that trade's identifier. *)
Theorem trader_and_ledger_agree (cfg : config) (st : tstate) :
  reachable cfg st ->
  (openTrade st = None <-> Ledger.open_count (ledger_trades st) = 0%nat)
  /\ (forall t, openTrade st = Some t ->
        exists i x,
          ledger_trades st !! i = Some x
          /\ t_id x = t_id t
          /\ is_open x = true
          /\ forall j y, ledger_trades st !! j = Some y -> is_open y = true -> j = i).
Proof.
  intros Hreach.
  pose proof (InvariantFacts.reachable_coherent cfg st Hreach) as Hcoh.
  pose proof (reachable_held cfg st Hreach) as Hheld.
  split.
  - split; [apply (coh_flat st Hcoh) |].
    intros Hzero. destruct (openTrade st) as [t |] eqn:Hopen; [| reflexivity].
    exfalso. destruct (Hheld t Hopen) as (i & x & Hi & _ & Hox).
    rewrite (proj1 (InvariantFacts.open_count_zero_iff _) Hzero x) in Hox; [discriminate |].
    apply list_elem_of_lookup. exists i. exact Hi.
  - intros t Hopen. destruct (Hheld t Hopen) as (i & x & Hi & Hid & Hox).
    exists i, x. repeat (split; [assumption |]).
    intros j y Hj Hoy.
    assert (Hy : t_id y = t_id t).
    { apply (coh_open st Hcoh t y Hopen); [| exact Hoy].
      apply list_elem_of_lookup. exists j. exact Hj. }
    apply (NoDup_lookup (ids (ledger_trades st)) j i (t_id t)); [apply (coh_ids st Hcoh) | |];
      unfold ids; rewrite list_lookup_fmap.
    + rewrite Hj. simpl. rewrite Hy. reflexivity.
    + rewrite Hi. simpl. rewrite Hid. reflexivity.
Qed.

Lemma trader_and_ledger_agree_witness :
  (openTrade Scenarios.after_a_then_b = None
   <-> Ledger.open_count (ledger_trades Scenarios.after_a_then_b) = 0%nat)
  /\ (forall t, openTrade Scenarios.after_a_then_b = Some t ->
        exists i x,
          ledger_trades Scenarios.after_a_then_b !! i = Some x
          /\ t_id x = t_id t
          /\ is_open x = true
          /\ forall j y, ledger_trades Scenarios.after_a_then_b !! j = Some y ->
                         is_open y = true -> j = i).
Proof.
  exact (trader_and_ledger_agree Scenarios.cfg_default Scenarios.after_a_then_b
           InvariantFacts.reachable_after_a_then_b).
Defined.

(** *** A restart finds the open trade again *)

Lemma json_val_keeps (x : float) :
  JsNum.isFinite x = true -> PrimFloat.is_zero x = false ->
  Ledger.json_val (JNum x) = JNum x.
Proof. intros Hf Hz. unfold Ledger.json_val. rewrite Hf, Hz. reflexivity. Qed.

(** The trade an entry builds is written to the file as it is. *)
Lemma json_entry_trade (cfg : config) (e : env) (slug : string) (sd : side)
  (px shares size : float) (ph : option phase) (inferred : bool) :
  priceOutOfBounds cfg (JNum px) = false ->
  noSize size = false ->
  shares_for size (JNum px) = Some shares ->
  Ledger.json_trade (entry_trade e slug sd (JNum px) shares size ph inferred)
  = entry_trade e slug sd (JNum px) shares size ph inferred.
Proof.
  unfold priceOutOfBounds, noSize, shares_for. simpl. intros Hb Hsize Hsh.
  destruct (JsNum.isFinite px) eqn:Hpf; [| discriminate]. simpl in Hb.
  destruct (JsNum.gt px 0) eqn:Hgt; [| discriminate].
  destruct (JsNum.isFinite (size / px)) eqn:Hsf; [| discriminate]. simpl in Hsh.
  destruct (JsNum.le (size / px) 0) eqn:Hsle; [discriminate |]. injection Hsh as <-.
  apply orb_false_elim in Hsize as [Htruthy _]. apply negb_false_iff in Htruthy.
  unfold Ledger.json_trade, entry_trade.
  cbn [t_id t_timestamp t_marketSlug t_side t_instrument t_entryPrice t_shares
       t_contractSize t_status t_entryTime t_exitPrice t_exitTime t_pnl t_entryPhase
       t_sideInferred t_exitReason t_entryReason Ledger.json_prim].
  rewrite (json_val_keeps px Hpf (FloatMore.gt0_not_zero px Hgt)).
  rewrite (json_val_keeps (size / px) Hsf (FloatMore.not_le0_not_zero _ Hsle)).
  rewrite (json_val_keeps size (FloatMore.div_finite_dividend size px Hsf)
             (FloatMore.truthy_not_zero size Htruthy)).
  reflexivity.
Qed.

Lemma json_flip_trade (cfg : config) (e : env) (slug : string) (sd : side)
  (px shares size : float) (ph : option phase) :
  priceInBounds cfg (JNum px) = true ->
  noSize size = false ->
  flip_shares_for size (JNum px) = Some shares ->
  Ledger.json_trade (flip_trade e slug sd (JNum px) shares size ph)
  = flip_trade e slug sd (JNum px) shares size ph.
Proof.
  unfold priceInBounds, noSize, flip_shares_for. simpl. intros Hb Hsize Hsh.
  destruct (JsNum.isFinite px) eqn:Hpf; [| discriminate]. simpl in Hb.
  destruct (JsNum.gt px 0) eqn:Hgt; [| discriminate].
  destruct (JsNum.isFinite (size / px)) eqn:Hsf; [| discriminate]. simpl in Hsh.
  destruct (JsNum.gt (size / px) 0) eqn:Hsgt; [| discriminate]. injection Hsh as <-.
  apply orb_false_elim in Hsize as [Htruthy _]. apply negb_false_iff in Htruthy.
  unfold Ledger.json_trade, flip_trade.
  cbn [t_id t_timestamp t_marketSlug t_side t_instrument t_entryPrice t_shares
       t_contractSize t_status t_entryTime t_exitPrice t_exitTime t_pnl t_entryPhase
       t_sideInferred t_exitReason t_entryReason Ledger.json_prim].
  rewrite (json_val_keeps px Hpf (FloatMore.gt0_not_zero px Hgt)).
  rewrite (json_val_keeps (size / px) Hsf (FloatMore.gt0_not_zero _ Hsgt)).
  rewrite (json_val_keeps size (FloatMore.div_finite_dividend size px Hsf)
             (FloatMore.truthy_not_zero size Htruthy)).
  reflexivity.
Qed.

(** A trade the ledger accepts as OPEN passes the trader's sanity test. *)
Lemma accepted_is_valid (t : trade) :
  t_status t = Some OPEN -> Ledger.refused t = false -> badPrice t || badShares t = false.
Proof.
  unfold Ledger.refused, Ledger.isOpen. intros ->. simpl. auto.
Qed.

(** What a tick has done when it ends with a trade open that it did not
    start with: from a flat state (the one given, or the one after the
    close) it has recorded a trade that the ledger accepts and that JSON
    stores unchanged. *)
Lemma tick_opened (cfg : config) (e : env) (sg : signals) (n : nat)
  (st st' : tstate) (t : trade) :
  coherent st ->
  processSignals cfg e sg n st = Returned st' ->
  openTrade st' = Some t ->
  st' <> st ->
  exists before x,
    coherent before
    /\ openTrade before = None
    /\ st' = after_open e t x before
    /\ Ledger.newTrade e t = t
    /\ Ledger.json_trade t = t
    /\ t_status t = Some OPEN
    /\ Ledger.refused t = false
    /\ t_id t = Some (fresh_id e).
Proof.
  intros Hcoh Hrun Hnew Hchanged.
  destruct (openTrade st) as [t0 |] eqn:Hopen.
  - destruct (TickShape.processSignals_holding cfg e sg n st t0 Hopen)
      as [Hsame | (_ & _ & Heq)].
    { rewrite Hsame in Hrun. injection Hrun as <-. congruence. }
    rewrite Heq in Hrun.
    destruct (TickShape.exit_block_result _ _ _ _ _ _ _ Hrun)
      as [-> | (px & reason & Hpx & [(_ & _ & ->) | [(_ & _ & _ & _ & ->) |
            (_ & _ & -> & Hflip)]])];
      [congruence | discriminate Hnew | discriminate Hnew |].
    destruct (may_flip cfg e sg n st); [| subst st'; discriminate Hnew].
    destruct (InvariantFacts.coherent_close e t0 (JNum px) "Probability Flip" st _ Hcoh Hopen
                (TraderFacts.closeTrade_returns e t0 (JNum px) "Probability Flip" st))
      as (Hcoh1 & Hflat1 & _).
    destruct (TickShape.flip_entry_result _ _ _ _ _ _ Hflip)
      as [-> | [-> | (ep & shares & _ & Hb & _ & _ & Hsize & Hsh & ->)]];
      [discriminate Hnew | discriminate Hnew |].
    simpl in Hnew. injection Hnew as <-.
    eexists. exists (now_ms e). split; [exact Hcoh1 |]. split; [exact Hflat1 |].
    split; [reflexivity |]. split; [reflexivity |].
    split; [exact (json_flip_trade cfg _ _ _ _ _ _ _ Hb Hsize Hsh) |].
    split; [reflexivity |].
    split; [exact (TickShape.flip_trade_accepted cfg _ _ _ _ _ _ _ Hb Hsh) |].
    reflexivity.
  - destruct (TickShape.processSignals_flat cfg e sg n st Hopen)
      as [Hsame | (sd & inferred & px & _ & _ & _ & _ & _ & Heq)].
    { rewrite Hsame in Hrun. injection Hrun as <-. congruence. }
    rewrite Heq in Hrun.
    destruct (TickShape.entry_block_result _ _ _ _ _ _ _ _ Hrun)
      as [-> | [-> | (r0 & ep & shares & _ & _ & _ & Hb & Hsize & Hsh & ->)]];
      [congruence | simpl in Hnew; congruence |].
    simpl in Hnew. injection Hnew as <-.
    exists st, (lastFlipAtMs st). split; [exact Hcoh |]. split; [exact Hopen |].
    split; [reflexivity |]. split; [reflexivity |].
    split; [exact (json_entry_trade cfg _ _ _ _ _ _ _ _ Hb Hsize Hsh) |].
    split; [reflexivity |].
    split; [exact (TraderFacts.entry_trade_accepted cfg _ _ _ _ _ _ _ _ Hb Hsh) |].
    reflexivity.
Qed.

Lemma list_find_last {A : Type} (P : A -> Prop) `{!forall x, Decision (P x)}
  (l : list A) (y : A) :
  (forall x, x ∈ l -> ~ P x) -> P y -> list_find P (l ++ [y]) = Some (length l, y).
Proof.
  intros Hnone Hy. apply list_find_Some. split; [| split; [exact Hy |]].
  - rewrite lookup_app_r by reflexivity. rewrite Nat.sub_diag. reflexivity.
  - intros j z Hj Hlt. rewrite lookup_app_l in Hj by exact Hlt.
    apply Hnone. apply list_elem_of_lookup. exists j. exact Hj.
Qed.

Lemma initialize_adopts (e : env) (s : store) (i : nat) (t : trade) (tradeId : string) :
  fst (Ledger.getOpenTrade s) = Some (i, t) ->
  badPrice t || badShares t = false ->
  t_id t = Some tradeId ->
  initialize e (fresh_trader s)
  = Returned {| openTrade := Some t; sharedAt := Some i; lastFlipAtMs := 0;
                ledgerStore := Ledger.ensure_loaded s |}.
Proof.
  intros Hfst Hok Hid. unfold initialize. cbn [ledgerStore fresh_trader lastFlipAtMs].
  destruct (Ledger.getOpenTrade s) as [found s0] eqn:Hget.
  assert (Hs0 : s0 = Ledger.ensure_loaded s).
  { unfold Ledger.getOpenTrade in Hget. injection Hget as _ <-. reflexivity. }
  simpl in Hfst. subst found s0. rewrite Hok, Hid. reflexivity.
Qed.

(** X18.  A restart finds the open trade again.  When a tick that could
    write the ledger file has opened a trade (by an entry or by a flip), a
    new process over that file reads back the same trades, as JSON stores
    them, and its [initialize] adopts the very same trade record: no field
    of it was changed by the round trip through the file, and it passes the
    sanity test of the start-up. *)
Theorem restart_recovers_open_trade (cfg : config) (e e' : env) (sg : signals) (n : nat)
  (st st' : tstate) (t : trade) :
  reachable cfg st ->
  write_ok e = true ->
  processSignals cfg e sg n st = Returned st' ->
  openTrade st' = Some t ->
  st' <> st ->
  exists i,
    initialize e' (fresh_trader (restart (ledgerStore st')))
    = Returned {| openTrade := Some t; sharedAt := Some i; lastFlipAtMs := 0;
                  ledgerStore := Ledger.ensure_loaded (restart (ledgerStore st')) |}
    /\ ledger_trades st' !! i = Some t
    /\ trades (Ledger.current (restart (ledgerStore st')))
       = Ledger.json_trade <$> ledger_trades st'.
Proof.
  intros Hreach Hw Hrun Hnew Hchanged.
  pose proof (InvariantFacts.reachable_coherent cfg st Hreach) as Hcoh.
  destruct (tick_opened cfg e sg n st st' t Hcoh Hrun Hnew Hchanged)
    as (before & x & Hcohb & Hflat & -> & Hnt & Hjson & Hst & Hacc & Hid).
  pose proof (coh_flat before Hcohb Hflat) as Hzero.
  set (old := ledger_trades before) in *.
  assert (Htrades : ledger_trades (after_open e t x before) = (old ++ [t])%list).
  { unfold ledger_trades, after_open, store_after_add, Ledger.current.
    cbn [ledgerStore currentLedger Ledger.push_trade trades]. rewrite Hnt. reflexivity. }
  assert (Hdisk : trades (Ledger.current (restart (ledgerStore (after_open e t x before))))
                  = Ledger.json_trade <$> (old ++ [t])%list).
  { unfold restart, after_open, store_after_add, Ledger.current, Ledger.loadLedger.
    cbn [ledgerStore currentLedger disk]. rewrite Hw.
    cbn [Ledger.json_ledger Ledger.push_trade trades]. rewrite Hnt. reflexivity. }
  exists (length old). split; [| split].
  - apply (initialize_adopts _ _ _ _ (fresh_id e));
      [| apply accepted_is_valid; assumption | exact Hid].
    unfold Ledger.getOpenTrade. cbn [fst].
    rewrite LedgerFacts.current_ensure_loaded, Hdisk, fmap_app. simpl. rewrite Hjson.
    rewrite <- (length_fmap Ledger.json_trade old).
    apply list_find_last.
    + intros y Hy Hoy. apply list_elem_of_fmap in Hy as (y0 & -> & Hy0).
      change (is_open (Ledger.json_trade y0)) with (is_open y0) in Hoy.
      rewrite (proj1 (InvariantFacts.open_count_zero_iff old) Hzero y0 Hy0) in Hoy.
      discriminate.
    + unfold is_open. rewrite Hst. reflexivity.
  - rewrite Htrades. rewrite lookup_app_r by reflexivity.
    rewrite Nat.sub_diag. reflexivity.
  - rewrite Htrades. exact Hdisk.
Qed.

Lemma restart_recovers_open_trade_witness :
  exists i,
    initialize Scenarios.env_later (fresh_trader (restart (ledgerStore Scenarios.after_a)))
    = Returned {| openTrade := Some Scenarios.opened_a; sharedAt := Some i;
                  lastFlipAtMs := 0;
                  ledgerStore :=
                    Ledger.ensure_loaded (restart (ledgerStore Scenarios.after_a)) |}
    /\ ledger_trades Scenarios.after_a !! i = Some Scenarios.opened_a
    /\ trades (Ledger.current (restart (ledgerStore Scenarios.after_a)))
       = Ledger.json_trade <$> ledger_trades Scenarios.after_a.
Proof.
  apply (restart_recovers_open_trade Scenarios.cfg_default Scenarios.env_ok
           Scenarios.env_later Scenarios.signals_a 30 Scenarios.initialized
           Scenarios.after_a Scenarios.opened_a).
  - apply (reach_initialize Scenarios.cfg_default Scenarios.env_ok Scenarios.store_empty).
    + exact InvariantFacts.well_formed_empty.
    + reflexivity.
  - reflexivity.
  - reflexivity.
  - reflexivity.
  - intros H. apply (f_equal (fun s => length (ledger_trades s))) in H.
    vm_compute in H. discriminate H.
Defined.

End RunLaws.

(** ** The application: start-up, the main loop and the UI's view *)

Module AppLaws.

Import Trader.
Local Open Scope float_scope.

Lemma initializeLedger_fresh_start (e : env) (s s1 : store) :
  currentLedger s = None ->
  well_formed_store s ->
  Ledger.initializeLedger e s = Returned s1 ->
  well_formed_store s1 /\ summary_fresh s1.
Proof.
  intros Hnone [Hids Hle Hdisk]. unfold Ledger.initializeLedger. rewrite Hnone.
  rewrite LedgerFacts.saveLedger_returns. intros [= <-].
  assert (Hcur : Ledger.current s = Ledger.loadLedger s).
  { unfold Ledger.current. rewrite Hnone. reflexivity. }
  rewrite Hcur in Hids, Hle.
  destruct (write_ok e); (split; [constructor | reflexivity]);
    unfold Ledger.current; cbn [currentLedger disk trades]; try assumption.
  intros d [= <-]. simpl. rewrite InvariantFacts.open_count_json. exact Hle.
Qed.

Lemma fresh_after_close (e : env) (t : trade) (px : jsval) (reason : string)
  (st : tstate) :
  coherent st ->
  openTrade st = Some t ->
  summary_fresh (ledgerStore st) ->
  summary_fresh (ledgerStore (after_close e t px reason st)).
Proof.
  intros Hcoh Hopen Hf. unfold summary_fresh at 1, after_close, Ledger.current.
  cbn [ledgerStore currentLedger]. unfold ledger_after_close.
  set (c := closed e t px reason).
  unfold write_shared.
  destruct (sharedAt st) as [k |] eqn:Hk; [| apply LedgerLaws.patch_fresh; exact Hf].
  destruct (currentLedger (ledgerStore st)) as [l |] eqn:Hc;
    [| apply LedgerLaws.patch_fresh; exact Hf].
  pose proof (coh_shared st Hcoh t k Hopen Hk) as Hslot.
  unfold ledger_trades, Ledger.current in Hslot. rewrite Hc in Hslot.
  destruct (trades l !! k) as [x |] eqn:Hx; [| discriminate].
  unfold Ledger.current. cbn [currentLedger]. unfold Ledger.patch_trade. cbn [trades].
  assert (Hsome : is_Some (Ledger.findIndex (t_id t) (<[k := c]> (trades l)))).
  { unfold Ledger.findIndex. apply (list_find_elem_of _ _ c); [| reflexivity].
    apply list_elem_of_lookup. exists k. apply list_lookup_insert_eq.
    eapply lookup_lt_Some. exact Hx. }
  destruct Hsome as [[i old] ->]. reflexivity.
Qed.

Lemma fresh_after_open (e : env) (t : trade) (x : float) (st : tstate) :
  summary_fresh (ledgerStore (after_open e t x st)).
Proof. reflexivity. Qed.

Lemma fresh_processSignals (cfg : config) (e : env) (sg : signals) (n : nat)
  (st st' : tstate) :
  coherent st ->
  summary_fresh (ledgerStore st) ->
  processSignals cfg e sg n st = Returned st' ->
  summary_fresh (ledgerStore st').
Proof.
  intros Hcoh Hf Hrun.
  destruct (openTrade st) as [t |] eqn:Hopen.
  - destruct (TickShape.processSignals_holding cfg e sg n st t Hopen)
      as [Hsame | (_ & _ & Heq)].
    { rewrite Hsame in Hrun. injection Hrun as <-. exact Hf. }
    rewrite Heq in Hrun.
    destruct (TickShape.exit_block_result _ _ _ _ _ _ _ Hrun)
      as [-> | (px & reason & Hpx & [(_ & _ & ->) | [(_ & _ & _ & _ & ->) |
            (_ & _ & -> & Hflip)]])];
      [exact Hf | apply fresh_after_close; assumption
      | apply fresh_after_close; assumption |].
    pose proof (fresh_after_close e t (JNum px) "Probability Flip" st Hcoh Hopen Hf) as Hf1.
    destruct (may_flip cfg e sg n st); [| subst st'; exact Hf1].
    destruct (TickShape.flip_entry_result _ _ _ _ _ _ Hflip)
      as [-> | [-> | (ep & shares & _ & _ & _ & _ & _ & _ & ->)]];
      [exact Hf1 | apply LedgerLaws.ensure_loaded_fresh; exact Hf1 | reflexivity].
  - destruct (TickShape.processSignals_flat cfg e sg n st Hopen)
      as [Hsame | (sd & inferred & px & _ & _ & _ & _ & _ & Heq)].
    { rewrite Hsame in Hrun. injection Hrun as <-. exact Hf. }
    rewrite Heq in Hrun.
    destruct (TickShape.entry_block_result _ _ _ _ _ _ _ _ Hrun)
      as [-> | [-> | (r0 & ep & shares & _ & _ & _ & _ & _ & _ & ->)]];
      [exact Hf | apply LedgerLaws.ensure_loaded_fresh; exact Hf | reflexivity].
Qed.

Lemma fresh_initialize (e : env) (s : store) (st : tstate) :
  summary_fresh s ->
  initialize e (fresh_trader s) = Returned st ->
  summary_fresh (ledgerStore st).
Proof.
  intros Hf. unfold initialize. cbn [ledgerStore fresh_trader].
  destruct (Ledger.getOpenTrade s) as [found s0] eqn:Hget.
  assert (Hs0 : s0 = Ledger.ensure_loaded s).
  { unfold Ledger.getOpenTrade in Hget. injection Hget as _ <-. reflexivity. }
  subst s0. pose proof (LedgerLaws.ensure_loaded_fresh s Hf) as Hf0.
  destruct found as [[i t] |]; [| intros [= <-]; exact Hf0].
  destruct (badPrice t || badShares t);
    [| destruct (t_id t); [intros [= <-]; exact Hf0 | discriminate]].
  destruct (Ledger.updateTrade e (t_id t) (forced e t) (Ledger.ensure_loaded s))
    as [s1 | err] eqn:Hup; [| discriminate].
  intros [= <-]. exact (LedgerLaws.updateTrade_fresh _ _ _ _ _ Hf0 Hup).
Qed.

(** A run of the application is a run of the trader, over a ledger whose
    summary is fresh. *)
Lemma running_reachable (cfg : config) (a : app) :
  running cfg a ->
  instantiated a = true /\ reachable cfg (trader a) /\ summary_fresh (ledgerStore (trader a)).
Proof.
  induction 1 as [e s a Hnone Hwf Hstart | e sg n a Hrun IH Hfresh].
  - unfold App.startApp in Hstart.
    destruct (Ledger.initializeLedger e s) as [s1 | err] eqn:Hinit; [| discriminate].
    destruct (initializeLedger_fresh_start e s s1 Hnone Hwf Hinit) as [Hwf1 Hf1].
    unfold mbind, outcome_bind, obind, App.initializeTrader in Hstart.
    cbn [App.start instantiated trader ledgerStore fresh_trader] in Hstart.
    destruct (initialize e (fresh_trader s1)) as [st | err] eqn:Hi; [| discriminate].
    injection Hstart as <-. split; [reflexivity |]. split.
    + exact (reach_initialize cfg e s1 st Hwf1 Hi).
    + exact (fresh_initialize e s1 st Hf1 Hi).
  - destruct IH as (Hinst & Hreach & Hf). unfold App.pass. rewrite Hinst.
    destruct (enabled cfg); [| auto]. simpl.
    destruct (processSignals cfg e sg n (trader a)) as [st' | err] eqn:Htick; [| auto].
    split; [reflexivity |]. split.
    + exact (reach_tick cfg e sg n (trader a) st' Hreach Hfresh Htick).
    + exact (fresh_processSignals cfg e sg n (trader a) st'
               (InvariantFacts.reachable_coherent cfg _ Hreach) Hf Htick).
Qed.

Lemma running_after_a : running Scenarios.cfg_default Scenarios.app_after_a.
Proof.
  apply (run_pass Scenarios.cfg_default Scenarios.env_later Scenarios.signals_a 30
           Scenarios.app_started).
  - apply (run_start Scenarios.cfg_default Scenarios.env_ok Scenarios.store_empty).
    + reflexivity.
    + exact InvariantFacts.well_formed_empty.
    + reflexivity.
  - apply not_elem_of_nil.
Qed.

(** X19.  Throughout a run of the application (the ledger initialized
    first, then the trader, then any number of passes of the main loop)
    the ledger's summary is the one recomputed from its trades, so the
    balance that sizes entries is the starting balance plus the sum, in
    ledger order, of the [pnl] of the CLOSED trades. *)
Theorem running_balance_is_realized (cfg : config) (a : app) :
  running cfg a ->
  instantiated a = true
  /\ summary_fresh (ledgerStore (trader a))
  /\ fst (getBalanceSnapshot cfg (ledgerStore (trader a)))
     = Js.opt_or (startingBalance cfg) 1000 + Ledger.sum_pnl (ledger_trades (trader a)).
Proof.
  intros Hrun. destruct (running_reachable cfg a Hrun) as (Hinst & _ & Hf).
  split; [exact Hinst |]. split; [exact Hf |].
  rewrite TraderFacts.getBalanceSnapshot_eq. cbn [fst]. unfold balance_of.
  rewrite (TraderFacts.realized_of_recalculated _ (or_introl Hf)). reflexivity.
Qed.

Lemma running_balance_is_realized_witness :
  instantiated Scenarios.app_after_a = true
  /\ summary_fresh (ledgerStore (trader Scenarios.app_after_a))
  /\ fst (getBalanceSnapshot Scenarios.cfg_default
            (ledgerStore (trader Scenarios.app_after_a)))
     = Js.opt_or (startingBalance Scenarios.cfg_default) 1000
       + Ledger.sum_pnl (ledger_trades (trader Scenarios.app_after_a)).
Proof.
  exact (running_balance_is_realized Scenarios.cfg_default Scenarios.app_after_a
           running_after_a).
Defined.

(** X20.  Throughout a run of the application the module's [getOpenTrade]
    (the trader's open trade, or else the ledger's first OPEN trade)
    answers with the trade the trader holds: the fall-back to the ledger
    never finds an OPEN trade that the trader does not hold, and the answer
    is [null] exactly when the ledger has no OPEN trade.  A second
    [initializeTrader] changes nothing. *)
Theorem ui_open_trade_is_the_traders (cfg : config) (e : env) (a : app) :
  running cfg a ->
  fst (App.getOpenTrade a) = openTrade (trader a)
  /\ (fst (App.getOpenTrade a) = None
      <-> Ledger.open_count (ledger_trades (trader a)) = 0%nat)
  /\ App.initializeTrader e a = Returned a
  /\ App.getTraderInstance a = Some (trader a).
Proof.
  intros Hrun. destruct (running_reachable cfg a Hrun) as (Hinst & Hreach & _).
  pose proof (InvariantFacts.reachable_coherent cfg _ Hreach) as Hcoh.
  pose proof (RunLaws.reachable_held cfg _ Hreach) as Hheld.
  assert (Hfst : fst (App.getOpenTrade a) = openTrade (trader a)).
  { unfold App.getOpenTrade. rewrite Hinst.
    destruct (openTrade (trader a)) as [t |] eqn:Hopen; [reflexivity |].
    unfold Ledger.getOpenTrade. cbn [fst]. rewrite LedgerFacts.current_ensure_loaded.
    pose proof (coh_flat _ Hcoh Hopen) as Hzero.
    replace (list_find _ _) with (@None (nat * trade)); [reflexivity |].
    symmetry. apply list_find_None. apply Forall_forall. intros x Hx Hox.
    rewrite (proj1 (InvariantFacts.open_count_zero_iff _) Hzero x Hx) in Hox.
    discriminate. }
  split; [exact Hfst |]. split.
  - rewrite Hfst. split; [apply (coh_flat _ Hcoh) |].
    intros Hzero. destruct (openTrade (trader a)) as [t |] eqn:Hopen; [| reflexivity].
    exfalso. destruct (Hheld t Hopen) as (i & x & Hi & _ & Hox).
    rewrite (proj1 (InvariantFacts.open_count_zero_iff _) Hzero x) in Hox; [discriminate |].
    apply list_elem_of_lookup. exists i. exact Hi.
  - unfold App.initializeTrader, App.getTraderInstance. rewrite Hinst. split; reflexivity.
Qed.

Lemma ui_open_trade_is_the_traders_witness :
  fst (App.getOpenTrade Scenarios.app_after_a) = openTrade (trader Scenarios.app_after_a)
  /\ t_side <$> fst (App.getOpenTrade Scenarios.app_after_a) = Some (Some UP)
  /\ (fst (App.getOpenTrade Scenarios.app_after_a) = None
      <-> Ledger.open_count (ledger_trades (trader Scenarios.app_after_a)) = 0%nat)
  /\ App.initializeTrader Scenarios.env_ok Scenarios.app_after_a
     = Returned Scenarios.app_after_a
  /\ App.getTraderInstance Scenarios.app_after_a = Some (trader Scenarios.app_after_a).
Proof.
  destruct (ui_open_trade_is_the_traders Scenarios.cfg_default Scenarios.env_ok
              Scenarios.app_after_a running_after_a) as (H1 & H2 & H3 & H4).
  split; [exact H1 |]. split; [reflexivity |]. split; [exact H2 |].
  split; [exact H3 | exact H4].
Defined.

End AppLaws.

(** ** The earlier revision of the trader *)

Module LegacyLaws.

Local Open Scope float_scope.

(** X21.  In the earlier revision every entry follows an ENTER
    recommendation and has the fixed size: when a tick of a flat trader
    ends with a trade open, the warm-up is over, the recommendation's
    action is ENTER and it names the trade's side, the entry price is the
    current quote of that side, and the trade's notional is
    [CONFIG.contractSize] and its shares that notional divided by the entry
    price, whatever the balance is. *)
Theorem legacy_entry_is_fixed_and_explicit (cfg : config) (e : env) (sg : signals)
  (n : nat) (st st' : tstate) (t : trade) :
  openTrade st = None ->
  LegacyTrader.processSignals cfg e sg n st = Returned st' ->
  openTrade st' = Some t ->
  exists r sd ep size,
    sig_rec sg = Some r
    /\ rec_action r = Some "ENTER"
    /\ rec_side r = Some sd
    /\ Trader.canEnter cfg n = true
    /\ Trader.price_of sg (Some sd) = JNum ep
    /\ contractSize cfg = Some size
    /\ t_side t = Some sd
    /\ t_entryPrice t = JNum ep
    /\ t_contractSize t = JNum size
    /\ t_shares t = JNum (size / ep)
    /\ t_status t = Some OPEN
    /\ ledger_trades st' = (ledger_trades st ++ [t])%list.
Proof.
  intros Hflat. unfold LegacyTrader.processSignals. rewrite Hflat.
  destruct (negb (enabled cfg)); [intros [= <-]; congruence |].
  destruct (sig_rec sg) as [[action [sd |] ph edge] |]; try (intros [= <-]; congruence).
  destruct (TickShape.price_of_cases sg (Some sd)) as [Hpx | [ep Hpx]]; rewrite Hpx; simpl;
    [intros [= <-]; congruence |].
  destruct (Trader.canEnter cfg n) eqn:Hwarm; simpl; [| intros [= <-]; congruence].
  destruct (bool_decide (action = Some "ENTER")) eqn:Hact; simpl;
    [| intros [= <-]; congruence].
  apply bool_decide_eq_true in Hact.
  destruct (_ && _); [| intros [= <-]; congruence].
  destruct (Trader.meetsThresholds _ _ _ _); [| intros [= <-]; congruence].
  destruct (Trader.priceOutOfBounds cfg (JNum ep)) eqn:Hb; [intros [= <-]; congruence |].
  destruct (Trader.shares_for _ _) as [shares |] eqn:Hsh; [| intros [= <-]; congruence].
  rewrite TraderFacts.addTrade_returns.
  destruct (contractSize cfg) as [size |] eqn:Hsize.
  2:{ exfalso. unfold Trader.shares_for in Hsh. simpl in Hsh.
      destruct (JsNum.gt ep 0); [| discriminate].
      destruct (negb (JsNum.isFinite (nan / ep)) || JsNum.le (nan / ep) 0) eqn:Hn;
        [discriminate |].
      apply orb_false_elim in Hn as [Hfin _]. apply negb_false_iff in Hfin.
      pose proof (FloatMore.div_finite_dividend nan ep Hfin) as Hnan. discriminate Hnan. }
  simpl in Hsh.
  assert (Hacc : Ledger.refused
                   (LegacyTrader.entry_trade cfg e (Trader.marketSlug_of sg) sd (JNum ep)
                      shares ph) = false).
  { pose proof (TraderFacts.entry_trade_accepted cfg e (Trader.marketSlug_of sg) sd ep
                  shares size ph false Hb Hsh) as H.
    unfold Ledger.refused in *. exact H. }
  rewrite Hacc. unfold mbind, outcome_bind, obind, mret, outcome_ret.
  intros [= <-] [= <-].
  exists {| rec_action := action; rec_side := Some sd; rec_phase := ph; rec_edge := edge |},
    sd, ep, size.
  unfold LegacyTrader.entry_trade. rewrite Hsize. cbn.
  repeat (split; [first [reflexivity | assumption] |]).
  split.
  { unfold Trader.shares_for in Hsh. simpl in Hsh.
    destruct (JsNum.gt ep 0); [| discriminate].
    destruct (negb _ || _); [discriminate |]. injection Hsh as <-. reflexivity. }
  split; [reflexivity |].
  unfold ledger_trades, Ledger.current. reflexivity.
Qed.

Lemma legacy_entry_is_fixed_and_explicit_witness :
  exists r sd ep size,
    sig_rec Scenarios.signals_a = Some r
    /\ rec_action r = Some "ENTER"
    /\ rec_side r = Some sd
    /\ Trader.canEnter Scenarios.cfg_default 30 = true
    /\ Trader.price_of Scenarios.signals_a (Some sd) = JNum ep
    /\ contractSize Scenarios.cfg_default = Some size
    /\ t_side Scenarios.legacy_opened_a = Some sd
    /\ t_entryPrice Scenarios.legacy_opened_a = JNum ep
    /\ t_contractSize Scenarios.legacy_opened_a = JNum size
    /\ t_shares Scenarios.legacy_opened_a = JNum (size / ep)
    /\ t_status Scenarios.legacy_opened_a = Some OPEN
    /\ ledger_trades Scenarios.legacy_after_a
       = (ledger_trades Scenarios.flat_with_profit ++ [Scenarios.legacy_opened_a])%list.
Proof.
  exact (legacy_entry_is_fixed_and_explicit Scenarios.cfg_default Scenarios.env_ok
           Scenarios.signals_a 30 Scenarios.flat_with_profit Scenarios.legacy_after_a
           Scenarios.legacy_opened_a eq_refl eq_refl eq_refl).
Defined.

(** During the warm-up the earlier revision leaves a trade open in the last
    seconds of the window, where rev. 2 closes it. *)
Lemma legacy_warmup_blocks_exit_witness :
  Trader.canEnter Scenarios.cfg_default 3 = false
  /\ JsNum.lt (timeLeftMin Scenarios.signals_last_seconds) 0.5 = true
  /\ LegacyTrader.processSignals Scenarios.cfg_default Scenarios.env_ok
       Scenarios.signals_last_seconds 3
       (Scenarios.holding (Scenarios.trade_up Scenarios.id_a OPEN))
     = Returned (Scenarios.holding (Scenarios.trade_up Scenarios.id_a OPEN)).
Proof.
  split; [reflexivity |]. split; [reflexivity |].
  exact (RevisionFacts.legacy_warmup_blocks_exit Scenarios.cfg_default Scenarios.env_ok
           Scenarios.signals_last_seconds 3
           (Scenarios.holding (Scenarios.trade_up Scenarios.id_a OPEN)) eq_refl).
Defined.

(** On the next market's tick, at a loss, the earlier revision keeps the
    trade open. *)
Lemma legacy_keeps_open_witness :
  Trader.rolledOver Scenarios.signals_loss_rolled (Scenarios.trade_up Scenarios.id_a OPEN)
  = true
  /\ Trader.stopLossHit Scenarios.cfg_default Scenarios.signals_loss_rolled
       (Scenarios.trade_up Scenarios.id_a OPEN) = true
  /\ LegacyTrader.processSignals Scenarios.cfg_default Scenarios.env_ok
       Scenarios.signals_loss_rolled 30
       (Scenarios.holding (Scenarios.trade_up Scenarios.id_a OPEN))
     = Returned (Scenarios.holding (Scenarios.trade_up Scenarios.id_a OPEN)).
Proof.
  split; [reflexivity |]. split; [reflexivity |].
  exact (RevisionFacts.legacy_keeps_open Scenarios.cfg_default Scenarios.env_ok
           Scenarios.signals_loss_rolled 30
           (Scenarios.holding (Scenarios.trade_up Scenarios.id_a OPEN))
           (Scenarios.trade_up Scenarios.id_a OPEN) eq_refl eq_refl eq_refl).
Defined.

End LegacyLaws.

(** ** The VWAP series and its crosses *)

Module VwapLaws.

Import Vwap.
Local Open Scope nat_scope.

Lemma vwap_of_bars (c : candle) (cs : list candle) :
  computeSessionVwap (c :: cs) <> None.
Proof.
  intros H. unfold computeSessionVwap in H.
  destruct (JsNum.seq (v (loop (c :: cs))) 0); [| discriminate].
  unfold loop in H. rewrite VwapFacts.fold_step_n in H. simpl in H. discriminate.
Qed.

(** X24.  [computeSessionVwap] returns [null] for the empty array and for
    no other: whatever the bars hold, a session with at least one bar has a
    VWAP value (a number, possibly NaN). *)
Theorem vwap_null_only_when_empty (bars : list candle) :
  computeSessionVwap bars = None <-> bars = [].
Proof.
  split; [| intros ->; reflexivity].
  destruct bars as [| c cs]; [reflexivity |]. intros H.
  exfalso. exact (vwap_of_bars c cs H).
Qed.

Lemma take_S_take (i k : nat) (bars : list candle) :
  i < k -> take (S i) (take k bars) = take (S i) bars.
Proof. intros H. rewrite take_take. f_equal. lia. Qed.

Lemma length_computeVwapSeries (bars : list candle) :
  length (computeVwapSeries bars) = length bars.
Proof. unfold computeVwapSeries. rewrite length_fmap, length_seq. reflexivity. Qed.

(** X25.  [computeVwapSeries] has one entry per bar, none of them [null];
    entry [i] is the session VWAP of the first [i + 1] bars, so the last
    entry is the session VWAP of all bars, and the series of a prefix of
    the bars is that prefix of the series: a later bar never changes an
    earlier entry. *)
Theorem vwap_series_is_causal (bars : list candle) :
  length (computeVwapSeries bars) = length bars
  /\ (forall i, i < length bars ->
        computeVwapSeries bars !! i = Some (computeSessionVwap (take (S i) bars)))
  /\ (forall x, x ∈ computeVwapSeries bars -> x <> None)
  /\ (bars <> [] -> last (computeVwapSeries bars) = Some (computeSessionVwap bars))
  /\ (forall k, computeVwapSeries (take k bars) = take k (computeVwapSeries bars)).
Proof.
  pose proof (length_computeVwapSeries bars) as Hlen.
  assert (Hat : forall i, i < length bars ->
            computeVwapSeries bars !! i = Some (computeSessionVwap (take (S i) bars))).
  { intros i Hi. unfold computeVwapSeries. rewrite list_lookup_fmap.
    rewrite lookup_seq_lt by exact Hi. reflexivity. }
  split; [exact Hlen |]. split; [exact Hat |]. split; [| split].
  - intros x Hx. apply list_elem_of_lookup in Hx as [i Hi].
    assert (Hlt : i < length bars).
    { rewrite <- Hlen. eapply lookup_lt_Some. exact Hi. }
    rewrite (Hat i Hlt) in Hi. injection Hi as <-.
    destruct bars as [| c cs]; [simpl in Hlt; lia |]. apply vwap_of_bars.
  - intros Hne. rewrite last_lookup, Hlen.
    destruct bars as [| c cs]; [congruence |].
    cbn [length Nat.pred]. rewrite Hat by (simpl; lia).
    rewrite take_ge by (simpl; lia). reflexivity.
  - intros k. unfold computeVwapSeries.
    rewrite <- fmap_take, take_seq, length_take.
    apply list_eq. intros i. rewrite !list_lookup_fmap.
    destruct (decide (i < k `min` length bars)) as [Hi | Hi].
    + rewrite !lookup_seq_lt by exact Hi. simpl. rewrite take_S_take by lia. reflexivity.
    + rewrite !lookup_seq_ge by lia. reflexivity.
Qed.

Lemma count_le (p : nat -> bool) (l : list nat) (c0 : nat) :
  c0 <= fold_left (fun crosses i => if p i then S crosses else crosses) l c0
  /\ fold_left (fun crosses i => if p i then S crosses else crosses) l c0 <= c0 + length l.
Proof.
  revert c0. induction l as [| i l IH]; intros c0; simpl; [lia |].
  destruct (p i); destruct (IH (S c0)), (IH c0); lia.
Qed.

(** X26.  [countVwapCrosses] returns [null] exactly when the closes or the
    series are fewer than [lookback]; otherwise it returns a count of at
    most [lookback - 1], one less than the window.  Over the series that
    [computeVwapSeries] gives for the bars, it is [null] exactly when there
    are fewer than [lookback] bars. *)
Theorem vwap_crosses_bounded (closes : list float) (vwapSeries : list (option float))
  (lookback : nat) (bars : list candle) :
  (VwapCross.countVwapCrosses closes vwapSeries lookback = None
   <-> length closes < lookback \/ length vwapSeries < lookback)
  /\ (forall c, VwapCross.countVwapCrosses closes vwapSeries lookback = Some c ->
                c <= lookback - 1)
  /\ (VwapCross.countVwapCrosses (close <$> bars) (computeVwapSeries bars) lookback = None
      <-> length bars < lookback).
Proof.
  assert (Hnull : forall cl vs,
    VwapCross.countVwapCrosses cl vs lookback = None
    <-> length cl < lookback \/ length vs < lookback).
  { intros cl vs. unfold VwapCross.countVwapCrosses. rewrite <- !Nat.ltb_lt.
    destruct (length cl <? lookback), (length vs <? lookback); simpl;
      split; intros H; try discriminate H; auto; destruct H; discriminate. }
  split; [apply Hnull |]. split.
  - intros c. unfold VwapCross.countVwapCrosses.
    destruct (_ || _); [discriminate |]. intros [= <-].
    match goal with
    | |- fold_left _ ?l 0 <= _ =>
        pose proof (count_le (VwapCross.crossed closes vwapSeries) l 0) as [_ H];
        rewrite length_seq in H; exact H
    end.
  - rewrite Hnull, length_fmap, length_computeVwapSeries. lia.
Qed.

End VwapLaws.

(** ** The UI's analytics against the ledger's summary *)

Module AnalyticsLaws.

Local Open Scope nat_scope.

Lemma lt0_not_gt0 (x : float) : (x <? 0)%float = true -> (0 <? x)%float = false.
Proof.
  rewrite !FloatAxioms.ltb_spec, FloatFacts.Prim2SF_zero.
  destruct (Prim2SF x) as [s | s | | s m e]; try discriminate; try reflexivity;
    destruct s; try discriminate; reflexivity.
Qed.

Lemma filter_length_le {A : Type} (p q : A -> bool) (l : list A) :
  (forall x, p x = true -> q x = true) ->
  length (List.filter p l) <= length (List.filter q l).
Proof.
  intros Hpq. induction l as [| a l IH]; [reflexivity |]. simpl.
  destruct (p a) eqn:Hp.
  - rewrite (Hpq a Hp). simpl. lia.
  - destruct (q a); simpl; lia.
Qed.

Lemma filter_fmap_length {A B : Type} (f : A -> B) (q : B -> bool) (l : list A) :
  length (List.filter q (f <$> l)) = length (List.filter (fun x => q (f x)) l).
Proof.
  induction l as [| a l IH]; [reflexivity |].
  rewrite fmap_cons. cbn [List.filter].
  destruct (q (f a)); cbn [length]; rewrite IH; reflexivity.
Qed.

Lemma is_win_eq (t : trade) :
  Analytics.is_win t = JsNum.gt (Js.to_number (t_pnl t)) 0.
Proof. unfold Analytics.is_win. destruct (t_pnl t); reflexivity. Qed.

Lemma is_loss_not_win (t : trade) :
  Analytics.is_loss t = true -> negb (JsNum.gt (Js.to_number (t_pnl t)) 0) = true.
Proof.
  unfold Analytics.is_loss. destruct (t_pnl t) as [| | x]; try discriminate. simpl.
  intros H. unfold JsNum.gt. rewrite (lt0_not_gt0 x H). reflexivity.
Qed.

Lemma sum_numbers (l : list trade) (a : float) :
  Forall (fun t => Js.is_number (t_pnl t) = true) l ->
  fold_left
    (fun acc t => (acc + (if Js.is_number (t_pnl t) then Js.to_number (t_pnl t) else 0))%float)
    l a
  = fold_left (fun acc (p : jsval) => (acc + Js.to_number p)%float) (t_pnl <$> l) a.
Proof.
  revert a. induction l as [| t l IH]; intros a Hall; [reflexivity |].
  apply Forall_cons in Hall as [Ht Hl]. simpl. rewrite Ht. apply IH. exact Hl.
Qed.

(** X27.  The analytics of the UI server and the ledger's summary count
    the same CLOSED trades and the same wins, but not the same losses: the
    summary counts every CLOSED trade that is not a win as a loss, the
    analytics only those with a negative [pnl], so the analytics' losses
    never exceed the summary's (a CLOSED trade that broke even is a loss in
    the summary and neither in the analytics).  When every CLOSED trade has
    a number as [pnl], the two totals of PnL are the same number. *)
Theorem analytics_agree_with_summary (ts : list trade) :
  let a := Analytics.overview_of ts in
  let s := Ledger.recalculateSummary ts in
  Analytics.closedTrades a = wins s + losses s
  /\ Analytics.wins a = wins s
  /\ Analytics.losses a <= losses s
  /\ Analytics.wins a + Analytics.losses a <= Analytics.closedTrades a
  /\ (Forall (fun t => Js.is_number (t_pnl t) = true) (List.filter is_closed ts) ->
      JNum (Analytics.totalPnL a) = totalPnL s).
Proof.
  cbv zeta.
  assert (Hw : Analytics.wins (Analytics.overview_of ts)
               = wins (Ledger.recalculateSummary ts)).
  { simpl. unfold Ledger.count_wins, Ledger.closed_pnls, Analytics.closed.
    rewrite filter_fmap_length. f_equal.
    apply List.filter_ext. intros t. apply is_win_eq. }
  assert (Hl : Analytics.losses (Analytics.overview_of ts)
               <= losses (Ledger.recalculateSummary ts)).
  { simpl. unfold Ledger.count_losses, Ledger.closed_pnls, Analytics.closed.
    rewrite filter_fmap_length. apply filter_length_le. apply is_loss_not_win. }
  assert (Hc : Analytics.closedTrades (Analytics.overview_of ts)
               = wins (Ledger.recalculateSummary ts) + losses (Ledger.recalculateSummary ts)).
  { simpl. rewrite LedgerLaws.wins_losses_closed. reflexivity. }
  split; [exact Hc |]. split; [exact Hw |]. split; [exact Hl |]. split.
  - rewrite Hc, Hw. lia.
  - intros Hall. simpl. unfold Analytics.sum, Ledger.sum_pnl, Ledger.closed_pnls,
      Analytics.closed.
    rewrite (sum_numbers _ _ Hall). reflexivity.
Qed.

End AnalyticsLaws.
